(** * Shape-composition engine of the Figma plugin

    A shallow embedding of the plugin code ([generateShape],
    [normalizeColor], [hexToRgb], [generateShapes] and the
    [figma.ui.onmessage] handler) together with the properties stated about
    it.

    Conventions of the embedding.
    - A JavaScript [number] is a rational ([Q]); the values that JSON cannot
      carry (NaN, the infinities) are outside the model, and so is rounding.
    - A JavaScript string is a sequence of code units below 256 (Latin-1).
    - An optional field ([f?: T]) is an [option]; [None] is [undefined].
    - A scene node is the record of the property writes the code performs on
      it; a field that is [None] was left at whatever the host created.
    - [throw] and a rejected promise are the [Throw] outcome of [result];
      [await] is the bind of that monad.
    - The host objects ([figma.create*], [figma.loadFontAsync], which
      properties a node object has) are not part of the repository: they are
      a parameter, the record [Host]; whether the host puts a node on the
      page when it creates it is the parameter [Placement]. *)

From Stdlib Require Import ZArith QArith Qround Lqa Ascii String.
From Stdlib Require Import Sorting.Sorted.
From stdpp Require Import base option list strings gmap.

Close Scope Q_scope.
Open Scope string_scope.
Open Scope list_scope.

(** ** JavaScript primitives used by the plugin *)

Module JS.

Abbreviation number := Q.

(** [if (n)] on a number: every number but zero is truthy. *)
Definition truthy (n : number) : bool := negb (Qeq_bool n 0%Q).

(** [if (s)] on a string: every string but the empty one is truthy. *)
Definition truthy_string (s : string) : bool :=
  match s with
  | EmptyString => false
  | String _ _ => true
  end.

(** [n ?? d] *)
Definition nullish {A} (o : option A) (d : A) : A :=
  match o with
  | Some a => a
  | None => d
  end.

(** One code unit of [String.prototype.toLowerCase]: A-Z, and the
    upper-case letters of Latin-1 (U+00C0-U+00DE without U+00D7). *)
Definition lower_unit (c : ascii) : ascii :=
  let n := N_of_ascii c in
  if (((65 <=? n) && (n <=? 90))
      || ((192 <=? n) && (n <=? 222) && negb (n =? 215)))%N
  then ascii_of_N (n + 32)
  else c.

Fixpoint toLowerCase (s : string) : string :=
  match s with
  | EmptyString => EmptyString
  | String c rest => String (lower_unit c) (toLowerCase rest)
  end.

(** [s.startsWith(p)] *)
Fixpoint startsWith (s p : string) {struct p} : bool :=
  match p with
  | EmptyString => true
  | String b p' =>
      match s with
      | EmptyString => false
      | String a s' => Ascii.eqb a b && startsWith s' p'
      end
  end.

(** Strict equality [===] on strings. *)
Definition seq (s t : string) : bool := String.eqb s t.

(** [Array.prototype.sort(compareFn)].  ECMAScript requires the sort to be
    stable and, for a consistent comparator, to place [a] after [b] only
    when [compareFn(a, b) > 0]; which algorithm the engine runs is not
    fixed.  The model is the insertion sort that obeys this rule
    ([Array_sort_unique] and [sortedShapes_unique] show that the rule
    leaves no other result). *)
Section Sort.
Context {A : Type} (compareFn : A -> A -> number).

Fixpoint insert (a : A) (l : list A) : list A :=
  match l with
  | [] => [a]
  | b :: l' =>
      if Qle_bool (compareFn a b) 0%Q then a :: b :: l'
      else b :: insert a l'
  end.

Fixpoint Array_sort (l : list A) : list A :=
  match l with
  | [] => []
  | a :: l' => insert a (Array_sort l')
  end.
End Sort.

End JS.

(** ** Outcome of a call: a value, or a thrown error / rejected promise *)

(** The three ways a call of the plugin code can fail.  The first two are
    the [throw new Error(...)] statements of the source (the message text is
    not modelled); the third is a rejection of [figma.loadFontAsync]. *)
Inductive Error : Type :=
  | UnsupportedShapeType   (* `Unsupported shape type: ${config.type}` *)
  | InvalidColor           (* `Invalid hex color: ${hex}` *)
  | ResourceUnavailable.   (* the font could not be loaded *)

Inductive result (A : Type) : Type :=
  | Ok (a : A)
  | Throw (e : Error).
Arguments Ok {A} a.
Arguments Throw {A} e.

Definition bind {A B} (k : A -> result B) (m : result A) : result B :=
  match m with
  | Ok a => k a
  | Throw e => Throw e
  end.

(** [x ← m; k] runs [m] and, unless it threw, continues with [k]. *)
#[global] Instance result_bind : MBind result := @bind.
#[global] Instance result_ret : MRet result := @Ok.

Definition succeeds {A} (m : result A) : bool :=
  match m with
  | Ok _ => true
  | Throw _ => false
  end.

#[global] Instance Error_eq_dec : EqDecision Error.
Proof. solve_decision. Defined.

(** ** Data model *)

(** [interface ShapeConfig] *)
Module Config.
Record ShapeConfig : Type := {
  type : string;
  x : JS.number;
  y : JS.number;
  width : JS.number;
  height : JS.number;
  fill : option string;
  stroke : option string;
  strokeWidth : option JS.number;
  cornerRadius : option JS.number;
  zIndex : option JS.number;
  text : option string;
  fontSize : option JS.number;
  pointCount : option JS.number;
  innerRadius : option JS.number;
  polygonPointCount : option JS.number
}.
End Config.
Abbreviation ShapeConfig := Config.ShapeConfig.

(** [interface MultiShapeConfig] *)
Record MultiShapeConfig : Type := { shapes : list ShapeConfig }.

(** The node classes the plugin creates. *)
Inductive NodeKind : Type :=
  | RECTANGLE | ELLIPSE | STAR | POLYGON | LINE | FRAME | TEXT.

#[global] Instance NodeKind_eq_dec : EqDecision NodeKind.
Proof. solve_decision. Defined.

(** [{ r, g, b }] *)
Record RGB : Type := { r : JS.number; g : JS.number; b : JS.number }.

(** [{ type: 'SOLID', color }] *)
Inductive Paint : Type := SOLID (color : RGB).

(** A scene node, as the writes made to it. *)
Module Node.
Record SceneNode : Type := {
  kind : NodeKind;
  cornerRadius : option JS.number;
  pointCount : option JS.number;
  innerRadius : option JS.number;
  characters : option string;
  fontSize : option JS.number;
  x : option JS.number;
  y : option JS.number;
  size : option (JS.number * JS.number);   (* [resize(width, height)] *)
  fills : option (list Paint);
  strokes : option (list Paint);
  strokeWeight : option JS.number
}.

(** The properties of a node as a [figma.create*()] call returns it:
    nothing written yet. *)
Definition create (k : NodeKind) : SceneNode :=
  {| kind := k; cornerRadius := None; pointCount := None;
     innerRadius := None; characters := None; fontSize := None;
     x := None; y := None; size := None; fills := None; strokes := None;
     strokeWeight := None |}.

Definition set_cornerRadius (v : JS.number) (n : SceneNode) : SceneNode :=
  {| kind := kind n; cornerRadius := Some v; pointCount := pointCount n;
     innerRadius := innerRadius n; characters := characters n;
     fontSize := fontSize n; x := x n; y := y n; size := size n;
     fills := fills n; strokes := strokes n;
     strokeWeight := strokeWeight n |}.

Definition set_pointCount (v : JS.number) (n : SceneNode) : SceneNode :=
  {| kind := kind n; cornerRadius := cornerRadius n; pointCount := Some v;
     innerRadius := innerRadius n; characters := characters n;
     fontSize := fontSize n; x := x n; y := y n; size := size n;
     fills := fills n; strokes := strokes n;
     strokeWeight := strokeWeight n |}.

Definition set_innerRadius (v : JS.number) (n : SceneNode) : SceneNode :=
  {| kind := kind n; cornerRadius := cornerRadius n;
     pointCount := pointCount n; innerRadius := Some v;
     characters := characters n; fontSize := fontSize n; x := x n;
     y := y n; size := size n; fills := fills n; strokes := strokes n;
     strokeWeight := strokeWeight n |}.

Definition set_characters (v : string) (n : SceneNode) : SceneNode :=
  {| kind := kind n; cornerRadius := cornerRadius n;
     pointCount := pointCount n; innerRadius := innerRadius n;
     characters := Some v; fontSize := fontSize n; x := x n; y := y n;
     size := size n; fills := fills n; strokes := strokes n;
     strokeWeight := strokeWeight n |}.

Definition set_fontSize (v : JS.number) (n : SceneNode) : SceneNode :=
  {| kind := kind n; cornerRadius := cornerRadius n;
     pointCount := pointCount n; innerRadius := innerRadius n;
     characters := characters n; fontSize := Some v; x := x n; y := y n;
     size := size n; fills := fills n; strokes := strokes n;
     strokeWeight := strokeWeight n |}.

Definition set_x (v : JS.number) (n : SceneNode) : SceneNode :=
  {| kind := kind n; cornerRadius := cornerRadius n;
     pointCount := pointCount n; innerRadius := innerRadius n;
     characters := characters n; fontSize := fontSize n; x := Some v;
     y := y n; size := size n; fills := fills n; strokes := strokes n;
     strokeWeight := strokeWeight n |}.

Definition set_y (v : JS.number) (n : SceneNode) : SceneNode :=
  {| kind := kind n; cornerRadius := cornerRadius n;
     pointCount := pointCount n; innerRadius := innerRadius n;
     characters := characters n; fontSize := fontSize n; x := x n;
     y := Some v; size := size n; fills := fills n; strokes := strokes n;
     strokeWeight := strokeWeight n |}.

Definition resize (w h : JS.number) (n : SceneNode) : SceneNode :=
  {| kind := kind n; cornerRadius := cornerRadius n;
     pointCount := pointCount n; innerRadius := innerRadius n;
     characters := characters n; fontSize := fontSize n; x := x n;
     y := y n; size := Some (w, h); fills := fills n; strokes := strokes n;
     strokeWeight := strokeWeight n |}.

Definition set_fills (v : list Paint) (n : SceneNode) : SceneNode :=
  {| kind := kind n; cornerRadius := cornerRadius n;
     pointCount := pointCount n; innerRadius := innerRadius n;
     characters := characters n; fontSize := fontSize n; x := x n;
     y := y n; size := size n; fills := Some v; strokes := strokes n;
     strokeWeight := strokeWeight n |}.

Definition set_strokes (v : list Paint) (n : SceneNode) : SceneNode :=
  {| kind := kind n; cornerRadius := cornerRadius n;
     pointCount := pointCount n; innerRadius := innerRadius n;
     characters := characters n; fontSize := fontSize n; x := x n;
     y := y n; size := size n; fills := fills n; strokes := Some v;
     strokeWeight := strokeWeight n |}.

Definition set_strokeWeight (v : JS.number) (n : SceneNode) : SceneNode :=
  {| kind := kind n; cornerRadius := cornerRadius n;
     pointCount := pointCount n; innerRadius := innerRadius n;
     characters := characters n; fontSize := fontSize n; x := x n;
     y := y n; size := size n; fills := fills n; strokes := strokes n;
     strokeWeight := Some v |}.
End Node.
Abbreviation SceneNode := Node.SceneNode.

(** The value of [config.type] that selects each [case] of the switch. *)
Definition kind_name (k : NodeKind) : string :=
  match k with
  | RECTANGLE => "rectangle"
  | ELLIPSE => "ellipse"
  | STAR => "star"
  | POLYGON => "polygon"
  | LINE => "line"
  | FRAME => "frame"
  | TEXT => "text"
  end.

(** ** Colours *)

(** [const colorNames] *)
Definition colorNames : gmap string string :=
  list_to_map
    [ ("transparent", "transparent");
      ("red", "#ff0000");
      ("green", "#00ff00");
      ("blue", "#0000ff");
      ("black", "#000000");
      ("white", "#ffffff");
      ("gray", "#808080");
      ("grey", "#808080");
      ("yellow", "#ffff00");
      ("orange", "#ffa500");
      ("purple", "#800080");
      ("pink", "#ffc0cb");
      ("brown", "#a52a2a");
      ("primary", "#007bff");
      ("secondary", "#6c757d");
      ("success", "#28a745");
      ("danger", "#dc3545");
      ("warning", "#ffc107");
      ("info", "#17a2b8");
      ("light", "#f8f9fa");
      ("dark", "#343a40") ].

(** What the code holds after a read of [colorNames]: a string, or the
    value of a property that the table inherits as every object does, which
    is an object or a function and no string. *)
Inductive Value : Type :=
  | Str (s : string)
  | Inherited (key : string).
Coercion Str : string >-> Value.

#[global] Instance Value_eq_dec : EqDecision Value.
Proof. solve_decision. Defined.

(** The names every object inherits from [Object.prototype]. *)
Definition Object_prototype : list string :=
  [ "constructor"; "__proto__"; "hasOwnProperty"; "isPrototypeOf";
    "propertyIsEnumerable"; "toLocaleString"; "toString"; "valueOf";
    "__defineGetter__"; "__defineSetter__"; "__lookupGetter__";
    "__lookupSetter__" ].

(** [colorNames[key]]: an entry of the table, else what the table inherits
    under that name, else [undefined] ([None]). *)
Definition colorNames_get (key : string) : option Value :=
  match colorNames !! key with
  | Some hex => Some (Str hex)
  | None =>
      if bool_decide (key ∈ Object_prototype) then Some (Inherited key)
      else None
  end.

(** [if (v)]: a string is truthy unless empty, an object always. *)
Definition truthy_value (v : Value) : bool :=
  match v with
  | Str s => JS.truthy_string s
  | Inherited _ => true
  end.

(** [v === s] for a string [s]: no object is strictly equal to a string. *)
Definition strictEq (v : Value) (s : string) : bool :=
  match v with
  | Str t => JS.seq t s
  | Inherited _ => false
  end.

(** [function normalizeColor(color)].  Its declared result is a string;
    for the two lower-case names among the inherited ones, [constructor]
    and [__proto__], written in any case of the letters, the table read
    gives an object, and that is what the function returns. *)
Definition normalizeColor (color : string) : Value :=
  if JS.seq color "transparent" then Str "transparent"
  else if JS.startsWith color "#" then Str color
  else match colorNames_get (JS.toLowerCase color) with
       | Some hex => if truthy_value hex then hex else Str color
       | None => Str color
       end.

(** The class [[a-f\d]] under the flag [i], with the value [parseInt]
    gives the digit in base 16. *)
Definition hexDigit (c : ascii) : option Z :=
  let n := Z.of_N (N_of_ascii c) in
  if ((48 <=? n) && (n <=? 57))%Z then Some (n - 48)%Z
  else if ((97 <=? n) && (n <=? 102))%Z then Some (n - 87)%Z
  else if ((65 <=? n) && (n <=? 70))%Z then Some (n - 55)%Z
  else None.

Definition isHexDigit (c : ascii) : bool := bool_decide (is_Some (hexDigit c)).

(** The optional [#] of the pattern: what is left for the digits. *)
Definition dropHash (hex : string) : string :=
  match hex with
  | String "#" rest => rest
  | _ => hex
  end.

(** [/^#?([a-f\d]{2})([a-f\d]{2})([a-f\d]{2})$/i.exec(hex)]: the three
    captured groups, or [None] for [null]. *)
Definition hex_exec (hex : string) : option (string * string * string) :=
  match dropHash hex with
  | String c1 (String c2 (String c3 (String c4 (String c5 (String c6 "")))))
    =>
      if isHexDigit c1 && isHexDigit c2 && isHexDigit c3
         && isHexDigit c4 && isHexDigit c5 && isHexDigit c6
      then Some (String c1 (String c2 ""), String c3 (String c4 ""),
                 String c5 (String c6 ""))
      else None
  | _ => None
  end.

(** [parseInt(s, 16)] on a string that starts with a hexadecimal digit, as
    the captured groups do (reading stops at the first other character). *)
Fixpoint parseInt16_from (acc : Z) (s : string) : Z :=
  match s with
  | EmptyString => acc
  | String c rest =>
      match hexDigit c with
      | Some d => parseInt16_from (16 * acc + d)%Z rest
      | None => acc
      end
  end.

Definition parseInt16 (s : string) : Z := parseInt16_from 0%Z s.

(** [n / 255] *)
Definition div255 (n : Z) : JS.number := Qmake n 255%positive.

(** [function hexToRgb(hex)].  [exec] reads its argument as text; the text
    of an inherited object or function ([[object Object]],
    [function Object() { [native code] }]) has brackets or spaces in it and
    does not match the pattern. *)
Definition hexToRgb (hex : Value) : result RGB :=
  match hex with
  | Inherited _ => Throw InvalidColor
  | Str hex =>
      match hex_exec hex with
      | None => Throw InvalidColor
      | Some (g1, g2, g3) =>
          Ok {| r := div255 (parseInt16 g1);
                g := div255 (parseInt16 g2);
                b := div255 (parseInt16 g3) |}
      end
  end.

(** ** The host *)

(** What the plugin code relies on from the Figma runtime.  [has p k] is the
    test [p in node] on a node of class [k]; [fontLoads] tells whether the
    promise of [figma.loadFontAsync({family: "Inter", style: "Regular"})]
    is fulfilled.  Creating a node and writing its properties are taken not
    to fail.  Where the host keeps a node it has created is the subject of
    [Placement] and [Scene], further down. *)
Record Host : Type := {
  has : string -> NodeKind -> bool;
  fontLoads : bool
}.

(** The host the examples run on.  Which properties a node object has is
    fixed by Figma's plugin API, not by the repository; here, as in Figma's
    typings, every node class the plugin creates has [resize], [fills],
    [strokes] and [strokeWeight], and the font is there. *)
Definition figma : Host :=
  {| has := fun p _ =>
       bool_decide (p ∈ ["resize"; "fills"; "strokes"; "strokeWeight"]);
     fontLoads := true |}.

(** A host whose nodes have none of the tested properties. *)
Definition bareHost : Host := {| has := fun _ _ => false; fontLoads := true |}.

(** A host on which the font is missing. *)
Definition fontlessHost : Host := {| has := has figma; fontLoads := false |}.

(** ** The shape factory and the composition engine *)

(** [if (v) node.p = v] for an optional number. *)
Definition assign_if_truthy (v : option JS.number)
    (set : JS.number -> SceneNode -> SceneNode) (node : SceneNode)
  : SceneNode :=
  match v with
  | Some n => if JS.truthy n then set n node else node
  | None => node
  end.

(** [if (v) node.p = v] for an optional string. *)
Definition assign_if_truthy_string (v : option string)
    (set : string -> SceneNode -> SceneNode) (node : SceneNode)
  : SceneNode :=
  match v with
  | Some s => if JS.truthy_string s then set s node else node
  | None => node
  end.

(** [if (v !== undefined) node.p = v] *)
Definition assign_if_defined (v : option JS.number)
    (set : JS.number -> SceneNode -> SceneNode) (node : SceneNode)
  : SceneNode :=
  match v with
  | Some n => set n node
  | None => node
  end.

Section Plugin.
Variable host : Host.

Definition loadFontAsync : result unit :=
  if fontLoads host then Ok tt else Throw ResourceUnavailable.

(** The [switch (config.type)] of [generateShape]. *)
Definition createBaseShape (config : ShapeConfig) : result SceneNode :=
  let type := Config.type config in
  if JS.seq type "rectangle" then
    let node := Node.create RECTANGLE in
    Ok (assign_if_defined (Config.cornerRadius config)
          Node.set_cornerRadius node)
  else if JS.seq type "ellipse" then
    Ok (Node.create ELLIPSE)
  else if JS.seq type "star" then
    let star := Node.create STAR in
    let star :=
      assign_if_truthy (Config.pointCount config) Node.set_pointCount star in
    let star :=
      assign_if_truthy (Config.innerRadius config) Node.set_innerRadius
        star in
    Ok star
  else if JS.seq type "polygon" then
    let polygon := Node.create POLYGON in
    Ok (assign_if_truthy (Config.polygonPointCount config)
          Node.set_pointCount polygon)
  else if JS.seq type "line" then
    Ok (Node.create LINE)
  else if JS.seq type "frame" then
    Ok (Node.create FRAME)
  else if JS.seq type "text" then
    _ ← loadFontAsync;
    let textNode := Node.create TEXT in
    let textNode :=
      assign_if_truthy_string (Config.text config) Node.set_characters
        textNode in
    let textNode :=
      assign_if_truthy (Config.fontSize config) Node.set_fontSize
        textNode in
    Ok textNode
  else Throw UnsupportedShapeType.

(** The block under [// Apply fill color]. *)
Definition applyFill (config : ShapeConfig) (node : SceneNode)
  : result SceneNode :=
  match Config.fill config with
  | Some fill =>
      if JS.truthy_string fill && negb (JS.seq fill "transparent")
         && has host "fills" (Node.kind node)
      then
        let hexColor := normalizeColor fill in
        if negb (strictEq hexColor "transparent") then
          color ← hexToRgb hexColor;
          Ok (Node.set_fills [SOLID color] node)
        else Ok node
      else Ok node
  | None => Ok node
  end.

(** The block under [// Apply stroke color]. *)
Definition applyStroke (config : ShapeConfig) (node : SceneNode)
  : result SceneNode :=
  match Config.stroke config with
  | Some stroke =>
      if JS.truthy_string stroke && has host "strokes" (Node.kind node)
      then
        let hexColor := normalizeColor stroke in
        color ← hexToRgb hexColor;
        let node := Node.set_strokes [SOLID color] node in
        match Config.strokeWidth config with
        | Some strokeWidth =>
            if JS.truthy strokeWidth
               && has host "strokeWeight" (Node.kind node)
            then Ok (Node.set_strokeWeight strokeWidth node)
            else Ok node
        | None => Ok node
        end
      else Ok node
  | None => Ok node
  end.

(** [async function generateShape(config)] *)
Definition generateShape (config : ShapeConfig) : result SceneNode :=
  node ← createBaseShape config;
  let node := Node.set_x (Config.x config) node in
  let node := Node.set_y (Config.y config) node in
  let node :=
    if has host "resize" (Node.kind node)
    then Node.resize (Config.width config) (Config.height config) node
    else node in
  node ← applyFill config node;
  node ← applyStroke config node;
  Ok node.

(** The comparator handed to [sort]. *)
Definition compareZ (a b : ShapeConfig) : JS.number :=
  let aZ := JS.nullish (Config.zIndex a) 0%Q in
  let bZ := JS.nullish (Config.zIndex b) 0%Q in
  (aZ - bZ)%Q.

(** [[...config.shapes].sort(...)] *)
Definition sortedShapes (config : MultiShapeConfig) : list ShapeConfig :=
  JS.Array_sort compareZ (shapes config).

(** The [for ... of] loop: [nodes] is the array built so far. *)
Fixpoint pushShapes (nodes : list SceneNode) (rest : list ShapeConfig)
  : result (list SceneNode) :=
  match rest with
  | [] => Ok nodes
  | shapeConfig :: rest' =>
      node ← generateShape shapeConfig;
      pushShapes (nodes ++ [node]) rest'
  end.

(** [async function generateShapes(config)] *)
Definition generateShapes (config : MultiShapeConfig)
  : result (list SceneNode) :=
  pushShapes [] (sortedShapes config).

End Plugin.

(** ** The message handler *)

(** What the statements of the handler do to the host: the nodes handed to
    [appendChild], in that order, behind the children the page had; the
    selection; the last argument of [scrollAndZoomIntoView]; and whether
    [closePlugin] was called.  The nodes are given by their properties.
    The node objects themselves, and what becomes of a node that was
    created and never appended, are in [Scene] and [Live], further down. *)
Module Figma.
Record State : Type := {
  children : list SceneNode;
  selection : list SceneNode;
  viewport : option (list SceneNode);
  closed : bool
}.

Definition initial : State :=
  {| children := []; selection := []; viewport := None; closed := false |}.

Definition appendChild (node : SceneNode) (st : State) : State :=
  {| children := children st ++ [node]; selection := selection st;
     viewport := viewport st; closed := closed st |}.

Definition set_selection (nodes : list SceneNode) (st : State) : State :=
  {| children := children st; selection := nodes; viewport := viewport st;
     closed := closed st |}.

Definition scrollAndZoomIntoView (nodes : list SceneNode) (st : State)
  : State :=
  {| children := children st; selection := selection st;
     viewport := Some nodes; closed := closed st |}.

Definition closePlugin (st : State) : State :=
  {| children := children st; selection := selection st;
     viewport := viewport st; closed := true |}.
End Figma.

(** [msg.config]: a single configuration, or one with a [shapes] property. *)
Inductive ConfigPayload : Type :=
  | Single (config : ShapeConfig)
  | Multi (config : MultiShapeConfig).

Module Msg.
Record Message : Type := {
  type : string;
  count : JS.number;
  config : option ConfigPayload
}.
End Msg.
Abbreviation Message := Msg.Message.

(** A step of the handler: it ends normally or throws, and leaves a host
    state either way (what was written before a throw stays written). *)
Definition Handler (A : Type) : Type := Figma.State -> result A * Figma.State.

Definition hret {A} (a : A) : Handler A := fun st => (Ok a, st).

Definition hbind {A B} (m : Handler A) (k : A -> Handler B) : Handler B :=
  fun st =>
    match m st with
    | (Ok a, st') => k a st'
    | (Throw e, st') => (Throw e, st')
    end.

(** [await p] *)
Definition await {A} (p : result A) : Handler A := fun st => (p, st).

(** A statement that only writes to the host. *)
Definition exec (f : Figma.State -> Figma.State) : Handler unit :=
  fun st => (Ok tt, f st).

(** [if (cond) { body }] *)
Definition when (cond : bool) (body : Handler unit) : Handler unit :=
  if cond then body else hret tt.

Definition hseq (m k : Handler unit) : Handler unit := hbind m (fun _ => k).

(** The values [i = 0, 1, ...] with [i < n]. *)
Definition upto (n : JS.number) : list Z :=
  map Z.of_nat (seq 0 (Z.to_nat (Qceiling n))).

Section Handler.
Variable host : Host.

(** The literal passed to [generateShape] for [create-star]. *)
Definition starConfig : ShapeConfig :=
  {| Config.type := "star"; Config.x := 50; Config.y := 50;
     Config.width := 200; Config.height := 200;
     Config.fill := Some "red"; Config.stroke := None;
     Config.strokeWidth := None; Config.cornerRadius := None;
     Config.zIndex := None; Config.text := None; Config.fontSize := None;
     Config.pointCount := Some 7%Q; Config.innerRadius := Some (6 # 10)%Q;
     Config.polygonPointCount := None |}.

(** The three statements that follow a single created node. *)
Definition showNode (node : SceneNode) : Handler unit :=
  exec (fun st =>
    Figma.scrollAndZoomIntoView [node]
      (Figma.set_selection [node] (Figma.appendChild node st))).

(** The three statements that follow [generateShapes]. *)
Definition showNodes (newNodes : list SceneNode) : Handler unit :=
  exec (fun st =>
    Figma.scrollAndZoomIntoView newNodes
      (Figma.set_selection newNodes
         (fold_left (fun st node => Figma.appendChild node st) newNodes
            st))).

Definition onCreateStar : Handler unit :=
  hbind (await (generateShape host starConfig)) showNode.

Definition onCreateShapeFromJson (config : ConfigPayload) : Handler unit :=
  match config with
  | Multi config => hbind (await (generateShapes host config)) showNodes
  | Single config => hbind (await (generateShape host config)) showNode
  end.

(** The body of the [for] loop of [create-shapes], for one [i]. *)
Definition createRect (i : Z) : SceneNode :=
  let rect := Node.create RECTANGLE in
  let rect := Node.set_x (inject_Z i * 150)%Q rect in
  Node.set_fills [SOLID {| r := 1%Q; g := (1 # 2)%Q; b := 0%Q |}] rect.

Definition onCreateShapes (numberOfRectangles : JS.number) : Handler unit :=
  exec (fun st =>
    let nodes := map createRect (upto numberOfRectangles) in
    Figma.scrollAndZoomIntoView nodes
      (Figma.set_selection nodes
         (fold_left (fun st rect => Figma.appendChild rect st) nodes st))).

(** [figma.ui.onmessage = async (msg) => { ... }] *)
Definition onmessage (msg : Message) : Handler unit :=
  hseq (when (JS.seq (Msg.type msg) "create-star") onCreateStar)
 (hseq (match Msg.config msg with
        | Some config =>
            when (JS.seq (Msg.type msg) "create-shape-from-json")
              (onCreateShapeFromJson config)
        | None => hret tt
        end)
 (hseq (when (JS.seq (Msg.type msg) "create-shapes")
          (onCreateShapes (Msg.count msg)))
       (when (negb (JS.seq (Msg.type msg) "create-shape-from-json"))
          (exec Figma.closePlugin)))).

End Handler.

(** ** Definitions used to state the properties *)

(** The layer index the comparator reads: [c.zIndex ?? 0]. *)
Definition layerIndex (c : ShapeConfig) : JS.number :=
  JS.nullish (Config.zIndex c) 0%Q.

#[global] Instance Qeq_decision (p q : Q) : Decision (p == q)%Q := Qeq_dec p q.

(** Two entries are on the same layer. *)
Definition onLayer (z : JS.number) (c : ShapeConfig) : Prop :=
  (layerIndex c == z)%Q.

#[global] Instance onLayer_decision z c : Decision (onLayer z c) :=
  Qeq_dec (layerIndex c) z.

(** The entries of a batch, each with its position in the batch. *)
Definition positioned (l : list ShapeConfig) : list (nat * ShapeConfig) :=
  zip (seq 0 (length l)) l.

(** Order by layer index, then by position in the input. *)
Definition layerThenPosition (a b : nat * ShapeConfig) : Prop :=
  (layerIndex a.2 < layerIndex b.2)%Q
  \/ ((layerIndex a.2 == layerIndex b.2)%Q /\ a.1 < b.1).

(** The value of [type] names one of the seven cases of the switch. *)
Definition supportedType (type : string) : Prop :=
  type ∈ ["rectangle"; "ellipse"; "star"; "polygon"; "line"; "frame"; "text"].

(** The domain of colour resolution as the specification writes it:
    [^#?[0-9a-fA-F]{6}$]. *)
Definition specHexChar (c : ascii) : Prop :=
  let n := N_of_ascii c in
  (48 <= n <= 57 \/ 97 <= n <= 102 \/ 65 <= n <= 70)%N.

Definition specHexColor (s : string) : Prop :=
  exists digits : list ascii,
    (s = string_of_list_ascii digits
     \/ s = String "#" (string_of_list_ascii digits))
    /\ length digits = 6
    /\ Forall specHexChar digits.

(** The six digits of a colour, without the [#] and in lower case. *)
Definition hexCanon (s : string) : string := JS.toLowerCase (dropHash s).

(** The value of a digit among [0-9a-f]. *)
Definition specDigit (c : ascii) : Z :=
  let n := Z.of_N (N_of_ascii c) in
  if (n <=? 57)%Z then (n - 48)%Z else (n - 87)%Z.

(** The digit of a value below 16. *)
Definition digitChar (d : Z) : ascii :=
  ascii_of_N (Z.to_N (if (d <? 10)%Z then d + 48 else d + 87)%Z).

(** The byte two digits write. *)
Definition specByte (hi lo : ascii) : Z := (16 * specDigit hi + specDigit lo)%Z.

(** The triple of a colour as the specification has it: the three bytes the
    six digits write, each over 255. *)
Definition specRgb (s : string) : option RGB :=
  match hexCanon s with
  | String c1 (String c2 (String c3 (String c4 (String c5 (String c6 "")))))
    =>
      Some {| r := div255 (specByte c1 c2);
              g := div255 (specByte c3 c4);
              b := div255 (specByte c5 c6) |}
  | _ => None
  end.

(** A channel is a byte over 255, hence a number of [0, 1]. *)
Definition channel (q : JS.number) : Prop :=
  exists byte : Z, (0 <= byte <= 255)%Z /\ q = div255 byte.

(** Colour resolution as [generateShape] chains it. *)
Definition resolveColor (color : string) : result RGB :=
  hexToRgb (normalizeColor color).

(** A colour value that resolves: the literal, a hex colour, or a name of
    the table under the case-insensitive lookup. *)
Definition knownColor (color : string) : Prop :=
  color = "transparent" \/ specHexColor color
  \/ is_Some (colorNames !! JS.toLowerCase color).

(** The base configuration used in the examples: only the required
    fields. *)
Definition plain (type : string) : ShapeConfig :=
  {| Config.type := type; Config.x := 0%Q; Config.y := 0%Q;
     Config.width := 100%Q; Config.height := 50%Q;
     Config.fill := None; Config.stroke := None;
     Config.strokeWidth := None; Config.cornerRadius := None;
     Config.zIndex := None; Config.text := None; Config.fontSize := None;
     Config.pointCount := None; Config.innerRadius := None;
     Config.polygonPointCount := None |}.

(** Field updates of a configuration. *)
Definition with_fill (v : option string) (c : ShapeConfig) : ShapeConfig :=
  {| Config.type := Config.type c; Config.x := Config.x c;
     Config.y := Config.y c; Config.width := Config.width c;
     Config.height := Config.height c; Config.fill := v;
     Config.stroke := Config.stroke c;
     Config.strokeWidth := Config.strokeWidth c;
     Config.cornerRadius := Config.cornerRadius c;
     Config.zIndex := Config.zIndex c; Config.text := Config.text c;
     Config.fontSize := Config.fontSize c;
     Config.pointCount := Config.pointCount c;
     Config.innerRadius := Config.innerRadius c;
     Config.polygonPointCount := Config.polygonPointCount c |}.

Definition with_stroke (v : option string) (c : ShapeConfig) : ShapeConfig :=
  {| Config.type := Config.type c; Config.x := Config.x c;
     Config.y := Config.y c; Config.width := Config.width c;
     Config.height := Config.height c; Config.fill := Config.fill c;
     Config.stroke := v;
     Config.strokeWidth := Config.strokeWidth c;
     Config.cornerRadius := Config.cornerRadius c;
     Config.zIndex := Config.zIndex c; Config.text := Config.text c;
     Config.fontSize := Config.fontSize c;
     Config.pointCount := Config.pointCount c;
     Config.innerRadius := Config.innerRadius c;
     Config.polygonPointCount := Config.polygonPointCount c |}.

Definition with_strokeWidth (v : option JS.number) (c : ShapeConfig)
  : ShapeConfig :=
  {| Config.type := Config.type c; Config.x := Config.x c;
     Config.y := Config.y c; Config.width := Config.width c;
     Config.height := Config.height c; Config.fill := Config.fill c;
     Config.stroke := Config.stroke c;
     Config.strokeWidth := v;
     Config.cornerRadius := Config.cornerRadius c;
     Config.zIndex := Config.zIndex c; Config.text := Config.text c;
     Config.fontSize := Config.fontSize c;
     Config.pointCount := Config.pointCount c;
     Config.innerRadius := Config.innerRadius c;
     Config.polygonPointCount := Config.polygonPointCount c |}.

Definition with_cornerRadius (v : option JS.number) (c : ShapeConfig)
  : ShapeConfig :=
  {| Config.type := Config.type c; Config.x := Config.x c;
     Config.y := Config.y c; Config.width := Config.width c;
     Config.height := Config.height c; Config.fill := Config.fill c;
     Config.stroke := Config.stroke c;
     Config.strokeWidth := Config.strokeWidth c;
     Config.cornerRadius := v;
     Config.zIndex := Config.zIndex c; Config.text := Config.text c;
     Config.fontSize := Config.fontSize c;
     Config.pointCount := Config.pointCount c;
     Config.innerRadius := Config.innerRadius c;
     Config.polygonPointCount := Config.polygonPointCount c |}.

Definition with_zIndex (v : option JS.number) (c : ShapeConfig)
  : ShapeConfig :=
  {| Config.type := Config.type c; Config.x := Config.x c;
     Config.y := Config.y c; Config.width := Config.width c;
     Config.height := Config.height c; Config.fill := Config.fill c;
     Config.stroke := Config.stroke c;
     Config.strokeWidth := Config.strokeWidth c;
     Config.cornerRadius := Config.cornerRadius c;
     Config.zIndex := v; Config.text := Config.text c;
     Config.fontSize := Config.fontSize c;
     Config.pointCount := Config.pointCount c;
     Config.innerRadius := Config.innerRadius c;
     Config.polygonPointCount := Config.polygonPointCount c |}.

Definition with_fontSize (v : option JS.number) (c : ShapeConfig)
  : ShapeConfig :=
  {| Config.type := Config.type c; Config.x := Config.x c;
     Config.y := Config.y c; Config.width := Config.width c;
     Config.height := Config.height c; Config.fill := Config.fill c;
     Config.stroke := Config.stroke c;
     Config.strokeWidth := Config.strokeWidth c;
     Config.cornerRadius := Config.cornerRadius c;
     Config.zIndex := Config.zIndex c; Config.text := Config.text c;
     Config.fontSize := v;
     Config.pointCount := Config.pointCount c;
     Config.innerRadius := Config.innerRadius c;
     Config.polygonPointCount := Config.polygonPointCount c |}.

Definition with_pointCount (v : option JS.number) (c : ShapeConfig)
  : ShapeConfig :=
  {| Config.type := Config.type c; Config.x := Config.x c;
     Config.y := Config.y c; Config.width := Config.width c;
     Config.height := Config.height c; Config.fill := Config.fill c;
     Config.stroke := Config.stroke c;
     Config.strokeWidth := Config.strokeWidth c;
     Config.cornerRadius := Config.cornerRadius c;
     Config.zIndex := Config.zIndex c; Config.text := Config.text c;
     Config.fontSize := Config.fontSize c;
     Config.pointCount := v;
     Config.innerRadius := Config.innerRadius c;
     Config.polygonPointCount := Config.polygonPointCount c |}.

Definition with_innerRadius (v : option JS.number) (c : ShapeConfig)
  : ShapeConfig :=
  {| Config.type := Config.type c; Config.x := Config.x c;
     Config.y := Config.y c; Config.width := Config.width c;
     Config.height := Config.height c; Config.fill := Config.fill c;
     Config.stroke := Config.stroke c;
     Config.strokeWidth := Config.strokeWidth c;
     Config.cornerRadius := Config.cornerRadius c;
     Config.zIndex := Config.zIndex c; Config.text := Config.text c;
     Config.fontSize := Config.fontSize c;
     Config.pointCount := Config.pointCount c;
     Config.innerRadius := v;
     Config.polygonPointCount := Config.polygonPointCount c |}.

Definition with_polygonPointCount (v : option JS.number) (c : ShapeConfig)
  : ShapeConfig :=
  {| Config.type := Config.type c; Config.x := Config.x c;
     Config.y := Config.y c; Config.width := Config.width c;
     Config.height := Config.height c; Config.fill := Config.fill c;
     Config.stroke := Config.stroke c;
     Config.strokeWidth := Config.strokeWidth c;
     Config.cornerRadius := Config.cornerRadius c;
     Config.zIndex := Config.zIndex c; Config.text := Config.text c;
     Config.fontSize := Config.fontSize c;
     Config.pointCount := Config.pointCount c;
     Config.innerRadius := Config.innerRadius c;
     Config.polygonPointCount := v |}.

(** The message that asks for the shapes of [config]. *)
Definition fromJson (config : ConfigPayload) : Message :=
  {| Msg.type := "create-shape-from-json"; Msg.count := 0%Q;
     Msg.config := Some config |}.

(** The batch of the second end-to-end scenario: a star on layer 2 before
    an ellipse on layer 1. *)
Definition scenario2 : MultiShapeConfig :=
  {| shapes :=
       [ with_zIndex (Some 2%Q) (with_fill (Some "red") (plain "star"));
         with_zIndex (Some 1%Q) (with_fill (Some "green") (plain "ellipse"))
       ] |}.

Definition scenario2_nodes : list SceneNode :=
  [ Node.set_fills [SOLID {| r := div255 0; g := div255 255; b := div255 0 |}]
      (Node.resize 100%Q 50%Q
         (Node.set_y 0%Q (Node.set_x 0%Q (Node.create ELLIPSE))));
    Node.set_fills [SOLID {| r := div255 255; g := div255 0; b := div255 0 |}]
      (Node.resize 100%Q 50%Q
         (Node.set_y 0%Q (Node.set_x 0%Q (Node.create STAR)))) ].

(** A batch whose second entry has a colour that does not resolve. *)
Definition badColorBatch : MultiShapeConfig :=
  {| shapes :=
       [ with_fill (Some "blue") (plain "rectangle");
         with_fill (Some "notacolor") (plain "ellipse") ] |}.

(** A batch with an entry of an unknown type among valid ones. *)
Definition kiteBatch : MultiShapeConfig :=
  {| shapes :=
       [ with_fill (Some "blue") (plain "rectangle");
         plain "kite";
         with_zIndex (Some 3%Q) (plain "ellipse") ] |}.

(** The node of the first end-to-end scenario. *)
Definition blueRectangle : SceneNode :=
  Node.set_fills [SOLID {| r := div255 0; g := div255 0; b := div255 255 |}]
    (Node.resize 100%Q 50%Q
       (Node.set_y 0%Q (Node.set_x 0%Q (Node.create RECTANGLE)))).

(** The node before the paint: position and size written. *)
Definition placed (host : Host) (c : ShapeConfig) (n0 : SceneNode)
  : SceneNode :=
  let node := Node.set_y (Config.y c) (Node.set_x (Config.x c) n0) in
  if has host "resize" (Node.kind node)
  then Node.resize (Config.width c) (Config.height c) node
  else node.

(** The rectangle of [plain "rectangle"] on the Figma host: no paint. *)
Definition plainRectangle : SceneNode :=
  Node.resize 100%Q 50%Q
    (Node.set_y 0%Q (Node.set_x 0%Q (Node.create RECTANGLE))).

(** A rectangle with a stroke, a stroke width and a corner radius. *)
Definition outlinedRectangle : ShapeConfig :=
  with_cornerRadius (Some 8%Q)
    (with_strokeWidth (Some 3%Q)
       (with_stroke (Some "black") (plain "rectangle"))).

Definition outlinedRectangleNode : SceneNode :=
  Node.set_strokeWeight 3%Q
    (Node.set_strokes
       [SOLID {| r := div255 0; g := div255 0; b := div255 0 |}]
       (Node.resize 100%Q 50%Q
          (Node.set_y 0%Q
             (Node.set_x 0%Q
                (Node.set_cornerRadius 8%Q (Node.create RECTANGLE)))))).

(** Three entries on layer 0, the second one saying so. *)
Definition scenario3 : MultiShapeConfig :=
  {| shapes :=
       [ plain "star"; with_zIndex (Some 0%Q) (plain "ellipse");
         plain "line" ] |}.

(** The message of the [create-star] button. *)
Definition createStar : Message :=
  {| Msg.type := "create-star"; Msg.count := 0%Q; Msg.config := None |}.

(** The fill block paints the value [v] on a node of kind [k]: the value is
    there, not empty, not [transparent] in any case of the letters, and the
    node has [fills]. *)
Definition fillPainted (host : Host) (k : NodeKind) (c : ShapeConfig)
    (v : string) : Prop :=
  Config.fill c = Some v /\ v <> "" /\ JS.toLowerCase v <> "transparent"
  /\ has host "fills" k = true.

(** The stroke block paints the value [v] on a node of kind [k]. *)
Definition strokePainted (host : Host) (k : NodeKind) (c : ShapeConfig)
    (v : string) : Prop :=
  Config.stroke c = Some v /\ v <> "" /\ has host "strokes" k = true.

Definition with_text (v : option string) (c : ShapeConfig) : ShapeConfig :=
  {| Config.type := Config.type c; Config.x := Config.x c;
     Config.y := Config.y c; Config.width := Config.width c;
     Config.height := Config.height c; Config.fill := Config.fill c;
     Config.stroke := Config.stroke c;
     Config.strokeWidth := Config.strokeWidth c;
     Config.cornerRadius := Config.cornerRadius c;
     Config.zIndex := Config.zIndex c; Config.text := v;
     Config.fontSize := Config.fontSize c;
     Config.pointCount := Config.pointCount c;
     Config.innerRadius := Config.innerRadius c;
     Config.polygonPointCount := Config.polygonPointCount c |}.

(** A channel lies in [0, 1]. *)
Definition unitRgb (rgb : RGB) : Prop :=
  (0 <= r rgb <= 1)%Q /\ (0 <= g rgb <= 1)%Q /\ (0 <= b rgb <= 1)%Q.

(** The host after the handler has shown the nodes it created. *)
Definition shown (nodes : list SceneNode) (st : Figma.State) : Figma.State :=
  {| Figma.children := Figma.children st ++ nodes;
     Figma.selection := nodes;
     Figma.viewport := Some nodes;
     Figma.closed := Figma.closed st |}.

(** ** The document as the host keeps it

    A node is an object of the host: [figma.create*()] makes it and hands
    out a reference, every write goes to the object, and the page, the
    selection and the viewport hold references.  An object is referred to
    by its rank among the objects created. *)

(** What the host does with a node it has just created: it puts it on the
    current page, as the [create*] functions of Figma do, or leaves it
    without a parent until [appendChild] is called. *)
Inductive Placement : Type := Parented | Detached.

Module Scene.
Record State : Type := {
  objects : list SceneNode;
  children : list nat;            (* [figma.currentPage.children] *)
  selection : list nat;           (* [figma.currentPage.selection] *)
  viewport : option (list nat);   (* argument of [scrollAndZoomIntoView] *)
  closed : bool
}.

Definition initial : State :=
  {| objects := []; children := []; selection := []; viewport := None;
     closed := false |}.

(** [figma.create*()]: the reference to a new object. *)
Definition create (placement : Placement) (node : SceneNode) (s : State)
  : nat * State :=
  let id := length (objects s) in
  (id,
   {| objects := objects s ++ [node];
      children := match placement with
                  | Parented => children s ++ [id]
                  | Detached => children s
                  end;
      selection := selection s; viewport := viewport s;
      closed := closed s |}).

(** Writes to the object [id], which leave it as [node]. *)
Definition write (id : nat) (node : SceneNode) (s : State) : State :=
  {| objects := <[id := node]> (objects s); children := children s;
     selection := selection s; viewport := viewport s; closed := closed s |}.

(** [figma.currentPage.appendChild(id)]: the node becomes the last child;
    a node that was a child already is moved, not repeated. *)
Definition appendChild (id : nat) (s : State) : State :=
  {| objects := objects s;
     children := filter (fun i => i <> id) (children s) ++ [id];
     selection := selection s; viewport := viewport s; closed := closed s |}.

Definition set_selection (nodes : list nat) (s : State) : State :=
  {| objects := objects s; children := children s; selection := nodes;
     viewport := viewport s; closed := closed s |}.

Definition scrollAndZoomIntoView (nodes : list nat) (s : State) : State :=
  {| objects := objects s; children := children s;
     selection := selection s; viewport := Some nodes;
     closed := closed s |}.

Definition closePlugin (s : State) : State :=
  {| objects := objects s; children := children s;
     selection := selection s; viewport := viewport s; closed := true |}.
End Scene.

(** The plugin code run on that document. *)
Module Live.

(** A step: it ends normally or throws, and leaves a document either
    way. *)
Definition Run (A : Type) : Type := Scene.State -> result A * Scene.State.

Definition ret {A} (a : A) : Run A := fun s => (Ok a, s).

Definition bind {A B} (m : Run A) (k : A -> Run B) : Run B :=
  fun s =>
    match m s with
    | (Ok a, s') => k a s'
    | (Throw e, s') => (Throw e, s')
    end.

Definition exec (f : Scene.State -> Scene.State) : Run unit :=
  fun s => (Ok tt, f s).

Definition when (cond : bool) (body : Run unit) : Run unit :=
  if cond then body else ret tt.

Definition andThen (m k : Run unit) : Run unit := bind m (fun _ => k).

Section Live.
Variable host : Host.
Variable placement : Placement.

(** [async function generateShape(config)], returning the reference.  The
    object is created and then written block by block: the writes of its
    case of the switch, position and size, the fill block, the stroke
    block.  The switch throws before its [create] call (the default case,
    and the font of a text, which is awaited first), and a paint block
    throws, in [hexToRgb], before its first write. *)
Definition generateShape (config : ShapeConfig) : Run nat :=
  fun s =>
    match createBaseShape host config with
    | Throw e => (Throw e, s)
    | Ok base =>
        let (node, s) :=
          Scene.create placement (Node.create (Node.kind base)) s in
        let s := Scene.write node base s in
        let s := Scene.write node (placed host config base) s in
        match applyFill host config (placed host config base) with
        | Throw e => (Throw e, s)
        | Ok filled =>
            let s := Scene.write node filled s in
            match applyStroke host config filled with
            | Throw e => (Throw e, s)
            | Ok stroked => (Ok node, Scene.write node stroked s)
            end
        end
    end.

(** The [for ... of] loop of [generateShapes]. *)
Fixpoint pushShapes (nodes : list nat) (rest : list ShapeConfig)
  : Run (list nat) :=
  match rest with
  | [] => ret nodes
  | shapeConfig :: rest' =>
      bind (generateShape shapeConfig)
        (fun node => pushShapes (nodes ++ [node]) rest')
  end.

(** [async function generateShapes(config)] *)
Definition generateShapes (config : MultiShapeConfig) : Run (list nat) :=
  pushShapes [] (sortedShapes config).

Definition showNode (node : nat) : Run unit :=
  exec (fun s =>
    Scene.scrollAndZoomIntoView [node]
      (Scene.set_selection [node] (Scene.appendChild node s))).

Definition showNodes (newNodes : list nat) : Run unit :=
  exec (fun s =>
    Scene.scrollAndZoomIntoView newNodes
      (Scene.set_selection newNodes
         (fold_left (fun s node => Scene.appendChild node s) newNodes s))).

Definition onCreateStar : Run unit := bind (generateShape starConfig) showNode.

Definition onCreateShapeFromJson (config : ConfigPayload) : Run unit :=
  match config with
  | Multi config => bind (generateShapes config) showNodes
  | Single config => bind (generateShape config) showNode
  end.

(** The [for] loop of [create-shapes]: [nodes] is the array built so
    far. *)
Fixpoint createRects (nodes : list nat) (rest : list Z) (s : Scene.State)
  : list nat * Scene.State :=
  match rest with
  | [] => (nodes, s)
  | i :: rest' =>
      let (rect, s) := Scene.create placement (Node.create RECTANGLE) s in
      let s :=
        Scene.write rect
          (Node.set_x (inject_Z i * 150)%Q (Node.create RECTANGLE)) s in
      let s := Scene.write rect (createRect i) s in
      let s := Scene.appendChild rect s in
      createRects (nodes ++ [rect]) rest' s
  end.

Definition onCreateShapes (numberOfRectangles : JS.number) : Run unit :=
  exec (fun s =>
    let (nodes, s) := createRects [] (upto numberOfRectangles) s in
    Scene.scrollAndZoomIntoView nodes (Scene.set_selection nodes s)).

(** [figma.ui.onmessage = async (msg) => { ... }] *)
Definition onmessage (msg : Message) : Run unit :=
  andThen (when (JS.seq (Msg.type msg) "create-star") onCreateStar)
 (andThen (match Msg.config msg with
           | Some config =>
               when (JS.seq (Msg.type msg) "create-shape-from-json")
                 (onCreateShapeFromJson config)
           | None => ret tt
           end)
 (andThen (when (JS.seq (Msg.type msg) "create-shapes")
             (onCreateShapes (Msg.count msg)))
          (when (negb (JS.seq (Msg.type msg) "create-shape-from-json"))
             (exec Scene.closePlugin)))).

End Live.
End Live.

(** The document after the objects [made] were created in it and nothing
    else was done. *)
Definition grown (placement : Placement) (made : list SceneNode)
    (s : Scene.State) : Scene.State :=
  {| Scene.objects := Scene.objects s ++ made;
     Scene.children :=
       match placement with
       | Parented =>
           Scene.children s ++ seq (length (Scene.objects s)) (length made)
       | Detached => Scene.children s
       end;
     Scene.selection := Scene.selection s;
     Scene.viewport := Scene.viewport s;
     Scene.closed := Scene.closed s |}.

(** The document after the objects [made] were created in it and shown. *)
Definition shownLive (made : list SceneNode) (s : Scene.State)
  : Scene.State :=
  {| Scene.objects := Scene.objects s ++ made;
     Scene.children :=
       Scene.children s ++ seq (length (Scene.objects s)) (length made);
     Scene.selection := seq (length (Scene.objects s)) (length made);
     Scene.viewport := Some (seq (length (Scene.objects s)) (length made));
     Scene.closed := Scene.closed s |}.

(** The page as a list of nodes: what the references stand for. *)
Definition deref (s : Scene.State) (ids : list nat) : list SceneNode :=
  omap (fun id => Scene.objects s !! id) ids.

Definition view (s : Scene.State) : Figma.State :=
  {| Figma.children := deref s (Scene.children s);
     Figma.selection := deref s (Scene.selection s);
     Figma.viewport := deref s <$> Scene.viewport s;
     Figma.closed := Scene.closed s |}.

(** Every child of the page is an object of the document. *)
Definition wellFormed (s : Scene.State) : Prop :=
  Forall (fun id => id < length (Scene.objects s)) (Scene.children s).

(** The failed batch on the document of Figma, empty before. *)
Definition afterBadColorBatch : Scene.State :=
  {| Scene.objects :=
       [ blueRectangle;
         Node.resize 100%Q 50%Q
           (Node.set_y 0%Q (Node.set_x 0%Q (Node.create ELLIPSE))) ];
     Scene.children := [0; 1]; Scene.selection := [];
     Scene.viewport := None; Scene.closed := false |}.

(** ** The URL helpers ([extractFileKey], [isValidFileKey])

    The patterns are unanchored: [url.match(pattern)] tries the pattern at
    each position from the left and returns the first match; the functions
    below give the text of group 1. *)

Module Url.

(** The class [[a-zA-Z0-9]]. *)
Definition isAlnum (c : ascii) : bool :=
  let n := N_of_ascii c in
  (((48 <=? n) && (n <=? 57)) || ((65 <=? n) && (n <=? 90))
   || ((97 <=? n) && (n <=? 122)))%N.

(** The class [[^\/]]. *)
Definition notSlash (c : ascii) : bool := negb (Ascii.eqb c "/").

(** Every code unit of the string is in the class. *)
Fixpoint all (class : ascii -> bool) (s : string) : bool :=
  match s with
  | EmptyString => true
  | String c rest => class c && all class rest
  end.

(** The longest prefix in the class, and what follows it. *)
Fixpoint takeWhile (class : ascii -> bool) (s : string) : string :=
  match s with
  | EmptyString => EmptyString
  | String c rest =>
      if class c then String c (takeWhile class rest) else EmptyString
  end.

Fixpoint dropWhile (class : ascii -> bool) (s : string) : string :=
  match s with
  | EmptyString => EmptyString
  | String c rest => if class c then dropWhile class rest else s
  end.

(** A literal at the start of the string: what follows it. *)
Fixpoint literal (p s : string) {struct p} : option string :=
  match p with
  | EmptyString => Some s
  | String a p' =>
      match s with
      | EmptyString => None
      | String b s' => if Ascii.eqb a b then literal p' s' else None
      end
  end.

(** A final group [([class]+)]: greedy, one unit at least. *)
Definition group (class : ascii -> bool) (s : string) : option string :=
  let text := takeWhile class s in
  if JS.truthy_string text then Some text else None.

(** [\/([a-zA-Z0-9]+)] at the start of [s]: the end of both patterns. *)
Definition slashKey (s : string) : option string :=
  match literal "/" s with
  | Some rest => group isAlnum rest
  | None => None
  end.

(** One alternative of [(?:file|design)], then the end of the pattern. *)
Definition wordSlashKey (word s : string) : option string :=
  match literal word s with
  | Some rest => slashKey rest
  | None => None
  end.

(** [/figma\.com\/(?:file|design)\/([a-zA-Z0-9]+)/] at the start of [s]. *)
Definition fileOrDesign (s : string) : option string :=
  match literal "figma.com/" s with
  | Some rest =>
      match wordSlashKey "file" rest with
      | Some key => Some key
      | None => wordSlashKey "design" rest
      end
  | None => None
  end.

(** [/figma\.com\/[^\/]+\/([a-zA-Z0-9]+)/] at the start of [s]: the greedy
    [[^\/]+] stops at the first slash, and giving back units cannot help,
    since the next unit must be a slash. *)
Definition anySegment (s : string) : option string :=
  match literal "figma.com/" s with
  | Some rest =>
      if JS.truthy_string (takeWhile notSlash rest)
      then slashKey (dropWhile notSlash rest)
      else None
  | None => None
  end.

(** [s.match(pattern)]: the first position from the left where the pattern
    matches. *)
Fixpoint search (pattern : string -> option string) (s : string)
  : option string :=
  match pattern s with
  | Some text => Some text
  | None =>
      match s with
      | EmptyString => None
      | String _ rest => search pattern rest
      end
  end.

(** [const patterns] *)
Definition patterns : list (string -> option string) :=
  [fileOrDesign; anySegment].

(** The [for ... of] loop over the patterns. *)
Fixpoint firstPattern (ps : list (string -> option string)) (url : string)
  : option string :=
  match ps with
  | [] => None
  | pattern :: ps' =>
      match search pattern url with
      | Some key => Some key
      | None => firstPattern ps' url
      end
  end.

(** [function extractFileKey(url)], on a string; [None] is [null]. *)
Definition extractFileKey (url : string) : option string :=
  if negb (JS.truthy_string url) then None
  else
    match firstPattern patterns url with
    | Some key => Some key
    | None =>
        if JS.truthy_string url && all isAlnum url
           && (10 <? String.length url)%nat
        then Some url
        else None
    end.

(** [function isValidFileKey(key)], on a string. *)
Definition isValidFileKey (key : string) : bool :=
  if negb (JS.truthy_string key) then false
  else all isAlnum key && (15 <=? String.length key)%nat.

End Url.

(** The text does not start with a unit of [[a-zA-Z0-9]]. *)
Definition keyEnds (tail : string) : Prop :=
  match tail with
  | EmptyString => True
  | String c _ => Url.isAlnum c = false
  end.

(** A key found by a pattern is a run of the class inside the text. *)
Definition keyInside (s key : string) : Prop :=
  key <> "" /\ Url.all Url.isAlnum key = true
  /\ exists before after, s = before +:+ key +:+ after.

(** * Properties *)

(** ** The sort *)

Section SortFacts.
Context {A : Type} (compareFn : A -> A -> JS.number).

Lemma insert_perm (a : A) (l : list A) :
  JS.insert compareFn a l ≡ₚ a :: l.
Proof.
  induction l as [|b l IH]; simpl; [done|].
  destruct (Qle_bool _ _); [done|].
  rewrite IH. apply Permutation_swap.
Qed.

Lemma Array_sort_perm (l : list A) : JS.Array_sort compareFn l ≡ₚ l.
Proof.
  induction l as [|a l IH]; simpl; [done|].
  by rewrite insert_perm, IH.
Qed.

Lemma Array_sort_length (l : list A) :
  length (JS.Array_sort compareFn l) = length l.
Proof. apply Permutation_length, Array_sort_perm. Qed.

(** Stability, for a class [P] of elements that the comparator never
    puts one after the other. *)
Section Stable.
Context (P : A -> Prop) `{!forall a, Decision (P a)}.
Hypothesis tie :
  forall a b, P a -> P b -> Qle_bool (compareFn a b) 0%Q = true.

Lemma filter_insert (a : A) (l : list A) :
  filter P (JS.insert compareFn a l) = filter P (a :: l).
Proof.
  induction l as [|b l IH]; simpl; [done|].
  destruct (Qle_bool (compareFn a b) 0%Q) eqn:Hab; [done|].
  rewrite filter_cons, IH, !filter_cons.
  destruct (decide (P b)) as [Hb|Hb], (decide (P a)) as [Ha|Ha];
    try done.
  rewrite (tie a b Ha Hb) in Hab. done.
Qed.

Lemma Array_sort_filter (l : list A) :
  filter P (JS.Array_sort compareFn l) = filter P l.
Proof.
  induction l as [|a l IH]; simpl; [done|].
  by rewrite filter_insert, !filter_cons, IH.
Qed.
End Stable.

(** Sortedness, for a comparator that compares keys. *)
Section Sorted.
Context (key : A -> JS.number).
Hypothesis compare_key :
  forall a b, Qle_bool (compareFn a b) 0%Q = Qle_bool (key a) (key b).

Let le (a b : A) : Prop := (key a <= key b)%Q.

Lemma insert_sorted (a : A) (l : list A) :
  StronglySorted le l -> StronglySorted le (JS.insert compareFn a l).
Proof.
  induction 1 as [|b l Hl IH Hb]; simpl.
  - repeat constructor.
  - rewrite compare_key.
    destruct (Qle_bool (key a) (key b)) eqn:Hab.
    + apply Qle_bool_iff in Hab.
      constructor; [by constructor|].
      constructor; [done|].
      eapply Forall_impl; [exact Hb|].
      intros c Hc. unfold le in *. by eapply Qle_trans.
    + assert (key b <= key a)%Q as Hba.
      { apply Qlt_le_weak, Qnot_le_lt. intros H.
        apply Qle_bool_iff in H. congruence. }
      constructor; [done|].
      rewrite insert_perm. by constructor.
Qed.

Lemma Array_sort_sorted (l : list A) :
  StronglySorted le (JS.Array_sort compareFn l).
Proof.
  induction l as [|a l IH]; simpl; [constructor|].
  by apply insert_sorted.
Qed.

(** A list sorted by key is determined by the sequence of its elements
    under each key. *)
Lemma sorted_classes_eq (l1 l2 : list A) :
  StronglySorted le l1 -> StronglySorted le l2 ->
  (forall k, filter (fun a => key a == k)%Q l1
             = filter (fun a => key a == k)%Q l2) ->
  l1 = l2.
Proof.
  intros H1. revert l2.
  induction H1 as [|a l1 Hl1 IH Ha]; intros l2 H2 Hcl.
  - destruct l2 as [|b l2]; [done|].
    specialize (Hcl (key b)). rewrite filter_cons_True in Hcl; done.
  - destruct H2 as [|b l2 Hl2 Hb].
    { specialize (Hcl (key a)). rewrite filter_cons_True in Hcl; done. }
    assert (key a == key b)%Q as Hab.
    { apply Qle_antisym.
      - assert (b ∈ a :: l1) as Hin.
        { eapply (list_elem_of_filter (fun x => key x == key b)%Q).
          rewrite Hcl, filter_cons_True by done. left. }
        apply elem_of_cons in Hin as [->|Hin]; [apply Qle_refl|].
        by eapply Forall_forall in Ha.
      - assert (a ∈ b :: l2) as Hin.
        { eapply (list_elem_of_filter (fun x => key x == key a)%Q).
          rewrite <- Hcl, filter_cons_True by done. left. }
        apply elem_of_cons in Hin as [->|Hin]; [apply Qle_refl|].
        by eapply Forall_forall in Hb. }
    assert (a = b) as ->.
    { specialize (Hcl (key b)).
      rewrite !filter_cons_True in Hcl by done. congruence. }
    f_equal. apply IH; [done|]. intros k. specialize (Hcl k).
    rewrite !filter_cons in Hcl. destruct (decide _); congruence.
Qed.

(** The rule of ECMAScript leaves one result only: a list that is
    sorted by key and keeps the elements of each key in their input
    order is the list [Array_sort] computes. *)
Lemma Array_sort_unique (l l' : list A) :
  StronglySorted le l' ->
  (forall k, filter (fun a => key a == k)%Q l'
             = filter (fun a => key a == k)%Q l) ->
  l' = JS.Array_sort compareFn l.
Proof.
  intros Hs Hcl. apply sorted_classes_eq; [done|apply Array_sort_sorted|].
  intros k. rewrite Hcl. symmetry. apply Array_sort_filter.
  intros a b Ha Hb. rewrite compare_key. apply Qle_bool_iff.
  rewrite Ha, Hb. apply Qle_refl.
Qed.
End Sorted.

(** Sorting commutes with a projection the comparator factors through. *)
Lemma insert_fmap {B : Type} (f : B -> A) (b : B) (l : list B) :
  f <$> JS.insert (fun x y => compareFn (f x) (f y)) b l
  = JS.insert compareFn (f b) (f <$> l).
Proof.
  induction l as [|c l IH]; [done|].
  rewrite fmap_cons. cbn [JS.insert].
  destruct (Qle_bool _ _); [done|]. by rewrite fmap_cons, IH.
Qed.

Lemma Array_sort_fmap {B : Type} (f : B -> A) (l : list B) :
  f <$> JS.Array_sort (fun x y => compareFn (f x) (f y)) l
  = JS.Array_sort compareFn (f <$> l).
Proof.
  induction l as [|b l IH]; [done|].
  rewrite fmap_cons. cbn [JS.Array_sort].
  by rewrite insert_fmap, IH.
Qed.
End SortFacts.

(** ** The order of a batch *)

Lemma compareZ_le (a b : ShapeConfig) :
  Qle_bool (compareZ a b) 0%Q = Qle_bool (layerIndex a) (layerIndex b).
Proof.
  unfold compareZ, layerIndex. apply Bool.eq_iff_eq_true.
  rewrite !Qle_bool_iff. split; intros; lra.
Qed.

Lemma layerThenPosition_intro (i : nat) (a : ShapeConfig)
    (p : nat * ShapeConfig) :
  (layerIndex a <= layerIndex p.2)%Q -> i < p.1 ->
  layerThenPosition (i, a) p.
Proof.
  intros Hle Hlt. unfold layerThenPosition. simpl.
  destruct (Qlt_le_dec (layerIndex a) (layerIndex p.2)) as [?|Hge];
    [by left|].
  right. split; [by apply Qle_antisym|done].
Qed.

Lemma layerThenPosition_le (p q : nat * ShapeConfig) :
  layerThenPosition p q -> (layerIndex p.2 <= layerIndex q.2)%Q.
Proof. intros [?|[? _]]; lra. Qed.

Lemma insert_positioned (i : nat) (a : ShapeConfig)
    (l : list (nat * ShapeConfig)) :
  Forall (fun p => i < p.1) l ->
  StronglySorted layerThenPosition l ->
  StronglySorted layerThenPosition
    (JS.insert (fun p q => compareZ p.2 q.2) (i, a) l).
Proof.
  intros Hi Hs. induction Hs as [|p l Hl IH Hp]; simpl.
  - repeat constructor.
  - apply Forall_cons in Hi as [Hip Hi].
    rewrite compareZ_le.
    destruct (Qle_bool (layerIndex a) (layerIndex p.2)) eqn:Hap.
    + apply Qle_bool_iff in Hap.
      constructor; [by constructor|].
      constructor; [by apply layerThenPosition_intro|].
      apply Forall_forall. intros q Hq.
      apply layerThenPosition_intro.
      * eapply Qle_trans; [exact Hap|].
        apply layerThenPosition_le. by eapply Forall_forall in Hp.
      * by eapply Forall_forall in Hi.
    + constructor; [by apply IH|].
      rewrite insert_perm. constructor; [|done].
      left. simpl. apply Qnot_le_lt. intros H.
      apply Qle_bool_iff in H. congruence.
Qed.

Lemma sort_positioned (s : nat) (l : list ShapeConfig) :
  let out :=
    JS.Array_sort (fun p q => compareZ p.2 q.2) (zip (seq s (length l)) l) in
  StronglySorted layerThenPosition out /\ Forall (fun p => s <= p.1) out.
Proof.
  revert s. induction l as [|a l IH]; intros s; simpl.
  - split; constructor.
  - destruct (IH (S s)) as [Hs Hge]. split.
    + apply insert_positioned; [|done].
      eapply Forall_impl; [exact Hge|]. simpl. lia.
    + rewrite insert_perm. constructor; [simpl; lia|].
      eapply Forall_impl; [exact Hge|]. simpl. lia.
Qed.

Lemma pushShapes_mapM (host : Host) (nodes : list SceneNode)
    (l : list ShapeConfig) :
  pushShapes host nodes l
  = (produced ← mapM (generateShape host) l; Ok (nodes ++ produced)).
Proof.
  revert nodes. induction l as [|c l IH]; intros nodes; simpl.
  - by rewrite app_nil_r.
  - destruct (generateShape host c) as [node|e]; simpl; [|done].
    rewrite IH. destruct (mapM _ l); simpl; [|done].
    by rewrite <- app_assoc.
Qed.

Lemma generateShapes_mapM (host : Host) (config : MultiShapeConfig) :
  generateShapes host config
  = mapM (generateShape host) (sortedShapes config).
Proof.
  unfold generateShapes. rewrite pushShapes_mapM.
  by destruct (mapM _ _).
Qed.

(** C1.  [generateShapes] runs the factory over the entries ordered by
    layer index ([zIndex], 0 when missing) ascending, and the order is
    stable: the entries of one layer come out in the order they came in.
    The last part says the same with positions: the output is the input
    ordered by layer index first and position in the input second. *)
Theorem generateShapes_stable_layer_order (host : Host)
    (config : MultiShapeConfig) :
  generateShapes host config
  = mapM (generateShape host) (sortedShapes config)
  /\ sortedShapes config ≡ₚ shapes config
  /\ StronglySorted (fun a b => (layerIndex a <= layerIndex b)%Q)
       (sortedShapes config)
  /\ (forall z, filter (onLayer z) (sortedShapes config)
                = filter (onLayer z) (shapes config))
  /\ exists out : list (nat * ShapeConfig),
       out.*2 = sortedShapes config
       /\ out ≡ₚ positioned (shapes config)
       /\ StronglySorted layerThenPosition out.
Proof.
  split; [apply generateShapes_mapM|].
  split; [apply Array_sort_perm|].
  split; [apply Array_sort_sorted, compareZ_le|].
  split.
  - intros z. apply Array_sort_filter. intros a b Ha Hb.
    rewrite compareZ_le. apply Qle_bool_iff.
    unfold onLayer in *. rewrite Ha, Hb. apply Qle_refl.
  - exists (JS.Array_sort (fun p q => compareZ p.2 q.2)
              (positioned (shapes config))).
    split; [|split].
    + unfold sortedShapes, positioned.
      rewrite (Array_sort_fmap compareZ snd).
      by rewrite snd_zip by (rewrite length_seq; lia).
    + apply Array_sort_perm.
    + apply sort_positioned.
Qed.

(** Whatever stable sort the engine runs, it returns [sortedShapes]: no
    other list is ascending by layer index and keeps each layer in input
    order. *)
Lemma sortedShapes_unique (config : MultiShapeConfig)
    (l : list ShapeConfig) :
  StronglySorted (fun a b => (layerIndex a <= layerIndex b)%Q) l ->
  (forall z, filter (onLayer z) l = filter (onLayer z) (shapes config)) ->
  l = sortedShapes config.
Proof.
  intros Hsorted Hstable.
  apply (Array_sort_unique compareZ layerIndex compareZ_le); [done|].
  apply Hstable.
Qed.

(** ** The factory keeps the kind it created *)

Lemma seq_true (s t : string) : JS.seq s t = true <-> s = t.
Proof. apply String.eqb_eq. Qed.

Lemma seq_false (s t : string) : JS.seq s t = false <-> s <> t.
Proof. apply String.eqb_neq. Qed.

Lemma assign_if_truthy_kind v set node :
  (forall n m, Node.kind (set n m) = Node.kind m) ->
  Node.kind (assign_if_truthy v set node) = Node.kind node.
Proof.
  intros Hset. unfold assign_if_truthy.
  destruct v as [n|]; [|done]. by destruct (JS.truthy n).
Qed.

(** Case analysis on a test [s === t] of the goal. *)
Ltac case_seq :=
  lazymatch goal with
  | |- context [JS.seq ?s ?t] =>
      let H := fresh "Htype" in
      destruct (JS.seq s t) eqn:H;
      [apply seq_true in H | apply seq_false in H]
  end.

(** What the switch does, case by case. *)
Lemma createBaseShape_cases (host : Host) (c : ShapeConfig) :
  (Config.type c = "rectangle"
   /\ createBaseShape host c
      = Ok (assign_if_defined (Config.cornerRadius c) Node.set_cornerRadius
              (Node.create RECTANGLE)))
  \/ (Config.type c = "ellipse"
      /\ createBaseShape host c = Ok (Node.create ELLIPSE))
  \/ (Config.type c = "star"
      /\ createBaseShape host c
         = Ok (assign_if_truthy (Config.innerRadius c) Node.set_innerRadius
                 (assign_if_truthy (Config.pointCount c) Node.set_pointCount
                    (Node.create STAR))))
  \/ (Config.type c = "polygon"
      /\ createBaseShape host c
         = Ok (assign_if_truthy (Config.polygonPointCount c)
                 Node.set_pointCount (Node.create POLYGON)))
  \/ (Config.type c = "line"
      /\ createBaseShape host c = Ok (Node.create LINE))
  \/ (Config.type c = "frame"
      /\ createBaseShape host c = Ok (Node.create FRAME))
  \/ (Config.type c = "text"
      /\ createBaseShape host c
         = if fontLoads host
           then Ok (assign_if_truthy (Config.fontSize c) Node.set_fontSize
                      (assign_if_truthy_string (Config.text c)
                         Node.set_characters (Node.create TEXT)))
           else Throw ResourceUnavailable)
  \/ (~ supportedType (Config.type c)
      /\ createBaseShape host c = Throw UnsupportedShapeType).
Proof.
  unfold createBaseShape, loadFontAsync.
  case_seq; [by left|right].
  case_seq; [by left|right].
  case_seq; [by left|right].
  case_seq; [by left|right].
  case_seq; [by left|right].
  case_seq; [by left|right].
  case_seq; [left; split; [done|by destruct (fontLoads host)]|right].
  split; [|done]. unfold supportedType.
  rewrite !elem_of_cons, elem_of_nil. tauto.
Qed.

Lemma createBaseShape_kind (host : Host) (c : ShapeConfig) (n : SceneNode) :
  createBaseShape host c = Ok n -> kind_name (Node.kind n) = Config.type c.
Proof.
  destruct (createBaseShape_cases host c)
    as [[Ht Hc]|[[Ht Hc]|[[Ht Hc]|[[Ht Hc]|[[Ht Hc]|[[Ht Hc]|[[Ht Hc]
        |[Ht Hc]]]]]]]]; rewrite Hc; try rewrite Ht; intros H;
    simplify_eq/=; try done.
  - by destruct (Config.cornerRadius c).
  - by rewrite !assign_if_truthy_kind.
  - by rewrite !assign_if_truthy_kind.
  - destruct (fontLoads host); simplify_eq/=.
    rewrite assign_if_truthy_kind by done.
    unfold assign_if_truthy_string.
    destruct (Config.text c) as [t|]; [|done].
    by destruct (JS.truthy_string t).
Qed.

Lemma applyFill_kind (host : Host) (c : ShapeConfig) (n n' : SceneNode) :
  applyFill host c n = Ok n' -> Node.kind n' = Node.kind n.
Proof.
  unfold applyFill. intros H.
  repeat (case_match; simplify_eq/=); try done.
  destruct (hexToRgb _); by simplify_eq/=.
Qed.

Lemma applyStroke_kind (host : Host) (c : ShapeConfig) (n n' : SceneNode) :
  applyStroke host c n = Ok n' -> Node.kind n' = Node.kind n.
Proof.
  unfold applyStroke. intros H.
  destruct (Config.stroke c) as [s|]; [|by simplify_eq].
  destruct (_ && _); [|by simplify_eq].
  destruct (hexToRgb _); simplify_eq/=.
  repeat (case_match; simplify_eq/=); done.
Qed.

(** The steps of [generateShape], named. *)
Lemma generateShape_Ok (host : Host) (c : ShapeConfig) (n : SceneNode) :
  generateShape host c = Ok n ->
  exists n0 n2,
    createBaseShape host c = Ok n0
    /\ applyFill host c (placed host c n0) = Ok n2
    /\ applyStroke host c n2 = Ok n.
Proof.
  unfold generateShape. intros H.
  destruct (createBaseShape host c) as [n0|] eqn:H0; simplify_eq/=.
  destruct (applyFill host c (placed host c n0)) as [n2|] eqn:H2.
  - unfold placed in H2. simpl in H2. rewrite H2 in H. simpl in H.
    destruct (applyStroke host c n2) as [n3|] eqn:H3; simplify_eq/=.
    by exists n0, n2.
  - unfold placed in H2. simpl in H2. rewrite H2 in H. done.
Qed.

Lemma placed_kind host c n0 : Node.kind (placed host c n0) = Node.kind n0.
Proof.
  unfold placed. simpl. by destruct (has host "resize" (Node.kind n0)).
Qed.

Lemma generateShape_kind (host : Host) (c : ShapeConfig) (n : SceneNode) :
  generateShape host c = Ok n -> kind_name (Node.kind n) = Config.type c.
Proof.
  intros (n0 & n2 & H0 & H2 & H3)%generateShape_Ok.
  apply applyStroke_kind in H3. apply applyFill_kind in H2.
  apply createBaseShape_kind in H0.
  by rewrite H3, H2, placed_kind.
Qed.

(** ** The loop over a batch *)

Lemma mapM_Ok {A B : Type} (f : A -> result B) (l : list A) (k : list B) :
  mapM f l = Ok k <-> Forall2 (fun a b => f a = Ok b) l k.
Proof.
  revert k. induction l as [|a l IH]; intros k; simpl.
  - split; [intros [= <-]; constructor|by inversion 1].
  - destruct (f a) as [b|e] eqn:Ha; simpl.
    + destruct (mapM f l) as [k'|e] eqn:Hl; simpl.
      * split.
        -- intros [= <-]. constructor; [done|]. by apply IH.
        -- inversion 1 as [|? b' ? k'' Hb Hk]; subst.
           apply IH in Hk. unfold mret, result_ret. congruence.
      * split; [done|]. inversion 1 as [|? b' ? k'' Hb Hk]; subst.
        apply IH in Hk. done.
    + split; [done|]. inversion 1; congruence.
Qed.

Lemma mapM_Throw {A B : Type} (f : A -> result B) (l : list A) (e : Error) :
  mapM f l = Throw e <->
  exists l1 a l2,
    l = l1 ++ a :: l2 /\ Forall (fun a => succeeds (f a) = true) l1
    /\ f a = Throw e.
Proof.
  induction l as [|a l IH]; simpl.
  - split; [done|]. by intros ([|??] & ? & ? & ? & _).
  - destruct (f a) as [b|e'] eqn:Ha; simpl.
    + destruct (mapM f l) as [k'|e''] eqn:Hl; simpl.
      * split; [done|]. intros (l1 & a' & l2 & Hl12 & Hl1 & Ha').
        destruct l1 as [|a1 l1]; simplify_eq/=; [congruence|].
        apply Forall_cons in Hl1 as [_ Hl1].
        assert (Ok k' = Throw e) by (apply IH; by eexists _, _, _). done.
      * split.
        -- intros [= ->]. destruct IH as [IH _].
           destruct (IH eq_refl) as (l1 & a' & l2 & -> & Hl1 & Ha').
           exists (a :: l1), a', l2. split; [done|]. split; [|done].
           constructor; [by rewrite Ha|done].
        -- intros (l1 & a' & l2 & Hl12 & Hl1 & Ha').
           destruct l1 as [|a1 l1]; simplify_eq/=; [congruence|].
           apply Forall_cons in Hl1 as [_ Hl1].
           apply IH. by eexists _, _, _.
    + split.
      * intros [= ->]. exists [], a, l. by repeat split.
      * intros (l1 & a' & l2 & Hl12 & Hl1 & Ha').
        destruct l1 as [|a1 l1]; simplify_eq/=; [congruence|].
        apply Forall_cons in Hl1 as [Hl1 _]. by rewrite Ha in Hl1.
Qed.

(** One failing entry is enough for the loop to fail. *)
Lemma mapM_fails {A B : Type} (f : A -> result B) (l : list A) (a : A) :
  a ∈ l -> succeeds (f a) = false -> exists e, mapM f l = Throw e.
Proof.
  intros Hin Ha. destruct (mapM f l) as [k|e] eqn:Hl; [|by eexists].
  apply mapM_Ok in Hl.
  apply list_elem_of_lookup in Hin as [i Hi].
  destruct (Forall2_lookup_l _ _ _ _ _ Hl Hi) as (b & _ & Hb).
  by rewrite Hb in Ha.
Qed.

(** ** The handler on the JSON message *)

Lemma onmessage_fromJson (host : Host) (p : ConfigPayload)
    (st : Figma.State) :
  onmessage host (fromJson p) st = onCreateShapeFromJson host p st.
Proof.
  unfold onmessage, fromJson, hseq, hbind, when, hret. simpl.
  destruct (onCreateShapeFromJson host p st) as [[[]|e] st']; done.
Qed.

Lemma onmessage_batch_throws (host : Host) (config : MultiShapeConfig)
    (e : Error) (st : Figma.State) :
  generateShapes host config = Throw e ->
  onmessage host (fromJson (Multi config)) st = (Throw e, st).
Proof.
  intros H. rewrite onmessage_fromJson.
  unfold onCreateShapeFromJson, hbind, await. by rewrite H.
Qed.

(** ** Properties of a batch *)

(** C2.  When [generateShapes] succeeds on a batch, it returns as many
    nodes as the batch has entries, and the kind of the i-th node is the
    type of the i-th entry of the sorted batch. *)
Theorem generateShapes_positional (host : Host) (config : MultiShapeConfig)
    (nodes : list SceneNode) :
  generateShapes host config = Ok nodes ->
  length nodes = length (shapes config)
  /\ (fun n => kind_name (Node.kind n)) <$> nodes
     = Config.type <$> sortedShapes config
  /\ forall i c,
       sortedShapes config !! i = Some c ->
       exists n, nodes !! i = Some n
                 /\ generateShape host c = Ok n
                 /\ kind_name (Node.kind n) = Config.type c.
Proof.
  rewrite generateShapes_mapM. intros H%mapM_Ok.
  split; [|split].
  - rewrite <- (Forall2_length _ _ _ H). apply Array_sort_length.
  - induction H as [|c n l k Hc _ IH]; [done|].
    rewrite !fmap_cons, IH. f_equal. by apply generateShape_kind in Hc.
  - intros i c Hi.
    destruct (Forall2_lookup_l _ _ _ _ _ H Hi) as (n & Hn & Hc).
    exists n. split; [done|]. split; [done|].
    by apply generateShape_kind in Hc.
Qed.

Lemma generateShapes_positional_witness :
  generateShapes figma scenario2 = Ok scenario2_nodes
  /\ length scenario2_nodes = 2
  /\ (fun n => kind_name (Node.kind n)) <$> scenario2_nodes
     = ["ellipse"; "star"].
Proof.
  assert (generateShapes figma scenario2 = Ok scenario2_nodes) as H
    by (vm_compute; reflexivity).
  split; [exact H|].
  destruct (generateShapes_positional figma scenario2 scenario2_nodes H)
    as (Hlen & Hkinds & _).
  split; [exact Hlen|exact Hkinds].
Defined.

(** The sorted batch has the entries of the batch. *)
Lemma elem_of_sortedShapes (config : MultiShapeConfig) (c : ShapeConfig) :
  c ∈ sortedShapes config <-> c ∈ shapes config.
Proof. unfold sortedShapes. by rewrite Array_sort_perm. Qed.

(** C4.  A configuration whose type is none of the seven is rejected with
    [UnsupportedShapeType] and no node; a batch that contains it produces
    nothing, whatever its other entries, the handler throwing before its
    statements that append, select and show; and when the other entries are
    valid the error of the batch is [UnsupportedShapeType]. *)
Theorem unsupported_type_rejected (host : Host) (c : ShapeConfig) :
  ~ supportedType (Config.type c) ->
  generateShape host c = Throw UnsupportedShapeType
  /\ forall config,
       c ∈ shapes config ->
       (exists e,
          generateShapes host config = Throw e
          /\ forall st,
               onmessage host (fromJson (Multi config)) st = (Throw e, st))
       /\ ((forall c', c' ∈ shapes config ->
                       supportedType (Config.type c') ->
                       succeeds (generateShape host c') = true) ->
           generateShapes host config = Throw UnsupportedShapeType).
Proof.
  intros Hty.
  assert (forall a, ~ supportedType (Config.type a) ->
                    generateShape host a = Throw UnsupportedShapeType) as Hrej.
  { intros a Ha. unfold generateShape.
    destruct (createBaseShape_cases host a)
      as [[Ht _]|[[Ht _]|[[Ht _]|[[Ht _]|[[Ht _]|[[Ht _]|[[Ht _]
          |[_ Hc]]]]]]]];
      [exfalso; apply Ha; rewrite Ht; unfold supportedType;
       rewrite !elem_of_cons; tauto ..|].
    by rewrite Hc. }
  split; [by apply Hrej|].
  intros config Hin%elem_of_sortedShapes.
  destruct (mapM_fails (generateShape host) _ c Hin) as [e He].
  { by rewrite (Hrej c Hty). }
  rewrite generateShapes_mapM. split.
  - exists e. split; [done|]. intros st. apply onmessage_batch_throws.
    by rewrite generateShapes_mapM.
  - intros Hvalid. rewrite He. f_equal.
    apply mapM_Throw in He as (before & c' & after & Hsorted & _ & Hc').
    destruct (decide (supportedType (Config.type c'))) as [Hs|Hs].
    + assert (c' ∈ shapes config) as Hin'.
      { apply elem_of_sortedShapes. rewrite Hsorted.
        apply elem_of_app. right. by left. }
      specialize (Hvalid c' Hin' Hs). by rewrite Hc' in Hvalid.
    + rewrite (Hrej c' Hs) in Hc'. by injection Hc'.
Qed.

Lemma unsupported_type_rejected_witness :
  ~ supportedType "kite"
  /\ generateShape figma (plain "kite") = Throw UnsupportedShapeType
  /\ generateShapes figma kiteBatch = Throw UnsupportedShapeType
  /\ onmessage figma (fromJson (Multi kiteBatch)) Figma.initial
     = (Throw UnsupportedShapeType, Figma.initial).
Proof.
  assert (~ supportedType (Config.type (plain "kite"))) as Hty.
  { unfold supportedType. simpl. rewrite !elem_of_cons, elem_of_nil.
    intros H. repeat destruct H as [H|H]; discriminate || done. }
  split; [exact Hty|].
  destruct (unsupported_type_rejected figma (plain "kite") Hty)
    as [Hone Hbatch].
  split; [exact Hone|].
  assert (plain "kite" ∈ shapes kiteBatch) as Hin.
  { simpl. apply elem_of_cons. right. apply elem_of_cons. by left. }
  destruct (Hbatch kiteBatch Hin) as [(e & He & Hst) Hvalid].
  assert (generateShapes figma kiteBatch = Throw UnsupportedShapeType) as H.
  { apply Hvalid. intros c' Hc' Hs. simpl in Hc'.
    rewrite !elem_of_cons, elem_of_nil in Hc'.
    destruct Hc' as [->|[->|[->|[]]]].
    - vm_compute; reflexivity.
    - exfalso. apply Hty. exact Hs.
    - vm_compute; reflexivity. }
  split; [exact H|].
  rewrite H in He. injection He as <-. apply Hst.
Defined.

(** The batch of one entry does what the factory does on that entry, also
    when it fails. *)
Lemma generateShapes_singleton (host : Host) (c : ShapeConfig) :
  generateShapes host {| shapes := [c] |}
  = (n ← generateShape host c; Ok [n]).
Proof.
  unfold generateShapes, sortedShapes. simpl.
  by destruct (generateShape host c).
Qed.

Lemma onmessage_singleton (host : Host) (c : ShapeConfig)
    (st : Figma.State) :
  onmessage host (fromJson (Multi {| shapes := [c] |})) st
  = onmessage host (fromJson (Single c)) st.
Proof.
  rewrite !onmessage_fromJson.
  unfold onCreateShapeFromJson, hbind, await.
  rewrite generateShapes_singleton.
  by destruct (generateShape host c).
Qed.

(** C8.  For a valid configuration [c], the batch [{shapes: [c]}] produces
    the one-element list whose node is the node produced for [c] alone, and
    the handler leaves the host in the same state on both requests. *)
Theorem single_shape_equivalence (host : Host) (c : ShapeConfig)
    (n : SceneNode) :
  generateShape host c = Ok n ->
  generateShapes host {| shapes := [c] |} = Ok [n]
  /\ forall st,
       onmessage host (fromJson (Multi {| shapes := [c] |})) st
       = onmessage host (fromJson (Single c)) st
       /\ onmessage host (fromJson (Single c)) st
          = (Ok tt,
             Figma.scrollAndZoomIntoView [n]
               (Figma.set_selection [n] (Figma.appendChild n st))).
Proof.
  intros Hc. split.
  - by rewrite generateShapes_singleton, Hc.
  - intros st. split; [apply onmessage_singleton|].
    rewrite onmessage_fromJson.
    unfold onCreateShapeFromJson, hbind, await. by rewrite Hc.
Qed.

Lemma single_shape_equivalence_witness :
  generateShape figma (with_fill (Some "blue") (plain "rectangle"))
  = Ok blueRectangle
  /\ generateShapes figma
       {| shapes := [with_fill (Some "blue") (plain "rectangle")] |}
     = Ok [blueRectangle].
Proof.
  assert (generateShape figma (with_fill (Some "blue") (plain "rectangle"))
          = Ok blueRectangle) as Hc by (vm_compute; reflexivity).
  split; [exact Hc|].
  apply (single_shape_equivalence figma _ blueRectangle Hc).
Defined.

(** ** Colours *)

(** Case analysis on the 256 code units. *)
Ltac ascii_cases c := destruct c as [[] [] [] [] [] [] [] []].

Lemma isHexDigit_spec (c : ascii) : isHexDigit c = true <-> specHexChar c.
Proof.
  unfold isHexDigit, specHexChar, hexDigit.
  rewrite bool_decide_eq_true.
  set (n := N_of_ascii c).
  destruct (Z.leb_spec 48 (Z.of_N n)), (Z.leb_spec (Z.of_N n) 57); simpl;
    try (split; [intros; lia|intros; by eexists]).
  all: destruct (Z.leb_spec 97 (Z.of_N n)), (Z.leb_spec (Z.of_N n) 102);
    simpl; try (split; [intros; lia|intros; by eexists]).
  all: destruct (Z.leb_spec 65 (Z.of_N n)), (Z.leb_spec (Z.of_N n) 70);
    simpl; try (split; [intros; lia|intros; by eexists]).
  all: split; [by intros [? ?]|lia].
Qed.

Lemma hexDigit_lower (c : ascii) :
  isHexDigit c = true ->
  hexDigit c = Some (specDigit (JS.lower_unit c))
  /\ (0 <= specDigit (JS.lower_unit c) <= 15)%Z
  /\ digitChar (specDigit (JS.lower_unit c)) = JS.lower_unit c.
Proof.
  ascii_cases c; intros H; vm_compute in H; try discriminate H;
    (split; [reflexivity|split; [vm_compute; intuition discriminate
                                |reflexivity]]).
Qed.

Lemma dropHash_other (c : ascii) (rest : string) :
  c <> "#"%char -> dropHash (String c rest) = String c rest.
Proof. ascii_cases c; intros H; try reflexivity. by destruct H. Qed.

Lemma specHexChar_not_hash (c : ascii) : specHexChar c -> c <> "#"%char.
Proof. intros H ->. unfold specHexChar in H. simpl in H. lia. Qed.

(** The six digits of a colour of the domain. *)
Lemma specHexColor_digits (s : string) :
  specHexColor s ->
  exists c1 c2 c3 c4 c5 c6,
    dropHash s
    = String c1 (String c2 (String c3 (String c4 (String c5
        (String c6 "")))))
    /\ Forall (fun c => isHexDigit c = true) [c1; c2; c3; c4; c5; c6].
Proof.
  intros (digits & Hs & Hlen & Hhex).
  destruct digits as [|c1 [|c2 [|c3 [|c4 [|c5 [|c6 [|]]]]]]];
    simplify_eq/=.
  exists c1, c2, c3, c4, c5, c6. split.
  - destruct Hs as [->| ->]; [|done].
    apply dropHash_other, specHexChar_not_hash.
    by apply Forall_cons in Hhex as [? _].
  - eapply Forall_impl; [exact Hhex|]. intros c. apply isHexDigit_spec.
Qed.

Lemma digits_specHexColor (s : string) (c1 c2 c3 c4 c5 c6 : ascii) :
  dropHash s
  = String c1 (String c2 (String c3 (String c4 (String c5 (String c6 "")))))
  ->
  Forall (fun c => isHexDigit c = true) [c1; c2; c3; c4; c5; c6] ->
  specHexColor s.
Proof.
  intros Hs Hhex. exists [c1; c2; c3; c4; c5; c6].
  split; [|split; [done|]].
  - destruct s as [|c s]; [done|].
    destruct (decide (c = "#"%char)) as [->|Hc].
    + right. simpl in Hs. by rewrite Hs.
    + left. rewrite dropHash_other in Hs by done. by rewrite Hs.
  - eapply Forall_impl; [exact Hhex|]. intros c. apply isHexDigit_spec.
Qed.

Lemma hex_exec_Some (hex : string) (groups : string * string * string) :
  hex_exec hex = Some groups <->
  exists c1 c2 c3 c4 c5 c6,
    dropHash hex
    = String c1 (String c2 (String c3 (String c4 (String c5
        (String c6 "")))))
    /\ Forall (fun c => isHexDigit c = true) [c1; c2; c3; c4; c5; c6]
    /\ groups = (String c1 (String c2 ""), String c3 (String c4 ""),
                 String c5 (String c6 "")).
Proof.
  unfold hex_exec. split.
  - destruct (dropHash hex)
      as [|c1 [|c2 [|c3 [|c4 [|c5 [|c6 [|]]]]]]]; try done.
    destruct (isHexDigit c1) eqn:?, (isHexDigit c2) eqn:?,
      (isHexDigit c3) eqn:?, (isHexDigit c4) eqn:?, (isHexDigit c5) eqn:?,
      (isHexDigit c6) eqn:?; simpl; try done.
    intros [= <-]. exists c1, c2, c3, c4, c5, c6.
    split; [done|]. split; [|done]. by repeat constructor.
  - intros (c1 & c2 & c3 & c4 & c5 & c6 & -> & Hhex & ->).
    repeat (apply Forall_cons in Hhex as [-> Hhex]). done.
Qed.

(** The domain of [hexToRgb] is the pattern of the specification. *)
Lemma hexToRgb_domain (s : string) :
  succeeds (hexToRgb s) = true <-> specHexColor s.
Proof.
  unfold hexToRgb. split.
  - destruct (hex_exec s) as [groups|] eqn:H; [|done]. intros _.
    apply hex_exec_Some in H
      as (c1 & c2 & c3 & c4 & c5 & c6 & Hs & Hhex & _).
    by eapply digits_specHexColor.
  - intros (c1 & c2 & c3 & c4 & c5 & c6 & Hs & Hhex)%specHexColor_digits.
    assert (hex_exec s
            = Some (String c1 (String c2 ""), String c3 (String c4 ""),
                    String c5 (String c6 ""))) as ->; [|done].
    apply hex_exec_Some. by exists c1, c2, c3, c4, c5, c6.
Qed.

Lemma parseInt16_pair (hi lo : ascii) :
  isHexDigit hi = true -> isHexDigit lo = true ->
  parseInt16 (String hi (String lo ""))
  = specByte (JS.lower_unit hi) (JS.lower_unit lo)
  /\ (0 <= specByte (JS.lower_unit hi) (JS.lower_unit lo) <= 255)%Z.
Proof.
  intros (Hhi & ? & _)%hexDigit_lower (Hlo & ? & _)%hexDigit_lower.
  unfold parseInt16, specByte. simpl. rewrite Hhi, Hlo. lia.
Qed.

(** On its domain [hexToRgb] computes the triple of the specification. *)
Lemma hexToRgb_specRgb (s : string) :
  specHexColor s ->
  exists rgb,
    specRgb s = Some rgb /\ hexToRgb s = Ok rgb
    /\ channel (r rgb) /\ channel (g rgb) /\ channel (b rgb).
Proof.
  intros (c1 & c2 & c3 & c4 & c5 & c6 & Hs & Hhex)%specHexColor_digits.
  assert (hex_exec s
          = Some (String c1 (String c2 ""), String c3 (String c4 ""),
                  String c5 (String c6 ""))) as Hexec.
  { apply hex_exec_Some. by exists c1, c2, c3, c4, c5, c6. }
  repeat (apply Forall_cons in Hhex as [? Hhex]).
  destruct (parseInt16_pair c1 c2) as [Hr ?]; [done..|].
  destruct (parseInt16_pair c3 c4) as [Hg ?]; [done..|].
  destruct (parseInt16_pair c5 c6) as [Hb ?]; [done..|].
  eexists. split; [|split; [|split; [|split]]].
  - unfold specRgb, hexCanon. rewrite Hs. simpl. reflexivity.
  - unfold hexToRgb. rewrite Hexec, Hr, Hg, Hb. reflexivity.
  - simpl. eexists. split; [|reflexivity]. done.
  - simpl. eexists. split; [|reflexivity]. done.
  - simpl. eexists. split; [|reflexivity]. done.
Qed.

Lemma channel_unit (q : JS.number) : channel q -> (0 <= q <= 1)%Q.
Proof.
  intros (byte & Hbyte & ->). unfold div255, Qle. simpl. lia.
Qed.

Lemma specByte_inj (hi lo hi' lo' : ascii) :
  isHexDigit hi = true -> isHexDigit lo = true ->
  isHexDigit hi' = true -> isHexDigit lo' = true ->
  specByte (JS.lower_unit hi) (JS.lower_unit lo)
  = specByte (JS.lower_unit hi') (JS.lower_unit lo') ->
  JS.lower_unit hi = JS.lower_unit hi' /\ JS.lower_unit lo = JS.lower_unit lo'.
Proof.
  intros (_ & ? & Hhi)%hexDigit_lower (_ & ? & Hlo)%hexDigit_lower
         (_ & ? & Hhi')%hexDigit_lower (_ & ? & Hlo')%hexDigit_lower.
  unfold specByte. intros Hbytes.
  assert (specDigit (JS.lower_unit hi) = specDigit (JS.lower_unit hi')
          /\ specDigit (JS.lower_unit lo) = specDigit (JS.lower_unit lo'))
    as [Eh El] by lia.
  split; congruence.
Qed.

(** Two colours of the domain have the same triple exactly when they write
    the same six digits, case and [#] apart. *)
Lemma hexToRgb_inj (s1 s2 : string) :
  specHexColor s1 -> specHexColor s2 ->
  hexToRgb s1 = hexToRgb s2 <-> hexCanon s1 = hexCanon s2.
Proof.
  intros H1 H2.
  destruct (hexToRgb_specRgb s1 H1) as (rgb1 & Hs1 & Hx1 & _).
  destruct (hexToRgb_specRgb s2 H2) as (rgb2 & Hs2 & Hx2 & _).
  rewrite Hx1, Hx2. split.
  - intros [= <-].
    apply specHexColor_digits in H1
      as (c1 & c2 & c3 & c4 & c5 & c6 & Hd1 & Hh1).
    apply specHexColor_digits in H2
      as (d1 & d2 & d3 & d4 & d5 & d6 & Hd2 & Hh2).
    unfold specRgb, hexCanon in *. rewrite Hd1 in Hs1 |- *.
    rewrite Hd2 in Hs2 |- *. simpl in *.
    rewrite <- Hs1 in Hs2. unfold div255 in Hs2.
    injection Hs2 as Hr Hg Hb.
    repeat (apply Forall_cons in Hh1 as [? Hh1]).
    repeat (apply Forall_cons in Hh2 as [? Hh2]).
    symmetry in Hr, Hg, Hb.
    apply specByte_inj in Hr as [-> ->]; [|done..].
    apply specByte_inj in Hg as [-> ->]; [|done..].
    apply specByte_inj in Hb as [-> ->]; [|done..].
    done.
  - intros Hc. unfold specRgb in Hs1, Hs2. rewrite Hc in Hs1. congruence.
Qed.

(** *** The table of names *)

Lemma colorNames_entry (name hex : string) :
  colorNames !! name = Some hex ->
  hex <> "" /\ JS.startsWith name "#" = false
  /\ (name = "transparent" /\ hex = "transparent"
      \/ name <> "transparent" /\ succeeds (hexToRgb hex) = true).
Proof.
  intros H%elem_of_list_to_map_2.
  repeat (apply elem_of_cons in H as [H|H];
          [injection H as -> ->;
           split; [done|split; [reflexivity|]];
           first [left; split; reflexivity
                 |right; split; [discriminate|vm_compute; reflexivity]]|]).
  by apply elem_of_nil in H.
Qed.

Lemma startsWith_hash_lower (s : string) :
  JS.startsWith (JS.toLowerCase s) "#" = JS.startsWith s "#".
Proof.
  destruct s as [|c s]; [done|]. simpl.
  ascii_cases c; reflexivity.
Qed.

(** A name of the table, in any case, normalizes to the table's value. *)
Lemma normalizeColor_name (s name hex : string) :
  colorNames !! name = Some hex -> JS.toLowerCase s = name ->
  normalizeColor s = hex.
Proof.
  intros Hname Hs. unfold normalizeColor, colorNames_get.
  destruct (colorNames_entry name hex Hname) as (Hhex & Hhash & _).
  case_seq.
  - subst s. simpl in Hs. subst name.
    vm_compute in Hname. congruence.
  - rewrite <- startsWith_hash_lower, Hs, Hhash, Hname.
    by destruct hex.
Qed.

Lemma hexToRgb_error (v : Value) (e : Error) :
  hexToRgb v = Throw e -> e = InvalidColor.
Proof.
  unfold hexToRgb. destruct v as [s|key]; [|congruence].
  destruct (hex_exec s) as [[[??]?]|]; congruence.
Qed.

(** [normalizeColor] returns its argument, the table's value for it, or
    what the table inherits under its lower-case form. *)
Lemma normalizeColor_cases (s : string) :
  normalizeColor s = Str s
  \/ (exists hex,
        colorNames !! JS.toLowerCase s = Some hex
        /\ normalizeColor s = Str hex)
  \/ (colorNames !! JS.toLowerCase s = None
      /\ JS.toLowerCase s ∈ Object_prototype
      /\ normalizeColor s = Inherited (JS.toLowerCase s)).
Proof.
  unfold normalizeColor, colorNames_get. case_seq; [left; by subst|].
  destruct (JS.startsWith s "#"); [by left|].
  destruct (colorNames !! JS.toLowerCase s) as [hex|] eqn:Hl.
  - simpl. destruct (JS.truthy_string hex); [right; left; by exists hex|].
    by left.
  - case_bool_decide as Hin; [|by left]. right. by right.
Qed.

(** A value that is no colour is not turned into one: it is rejected. *)
Lemma resolve_unknown (v : string) :
  ~ knownColor v ->
  v <> "transparent"
  /\ strictEq (normalizeColor v) "transparent" = false
  /\ hexToRgb (normalizeColor v) = Throw InvalidColor.
Proof.
  unfold knownColor. intros Hv.
  split; [tauto|].
  destruct (normalizeColor_cases v) as [->|[(hex & Hl & _)|(_ & _ & ->)]].
  - split; [apply seq_false; tauto|].
    destruct (hexToRgb v) as [rgb|e] eqn:Hx.
    + exfalso. apply Hv. right. left. apply hexToRgb_domain. by rewrite Hx.
    + f_equal. by eapply hexToRgb_error.
  - exfalso. apply Hv. right. right. by eexists.
  - done.
Qed.

Lemma applyFill_error (host : Host) (c : ShapeConfig) (n : SceneNode)
    (e : Error) :
  applyFill host c n = Throw e -> e = InvalidColor.
Proof.
  unfold applyFill. intros H.
  repeat (case_match; simplify_eq/=).
  destruct (hexToRgb _) eqn:Hx; simplify_eq/=. by eapply hexToRgb_error.
Qed.

Lemma truthy_string_nonempty (s : string) :
  JS.truthy_string s = true <-> s <> "".
Proof. by destruct s. Qed.

Lemma generateShape_steps (host : Host) (c : ShapeConfig) (n0 : SceneNode) :
  createBaseShape host c = Ok n0 ->
  generateShape host c
  = (n2 ← applyFill host c (placed host c n0); applyStroke host c n2).
Proof.
  intros H0. unfold generateShape, placed. rewrite H0. simpl.
  lazymatch goal with
  | |- ?m ≫= _ = _ => destruct m as [n2|]; simpl; [|done]
  end.
  by destruct (applyStroke host c n2).
Qed.

(** C5.  Colour resolution is total on its domain and tells colours apart:
    a string is accepted by [hexToRgb] exactly when it matches
    [^#?[0-9a-fA-F]{6}$]; it is then resolved to the one triple its six
    digits write, whatever their case, each channel being a byte over 255
    and lying in [0, 1]; two such strings get the same triple exactly when
    they write the same digits; and every name of the table, in any case,
    resolves to what its table value resolves to, which is a triple for
    every name with a hex value (["red"], ["#ff0000"] and (1, 0, 0)). *)
Theorem color_resolution_total (s : string) :
  (succeeds (hexToRgb s) = true <-> specHexColor s)
  /\ (specHexColor s ->
      exists rgb,
        specRgb s = Some rgb /\ hexToRgb s = Ok rgb
        /\ channel (r rgb) /\ channel (g rgb) /\ channel (b rgb)
        /\ (0 <= r rgb <= 1)%Q /\ (0 <= g rgb <= 1)%Q
        /\ (0 <= b rgb <= 1)%Q)
  /\ (forall s', specHexColor s -> specHexColor s' ->
                 hexToRgb s = hexToRgb s' <-> hexCanon s = hexCanon s')
  /\ (forall hex : string, colorNames !! JS.toLowerCase s = Some hex ->
        resolveColor s = hexToRgb hex
        /\ (JS.toLowerCase s <> "transparent" ->
            specHexColor hex /\ exists rgb, resolveColor s = Ok rgb))
  /\ (resolveColor "red" = hexToRgb "#ff0000"
      /\ exists rgb, hexToRgb "#ff0000" = Ok rgb
                     /\ (r rgb == 1)%Q /\ (g rgb == 0)%Q /\ (b rgb == 0)%Q).
Proof.
  split; [apply hexToRgb_domain|].
  split.
  { intros (rgb & ? & ? & Hr & Hg & Hb)%hexToRgb_specRgb.
    exists rgb. repeat split; try done; by apply channel_unit. }
  split; [intros s' ? ?; by apply hexToRgb_inj|].
  split.
  - intros hex Hname. unfold resolveColor.
    rewrite (normalizeColor_name s _ hex Hname eq_refl).
    split; [done|]. intros Hne.
    destruct (colorNames_entry _ _ Hname) as (_ & _ & [[? _]|[_ Hok]]);
      [done|].
    split; [by apply hexToRgb_domain|].
    destruct (hexToRgb hex) as [rgb|]; [by exists rgb|done].
  - split; [reflexivity|]. eexists. split; [reflexivity|]. done.
Qed.

Lemma color_resolution_total_witness :
  specHexColor "#FFA500"
  /\ hexToRgb "#FFA500"
     = Ok {| r := div255 255; g := div255 165; b := div255 0 |}
  /\ (hexToRgb "#FFA500" = hexToRgb "ffa500")
  /\ colorNames !! JS.toLowerCase "Orange" = Some "#ffa500"
  /\ resolveColor "Orange" = hexToRgb "#ffa500".
Proof.
  destruct (color_resolution_total "#FFA500")
    as (Hdom & Hval & Hinj & _ & _).
  assert (specHexColor "#FFA500") as Hs
    by (apply Hdom; vm_compute; reflexivity).
  split; [exact Hs|]. split.
  - destruct (Hval Hs) as (rgb & Hspec & Hrgb & _).
    vm_compute in Hspec. injection Hspec as <-. exact Hrgb.
  - split.
    + apply Hinj; [exact Hs| |reflexivity].
      apply hexToRgb_domain. vm_compute; reflexivity.
    + assert (colorNames !! JS.toLowerCase "Orange" = Some "#ffa500") as Hn
        by (vm_compute; reflexivity).
      split; [exact Hn|].
      destruct (color_resolution_total "Orange") as (_ & _ & _ & Hname & _).
      apply (Hname "#ffa500" Hn).
Defined.

(** C6 as it is written fails on the empty string: it is no colour, and
    the factory produces the node, without paint. *)
Lemma empty_color_not_rejected :
  ~ knownColor ""
  /\ generateShape figma (with_fill (Some "") (plain "rectangle"))
     = Ok plainRectangle
  /\ generateShape figma (with_stroke (Some "") (plain "rectangle"))
     = Ok plainRectangle.
Proof.
  split; [|split; vm_compute; reflexivity].
  intros [H|[H|H]].
  - discriminate H.
  - apply hexToRgb_domain in H. vm_compute in H. discriminate H.
  - vm_compute in H. by destruct H.
Qed.

(** C6, amended.  A fill or stroke value that is not empty and is neither
    ["transparent"], a 6-digit hex colour, nor a name of the table (looked
    up without regard to case) makes [generateShape] throw [InvalidColor],
    with no node, on every node that has the painted property. *)
Theorem unknown_color_rejected (host : Host) (c : ShapeConfig)
    (n0 : SceneNode) (v : string) :
  createBaseShape host c = Ok n0 ->
  v <> "" ->
  ~ knownColor v ->
  (Config.fill c = Some v /\ has host "fills" (Node.kind n0) = true)
  \/ (Config.stroke c = Some v /\ has host "strokes" (Node.kind n0) = true)
  ->
  generateShape host c = Throw InvalidColor.
Proof.
  intros H0 Hne (Htr & Hnorm & Hrgb)%resolve_unknown Hv.
  rewrite (generateShape_steps host c n0 H0).
  apply truthy_string_nonempty in Hne. apply seq_false in Htr.
  destruct Hv as [[Hfill Hhas]|[Hstroke Hhas]].
  - unfold applyFill.
    rewrite Hfill, Hne, Htr, placed_kind, Hhas. simpl.
    rewrite Hnorm, Hrgb. done.
  - destruct (applyFill host c (placed host c n0)) as [n2|e] eqn:Hf; simpl.
    + apply applyFill_kind in Hf. rewrite placed_kind in Hf.
      unfold applyStroke.
      rewrite Hstroke, Hne, Hf, Hhas. simpl. rewrite Hrgb. done.
    + f_equal. by eapply applyFill_error.
Qed.

Lemma unknown_color_rejected_witness :
  generateShape figma (with_fill (Some "notacolor") (plain "rectangle"))
  = Throw InvalidColor
  /\ generateShape figma (with_stroke (Some "#12") (plain "rectangle"))
     = Throw InvalidColor.
Proof.
  assert (forall v : string, succeeds (hexToRgb v) = false ->
                    v <> "transparent" ->
                    colorNames !! JS.toLowerCase v = None ->
                    ~ knownColor v) as Hunknown.
  { intros v Hx Ht Hn [?|[Hs|Hk]]; [done| |].
    - apply hexToRgb_domain in Hs. congruence.
    - rewrite Hn in Hk. by destruct Hk. }
  split.
  - apply (unknown_color_rejected figma _ (Node.create RECTANGLE) "notacolor").
    + reflexivity.
    + discriminate.
    + apply Hunknown; [vm_compute; reflexivity|discriminate
                       |vm_compute; reflexivity].
    + left. split; reflexivity.
  - apply (unknown_color_rejected figma _ (Node.create RECTANGLE) "#12").
    + reflexivity.
    + discriminate.
    + apply Hunknown; [vm_compute; reflexivity|discriminate
                       |vm_compute; reflexivity].
    + right. split; reflexivity.
Defined.

(** The stroke block has no test for ["transparent"]: the value reaches
    [hexToRgb], which rejects it. *)
Lemma transparent_stroke_rejected (host : Host) (c : ShapeConfig)
    (n0 : SceneNode) :
  createBaseShape host c = Ok n0 ->
  Config.stroke c = Some "transparent" ->
  has host "strokes" (Node.kind n0) = true ->
  generateShape host c = Throw InvalidColor.
Proof.
  intros H0 Hstroke Hhas.
  rewrite (generateShape_steps host c n0 H0).
  destruct (applyFill host c (placed host c n0)) as [n2|e] eqn:Hf; simpl.
  - apply applyFill_kind in Hf. rewrite placed_kind in Hf.
    unfold applyStroke. rewrite Hstroke, Hf, Hhas. done.
  - f_equal. by eapply applyFill_error.
Qed.

(** The fill block stops at ["transparent"], in any case of the letters:
    no paint, no error. *)
Lemma transparent_fill_skipped (host : Host) (c : ShapeConfig)
    (n : SceneNode) (v : string) :
  Config.fill c = Some v -> JS.toLowerCase v = "transparent" ->
  applyFill host c n = Ok n.
Proof.
  intros Hfill Hv. unfold applyFill. rewrite Hfill.
  destruct (_ && _) eqn:Hcond; [|done].
  assert (normalizeColor v = "transparent") as ->; [|done].
  by apply (normalizeColor_name v "transparent").
Qed.

(** C7.  On a rectangle of the Figma host, the fill ["transparent"] gives
    the node without paint, and the stroke ["transparent"] makes
    [generateShape] throw [InvalidColor]: the stroke path does attempt the
    hex parse. *)
Theorem transparent_stroke_throws :
  generateShape figma (with_fill (Some "transparent") (plain "rectangle"))
  = Ok plainRectangle
  /\ generateShape figma (with_stroke (Some "transparent") (plain "rectangle"))
     = Throw InvalidColor.
Proof.
  split; [vm_compute; reflexivity|].
  by apply (transparent_stroke_rejected figma _ (Node.create RECTANGLE)).
Qed.

(** ** Stroke weight and corner radius *)

Lemma assign_if_truthy_proj {T : Type} (proj : SceneNode -> T) v set node :
  (forall n m, proj (set n m) = proj m) ->
  proj (assign_if_truthy v set node) = proj node.
Proof.
  intros Hset. unfold assign_if_truthy.
  destruct v as [n|]; [|done]. by destruct (JS.truthy n).
Qed.

Lemma assign_if_truthy_string_proj {T : Type} (proj : SceneNode -> T)
    v set node :
  (forall s m, proj (set s m) = proj m) ->
  proj (assign_if_truthy_string v set node) = proj node.
Proof.
  intros Hset. unfold assign_if_truthy_string.
  destruct v as [s|]; [|done]. by destruct (JS.truthy_string s).
Qed.

(** What the switch leaves in the two fields. *)
Lemma createBaseShape_fields (host : Host) (c : ShapeConfig)
    (n0 : SceneNode) :
  createBaseShape host c = Ok n0 ->
  Node.strokeWeight n0 = None
  /\ forall rad, Node.cornerRadius n0 = Some rad <->
                 Config.type c = "rectangle"
                 /\ Config.cornerRadius c = Some rad.
Proof.
  assert (forall ty, ty <> "rectangle" ->
            forall rad : Q, @None Q = Some rad <->
                            ty = "rectangle"
                            /\ Config.cornerRadius c = Some rad) as Hother.
  { intros ty Hty rad. split; [done|]. by intros [? _]. }
  destruct (createBaseShape_cases host c)
    as [[Ht Hc]|[[Ht Hc]|[[Ht Hc]|[[Ht Hc]|[[Ht Hc]|[[Ht Hc]|[[Ht Hc]
        |[Ht Hc]]]]]]]]; rewrite Hc; try rewrite Ht; intros H.
  - simplify_eq. destruct (Config.cornerRadius c) as [rad0|]; simpl.
    + split; [done|]. intros rad. split; [by intros [= <-]|].
      by intros [_ [= <-]].
    + split; [done|]. intros rad. split; [done|]. by intros [_ [=]].
  - simplify_eq. simpl. split; [done|]. by apply Hother.
  - simplify_eq.
    rewrite !(assign_if_truthy_proj Node.strokeWeight),
      !(assign_if_truthy_proj Node.cornerRadius) by done.
    simpl. split; [done|]. by apply Hother.
  - simplify_eq.
    rewrite !(assign_if_truthy_proj Node.strokeWeight),
      !(assign_if_truthy_proj Node.cornerRadius) by done.
    simpl. split; [done|]. by apply Hother.
  - simplify_eq. simpl. split; [done|]. by apply Hother.
  - simplify_eq. simpl. split; [done|]. by apply Hother.
  - destruct (fontLoads host); simplify_eq.
    rewrite !(assign_if_truthy_proj Node.strokeWeight),
      !(assign_if_truthy_proj Node.cornerRadius),
      !(assign_if_truthy_string_proj Node.strokeWeight),
      !(assign_if_truthy_string_proj Node.cornerRadius) by done.
    simpl. split; [done|]. by apply Hother.
  - done.
Qed.

Lemma placed_fields (host : Host) (c : ShapeConfig) (n0 : SceneNode) :
  Node.strokeWeight (placed host c n0) = Node.strokeWeight n0
  /\ Node.cornerRadius (placed host c n0) = Node.cornerRadius n0.
Proof.
  unfold placed. simpl. by destruct (has host "resize" (Node.kind n0)).
Qed.

Lemma applyFill_fields (host : Host) (c : ShapeConfig) (n n' : SceneNode) :
  applyFill host c n = Ok n' ->
  Node.strokeWeight n' = Node.strokeWeight n
  /\ Node.cornerRadius n' = Node.cornerRadius n.
Proof.
  unfold applyFill. intros H.
  repeat (case_match; simplify_eq/=); try done.
  destruct (hexToRgb _); by simplify_eq/=.
Qed.

(** What the stroke block writes in the two fields. *)
Lemma applyStroke_fields (host : Host) (c : ShapeConfig) (n n' : SceneNode) :
  applyStroke host c n = Ok n' ->
  Node.strokeWeight n = None ->
  Node.cornerRadius n' = Node.cornerRadius n
  /\ forall w,
       Node.strokeWeight n' = Some w <->
       Config.strokeWidth c = Some w /\ JS.truthy w = true
       /\ has host "strokeWeight" (Node.kind n) = true
       /\ exists s, Config.stroke c = Some s /\ s <> ""
                    /\ has host "strokes" (Node.kind n) = true.
Proof.
  unfold applyStroke. intros H Hnone.
  assert (forall n1 (P : JS.number -> Prop),
            Node.strokeWeight n1 = None -> (forall w, ~ P w) ->
            forall w, Node.strokeWeight n1 = Some w <-> P w) as Hnot.
  { intros n1 P Hn1 HP w. rewrite Hn1. split; [done|]. intros HPw.
    by apply HP in HPw. }
  destruct (Config.stroke c) as [s|].
  2: { simplify_eq. split; [done|]. apply Hnot; [done|].
       by intros w (_ & _ & _ & ? & [=] & _). }
  destruct (JS.truthy_string s) eqn:Hs; simpl in H.
  2: { assert (s = "") as -> by (by destruct s).
       simplify_eq. split; [done|]. apply Hnot; [done|].
       by intros w (_ & _ & _ & ? & [= <-] & ? & _). }
  apply truthy_string_nonempty in Hs.
  destruct (has host "strokes" (Node.kind n)) eqn:Hstrokes; simpl in H.
  2: { simplify_eq. split; [done|]. apply Hnot; [done|].
       by intros w (_ & _ & _ & ? & _ & _ & [=]). }
  destruct (hexToRgb _) as [rgb|]; simpl in H; [|done].
  destruct (Config.strokeWidth c) as [w'|].
  2: { simplify_eq/=. split; [done|]. apply Hnot; [done|].
       by intros w ([=] & _). }
  destruct (JS.truthy w') eqn:Hw'; simpl in H.
  2: { simplify_eq/=. split; [done|]. intros w. rewrite Hnone.
       split; [done|]. intros ([= <-] & ? & _). congruence. }
  destruct (has host "strokeWeight" (Node.kind n)) eqn:Hweight;
    simplify_eq/=.
  - split; [done|]. intros w. split.
    + intros [= <-]. repeat split; try done. by exists s.
    + by intros ([= <-] & _).
  - split; [done|]. intros w. rewrite Hnone.
    split; [done|]. by intros (_ & _ & [=] & _).
Qed.

(** Success of the paint blocks depends on the node through its kind
    only. *)
Lemma applyFill_succeeds_kind (host : Host) (c : ShapeConfig)
    (n n' : SceneNode) :
  Node.kind n = Node.kind n' ->
  succeeds (applyFill host c n) = succeeds (applyFill host c n').
Proof.
  intros Hk. unfold applyFill. rewrite Hk.
  repeat case_match; try done.
  by destruct (hexToRgb _).
Qed.

Lemma applyStroke_succeeds_kind (host : Host) (c : ShapeConfig)
    (n n' : SceneNode) :
  Node.kind n = Node.kind n' ->
  succeeds (applyStroke host c n) = succeeds (applyStroke host c n').
Proof.
  intros Hk. unfold applyStroke. rewrite Hk.
  destruct (Config.stroke c) as [s|]; [|done].
  destruct (_ && _); [|done].
  destruct (hexToRgb _); simpl; [|done].
  repeat case_match; done.
Qed.

Lemma applyStroke_succeeds_strokeWidth (host : Host) (c : ShapeConfig)
    (v : option JS.number) (n : SceneNode) :
  succeeds (applyStroke host (with_strokeWidth v c) n)
  = succeeds (applyStroke host c n).
Proof.
  unfold applyStroke. simpl.
  destruct (Config.stroke c) as [s|]; [|done].
  destruct (_ && _); [|done].
  destruct (hexToRgb _); simpl; [|done].
  repeat case_match; done.
Qed.

(** Whether [generateShape] succeeds does not depend on [strokeWidth]. *)
Lemma generateShape_succeeds_strokeWidth (host : Host) (c : ShapeConfig)
    (v : option JS.number) :
  succeeds (generateShape host (with_strokeWidth v c))
  = succeeds (generateShape host c).
Proof.
  destruct (createBaseShape host c) as [n0|e] eqn:H0.
  - rewrite (generateShape_steps host c n0 H0).
    rewrite (generateShape_steps host (with_strokeWidth v c) n0 H0).
    change (applyFill host (with_strokeWidth v c)) with (applyFill host c).
    change (placed host (with_strokeWidth v c)) with (placed host c).
    destruct (applyFill host c (placed host c n0)); simpl; [|done].
    apply applyStroke_succeeds_strokeWidth.
  - unfold generateShape.
    change (createBaseShape host (with_strokeWidth v c))
      with (createBaseShape host c).
    by rewrite H0.
Qed.

Lemma createBaseShape_cornerRadius (host : Host) (c : ShapeConfig)
    (v : option JS.number) :
  match createBaseShape host c,
        createBaseShape host (with_cornerRadius v c) with
  | Ok n, Ok n' => Node.kind n = Node.kind n'
  | Throw e, Throw e' => e = e'
  | _, _ => False
  end.
Proof.
  unfold createBaseShape. simpl.
  repeat (case_seq; [try done|]); [| |done].
  - by destruct v, (Config.cornerRadius c).
  - by destruct (loadFontAsync host).
Qed.

(** Whether [generateShape] succeeds does not depend on [cornerRadius]. *)
Lemma generateShape_succeeds_cornerRadius (host : Host) (c : ShapeConfig)
    (v : option JS.number) :
  succeeds (generateShape host (with_cornerRadius v c))
  = succeeds (generateShape host c).
Proof.
  pose proof (createBaseShape_cornerRadius host c v) as Hbase.
  destruct (createBaseShape host c) as [n0|e] eqn:H0,
    (createBaseShape host (with_cornerRadius v c)) as [n0'|e'] eqn:H0';
    try done.
  - rewrite (generateShape_steps host c n0 H0).
    rewrite (generateShape_steps host (with_cornerRadius v c) n0' H0').
    change (applyFill host (with_cornerRadius v c)) with (applyFill host c).
    change (applyStroke host (with_cornerRadius v c))
      with (applyStroke host c).
    change (placed host (with_cornerRadius v c)) with (placed host c).
    pose proof (applyFill_succeeds_kind host c (placed host c n0)
                  (placed host c n0')) as Hfill.
    rewrite !placed_kind in Hfill. specialize (Hfill Hbase).
    destruct (applyFill host c (placed host c n0)) as [n2|] eqn:H2,
      (applyFill host c (placed host c n0')) as [n2'|] eqn:H2'; try done.
    simpl. symmetry. apply applyStroke_succeeds_kind.
    apply applyFill_kind in H2, H2'. rewrite placed_kind in H2, H2'.
    congruence.
  - unfold generateShape. by rewrite H0, H0'.
Qed.

(** The two fields on the produced node. *)
Lemma generateShape_fields (host : Host) (c : ShapeConfig) (n : SceneNode) :
  generateShape host c = Ok n ->
  (forall w,
     Node.strokeWeight n = Some w <->
     Config.strokeWidth c = Some w /\ JS.truthy w = true
     /\ has host "strokeWeight" (Node.kind n) = true
     /\ exists s, Config.stroke c = Some s /\ s <> ""
                  /\ has host "strokes" (Node.kind n) = true)
  /\ (forall rad,
        Node.cornerRadius n = Some rad <->
        Config.type c = "rectangle" /\ Config.cornerRadius c = Some rad).
Proof.
  intros (n0 & n2 & H0 & H2 & H3)%generateShape_Ok.
  destruct (createBaseShape_fields host c n0 H0) as [Hw0 Hr0].
  destruct (placed_fields host c n0) as [Hw1 Hr1].
  destruct (applyFill_fields host c _ _ H2) as [Hw2 Hr2].
  pose proof (applyFill_kind host c _ _ H2) as Hk2.
  pose proof (applyStroke_kind host c _ _ H3) as Hk3.
  destruct (applyStroke_fields host c _ _ H3) as [Hr3 Hw3];
    [congruence|].
  split.
  - intros w. rewrite Hw3, Hk3. done.
  - intros rad. rewrite Hr3, Hr2, Hr1. apply Hr0.
Qed.

(** C9 as it is written fails on a stroke width given without a stroke: the
    rectangle has a [strokeWeight] property, and the width is not
    written. *)
Lemma strokeWidth_without_stroke_ignored :
  has figma "strokeWeight" RECTANGLE = true
  /\ generateShape figma (with_strokeWidth (Some 5%Q) (plain "rectangle"))
     = Ok plainRectangle
  /\ Node.kind plainRectangle = RECTANGLE
  /\ Node.strokeWeight plainRectangle = None.
Proof. repeat split; vm_compute; reflexivity. Qed.

(** C9, amended.  On the produced node the stroke weight is written exactly
    when the configuration has a stroke width other than 0 and a non-empty
    stroke, and the node has the [strokes] and [strokeWeight] properties;
    the corner radius is written exactly when the type is [rectangle] and a
    corner radius is given.  Otherwise the value is ignored, and neither
    value ever makes the factory fail. *)
Theorem stroke_weight_corner_radius (host : Host) (c : ShapeConfig)
    (n : SceneNode) :
  generateShape host c = Ok n ->
  (forall w,
     Node.strokeWeight n = Some w <->
     Config.strokeWidth c = Some w /\ JS.truthy w = true
     /\ has host "strokeWeight" (Node.kind n) = true
     /\ exists s, Config.stroke c = Some s /\ s <> ""
                  /\ has host "strokes" (Node.kind n) = true)
  /\ (forall rad,
        Node.cornerRadius n = Some rad <->
        Config.type c = "rectangle" /\ Config.cornerRadius c = Some rad)
  /\ (forall v, succeeds (generateShape host (with_strokeWidth v c)) = true)
  /\ (forall v, succeeds (generateShape host (with_cornerRadius v c)) = true).
Proof.
  intros H.
  assert (succeeds (generateShape host c) = true) as Hok by (by rewrite H).
  destruct (generateShape_fields host c n H) as [Hw Hr].
  split; [exact Hw|]. split; [exact Hr|]. split.
  - intros v. by rewrite generateShape_succeeds_strokeWidth.
  - intros v. by rewrite generateShape_succeeds_cornerRadius.
Qed.

Lemma stroke_weight_corner_radius_witness :
  generateShape figma outlinedRectangle = Ok outlinedRectangleNode
  /\ Node.strokeWeight outlinedRectangleNode = Some 3%Q
  /\ Node.cornerRadius outlinedRectangleNode = Some 8%Q.
Proof.
  assert (generateShape figma outlinedRectangle = Ok outlinedRectangleNode)
    as H by (vm_compute; reflexivity).
  split; [exact H|].
  destruct (stroke_weight_corner_radius figma _ _ H) as (Hw & Hr & _).
  split.
  - apply Hw. split; [reflexivity|]. split; [reflexivity|].
    split; [reflexivity|]. exists "black".
    split; [reflexivity|]. split; [discriminate|reflexivity].
  - apply Hr. split; reflexivity.
Defined.

(** ** Zero and absent values *)




(** ** The end-to-end scenarios *)

Example scenario1_blue_rectangle :
  generateShape figma (with_fill (Some "blue") (plain "rectangle"))
  = Ok blueRectangle
  /\ Node.size blueRectangle = Some (100%Q, 50%Q)
  /\ Node.fills blueRectangle
     = Some [SOLID {| r := div255 0; g := div255 0; b := div255 255 |}].
Proof. repeat split; vm_compute; reflexivity. Qed.

Example scenario2_ellipse_then_star :
  Config.type <$> sortedShapes scenario2 = ["ellipse"; "star"].
Proof. vm_compute; reflexivity. Qed.

Example scenario3_order_kept :
  sortedShapes scenario3 = shapes scenario3.
Proof. vm_compute; reflexivity. Qed.

Example text_needs_the_font :
  generateShape fontlessHost (plain "text") = Throw ResourceUnavailable
  /\ succeeds (generateShape figma (plain "text")) = true.
Proof. split; vm_compute; reflexivity. Qed.

Example bare_host_paints_nothing :
  generateShape bareHost (with_fill (Some "notacolor") (plain "rectangle"))
  = Ok (Node.set_y 0%Q (Node.set_x 0%Q (Node.create RECTANGLE))).
Proof. vm_compute; reflexivity. Qed.

Example create_star_closes_the_plugin :
  exists star,
    onmessage figma createStar Figma.initial
    = (Ok tt,
       {| Figma.children := [star]; Figma.selection := [star];
          Figma.viewport := Some [star]; Figma.closed := true |})
    /\ Node.kind star = STAR /\ Node.pointCount star = Some 7%Q.
Proof. eexists. split; [vm_compute; reflexivity|]. split; reflexivity. Qed.

(** * Further properties of the plugin code *)

(** ** Colour normalization *)

Lemma colorNames_value (name hex : string) :
  colorNames !! name = Some hex ->
  normalizeColor hex = Str hex
  /\ (hex = "transparent" -> name = "transparent").
Proof.
  intros H%elem_of_list_to_map_2.
  repeat (apply elem_of_cons in H as [H|H];
          [injection H as -> ->;
           split; [vm_compute; reflexivity|];
           first [reflexivity|discriminate]|]).
  by apply elem_of_nil in H.
Qed.

Lemma strictEq_true (v : Value) (s : string) :
  strictEq v s = true <-> v = Str s.
Proof.
  destruct v as [t|key]; simpl; [|split; discriminate].
  rewrite seq_true. split; congruence.
Qed.

Lemma strictEq_false (v : Value) (s : string) :
  strictEq v s = false <-> v <> Str s.
Proof.
  rewrite <- strictEq_true. by destruct (strictEq v s).
Qed.

(** The value is skipped by the fill block exactly when it is
    [transparent] in some case of the letters. *)
Lemma normalizeColor_transparent (v : string) :
  normalizeColor v = Str "transparent"
  <-> JS.toLowerCase v = "transparent".
Proof.
  split.
  - destruct (normalizeColor_cases v)
      as [Hv|[(hex & Hl & Hv)|(_ & _ & Hv)]]; rewrite Hv.
    + by intros [= ->].
    + intros [= ->]. by apply colorNames_value in Hl as [_ ->].
    + discriminate.
  - intros Hv. by apply (normalizeColor_name v "transparent").
Qed.

Lemma lower_unit_idempotent (c : ascii) :
  JS.lower_unit (JS.lower_unit c) = JS.lower_unit c.
Proof. ascii_cases c; reflexivity. Qed.

Lemma toLowerCase_idempotent (s : string) :
  JS.toLowerCase (JS.toLowerCase s) = JS.toLowerCase s.
Proof.
  induction s as [|c s IH]; simpl; [done|].
  by rewrite lower_unit_idempotent, IH.
Qed.

(** Of the inherited names, only [constructor] and [__proto__] are written
    in lower case, as a key handed to the table is. *)
Lemma Object_prototype_lower (s : string) :
  JS.toLowerCase s ∈ Object_prototype
  <-> JS.toLowerCase s = "constructor" \/ JS.toLowerCase s = "__proto__".
Proof.
  split.
  - intros Hin. pose proof (toLowerCase_idempotent s) as Hlow.
    unfold Object_prototype in Hin.
    repeat (apply elem_of_cons in Hin as [Hin|Hin];
            [first [by left | by right
                   | rewrite Hin in Hlow; vm_compute in Hlow;
                     discriminate Hlow]|]).
    by apply elem_of_nil in Hin.
  - intros [->| ->]; unfold Object_prototype; rewrite !elem_of_cons; tauto.
Qed.

(** X1.  [normalizeColor] is idempotent wherever it returns a string: the
    string it returns (a hex string, the literal [transparent], or the
    unknown value itself) is returned unchanged when normalized again.  It
    returns a string for every argument but [constructor] and [__proto__]
    written in any case of the letters; for these it returns what the table
    inherits under that name, which is no string and cannot be normalized
    again. *)
Theorem normalizeColor_idempotent (s : string) :
  (forall t : string, normalizeColor s = Str t -> normalizeColor t = Str t)
  /\ ((exists key, normalizeColor s = Inherited key)
      <-> JS.toLowerCase s = "constructor"
          \/ JS.toLowerCase s = "__proto__").
Proof.
  split.
  - intros t Ht.
    destruct (normalizeColor_cases s)
      as [Hs|[(hex & Hl & Hs)|(_ & _ & Hs)]]; rewrite Hs in Ht.
    + injection Ht as <-. exact Hs.
    + injection Ht as <-. by apply colorNames_value in Hl as [? _].
    + discriminate Ht.
  - rewrite <- Object_prototype_lower. split.
    + intros [key Hkey].
      destruct (normalizeColor_cases s)
        as [Hs|[(hex & _ & Hs)|(_ & Hin & _)]]; [congruence..|done].
    + intros Hin. exists (JS.toLowerCase s).
      apply Object_prototype_lower in Hin as Hlow.
      assert (s <> "transparent") as Hs
        by (intros ->; by destruct Hlow as [Hlow|Hlow]).
      assert (JS.startsWith s "#" = false) as Hhash.
      { rewrite <- startsWith_hash_lower.
        by destruct Hlow as [-> | ->]. }
      unfold normalizeColor, colorNames_get.
      apply seq_false in Hs. rewrite Hs, Hhash.
      by destruct Hlow as [-> | ->].
Qed.

Lemma normalizeColor_idempotent_witness :
  normalizeColor "Orange" = Str "#ffa500"
  /\ normalizeColor "#ffa500" = Str "#ffa500"
  /\ exists key, normalizeColor "Constructor" = Inherited key.
Proof.
  assert (normalizeColor "Orange" = Str "#ffa500") as H
    by (vm_compute; reflexivity).
  destruct (normalizeColor_idempotent "Orange") as [Hstr _].
  destruct (normalizeColor_idempotent "Constructor") as [_ Hobj].
  split; [exact H|]. split; [exact (Hstr _ H)|].
  apply Hobj. left. vm_compute; reflexivity.
Defined.

Lemma hexDigit_lower_unit (c : ascii) :
  hexDigit (JS.lower_unit c) = hexDigit c.
Proof. ascii_cases c; reflexivity. Qed.

Lemma isHexDigit_lower_unit (c : ascii) :
  isHexDigit (JS.lower_unit c) = isHexDigit c.
Proof. unfold isHexDigit. by rewrite hexDigit_lower_unit. Qed.

Lemma dropHash_toLowerCase (s : string) :
  dropHash (JS.toLowerCase s) = JS.toLowerCase (dropHash s).
Proof. destruct s as [|c s]; [done|]. ascii_cases c; reflexivity. Qed.

Lemma parseInt16_lower (hi lo : ascii) :
  parseInt16 (String (JS.lower_unit hi) (String (JS.lower_unit lo) ""))
  = parseInt16 (String hi (String lo "")).
Proof.
  unfold parseInt16. simpl. by rewrite !hexDigit_lower_unit.
Qed.

(** The pattern of [hexToRgb] has the flag [i]: the case of the digits does
    not matter. *)
Lemma hexToRgb_toLowerCase (s : string) :
  hexToRgb (JS.toLowerCase s) = hexToRgb s.
Proof.
  unfold hexToRgb, hex_exec. rewrite dropHash_toLowerCase.
  destruct (dropHash s) as [|c1 [|c2 [|c3 [|c4 [|c5 [|c6 [|]]]]]]];
    try done.
  simpl. rewrite !isHexDigit_lower_unit.
  destruct (_ && _); [|done]. by rewrite !parseInt16_lower.
Qed.

(** X2.  Colour resolution ignores the case of the letters, for names and
    for hex digits alike: a value and its lower-case form resolve to the
    same triple or fail alike. *)
Theorem resolveColor_case_insensitive (s : string) :
  resolveColor (JS.toLowerCase s) = resolveColor s.
Proof.
  unfold resolveColor.
  destruct (decide (JS.toLowerCase s = "transparent")) as [Ht|Ht].
  - assert (normalizeColor s = "transparent") as ->
      by (by apply normalizeColor_transparent).
    by rewrite Ht.
  - assert (s <> "transparent") as Hs by (by intros ->).
    unfold normalizeColor.
    apply seq_false in Ht, Hs. rewrite Ht, Hs.
    rewrite startsWith_hash_lower, toLowerCase_idempotent.
    destruct (JS.startsWith s "#"); [apply hexToRgb_toLowerCase|].
    destruct (colorNames_get (JS.toLowerCase s)) as [hex|];
      [|apply hexToRgb_toLowerCase].
    destruct (truthy_value hex); [done|apply hexToRgb_toLowerCase].
Qed.

(** ** What the factory accepts and what it writes *)

Lemma fillPainted_dec (host : Host) (k : NodeKind) (c : ShapeConfig) :
  (exists v, fillPainted host k c v) \/ (forall v, ~ fillPainted host k c v).
Proof.
  unfold fillPainted.
  destruct (Config.fill c) as [f|]; [|right; by intros v [[=] _]].
  destruct (decide (f = "")) as [->|Hne];
    [right; intros v ([= <-] & ? & _); done|].
  destruct (decide (JS.toLowerCase f = "transparent")) as [Ht|Ht];
    [right; intros v ([= <-] & _ & ? & _); done|].
  destruct (has host "fills" k) eqn:Hhas;
    [|right; by intros v (_ & _ & _ & [=])].
  left. by exists f.
Qed.

Lemma strokePainted_dec (host : Host) (k : NodeKind) (c : ShapeConfig) :
  (exists v, strokePainted host k c v)
  \/ (forall v, ~ strokePainted host k c v).
Proof.
  unfold strokePainted.
  destruct (Config.stroke c) as [s|]; [|right; by intros v [[=] _]].
  destruct (decide (s = "")) as [->|Hne];
    [right; intros v ([= <-] & ? & _); done|].
  destruct (has host "strokes" k) eqn:Hhas;
    [|right; by intros v (_ & _ & [=])].
  left. by exists s.
Qed.

(** The fill block, by cases. *)
Lemma applyFill_painted (host : Host) (c : ShapeConfig) (n : SceneNode)
    (v : string) :
  fillPainted host (Node.kind n) c v ->
  applyFill host c n
  = (rgb ← resolveColor v; Ok (Node.set_fills [SOLID rgb] n)).
Proof.
  intros (Hfill & Hne & Ht & Hhas). unfold applyFill, resolveColor.
  rewrite Hfill, Hhas.
  apply truthy_string_nonempty in Hne. rewrite Hne.
  assert (v <> "transparent") as Hv by (by intros ->).
  apply seq_false in Hv. rewrite Hv. simpl.
  assert (normalizeColor v <> Str "transparent") as Hnorm
    by (by rewrite normalizeColor_transparent).
  apply strictEq_false in Hnorm. by rewrite Hnorm.
Qed.

Lemma applyFill_skipped (host : Host) (c : ShapeConfig) (n : SceneNode) :
  (forall v, ~ fillPainted host (Node.kind n) c v) ->
  applyFill host c n = Ok n.
Proof.
  intros Hno. unfold applyFill.
  destruct (Config.fill c) as [f|] eqn:Hfill; [|done].
  destruct (JS.truthy_string f) eqn:Hne; [|done].
  destruct (JS.seq f "transparent") eqn:Hf; [done|].
  destruct (has host "fills" (Node.kind n)) eqn:Hhas; [|done]. simpl.
  destruct (strictEq (normalizeColor f) "transparent") eqn:Hnorm; [done|].
  exfalso. apply (Hno f). unfold fillPainted.
  apply truthy_string_nonempty in Hne. apply strictEq_false in Hnorm.
  by rewrite normalizeColor_transparent in Hnorm.
Qed.

(** The stroke block, by cases. *)
Lemma applyStroke_painted (host : Host) (c : ShapeConfig) (n : SceneNode)
    (v : string) :
  strokePainted host (Node.kind n) c v ->
  applyStroke host c n
  = (rgb ← resolveColor v;
     let node := Node.set_strokes [SOLID rgb] n in
     Ok (match Config.strokeWidth c with
         | Some w =>
             if JS.truthy w && has host "strokeWeight" (Node.kind n)
             then Node.set_strokeWeight w node
             else node
         | None => node
         end)).
Proof.
  intros (Hstroke & Hne & Hhas). unfold applyStroke, resolveColor.
  rewrite Hstroke, Hhas.
  apply truthy_string_nonempty in Hne. rewrite Hne. simpl.
  destruct (hexToRgb (normalizeColor v)); simpl; [|done].
  destruct (Config.strokeWidth c) as [w|]; [|done].
  by destruct (_ && _).
Qed.

Lemma applyStroke_skipped (host : Host) (c : ShapeConfig) (n : SceneNode) :
  (forall v, ~ strokePainted host (Node.kind n) c v) ->
  applyStroke host c n = Ok n.
Proof.
  intros Hno. unfold applyStroke.
  destruct (Config.stroke c) as [s|] eqn:Hstroke; [|done].
  destruct (JS.truthy_string s) eqn:Hne; [|done].
  destruct (has host "strokes" (Node.kind n)) eqn:Hhas; [|done].
  exfalso. apply (Hno s). unfold strokePainted.
  by apply truthy_string_nonempty in Hne.
Qed.

Lemma resolveColor_error (v : string) (e : Error) :
  resolveColor v = Throw e -> e = InvalidColor.
Proof. apply hexToRgb_error. Qed.

(** The switch succeeds exactly on a supported type, the font being there
    for a text. *)
Lemma createBaseShape_Ok (host : Host) (c : ShapeConfig) :
  (exists n0, createBaseShape host c = Ok n0) <->
  exists k, Config.type c = kind_name k
            /\ (k = TEXT -> fontLoads host = true).
Proof.
  split.
  - intros [n0 H0]. exists (Node.kind n0).
    split; [symmetry; by eapply createBaseShape_kind|].
    intros Hk.
    pose proof (createBaseShape_kind host c n0 H0) as Hty.
    rewrite Hk in Hty. simpl in Hty.
    destruct (createBaseShape_cases host c)
      as [[Ht Hc]|[[Ht Hc]|[[Ht Hc]|[[Ht Hc]|[[Ht Hc]|[[Ht Hc]|[[Ht Hc]
          |[Ht Hc]]]]]]]]; try congruence.
    rewrite Hc in H0. by destruct (fontLoads host).
  - intros (k & Hty & Hfont).
    destruct (createBaseShape_cases host c)
      as [[Ht Hc]|[[Ht Hc]|[[Ht Hc]|[[Ht Hc]|[[Ht Hc]|[[Ht Hc]|[[Ht Hc]
          |[Ht Hc]]]]]]]]; rewrite Hc; try by eexists.
    + assert (k = TEXT) as Hk by (destruct k; simpl in Hty; congruence).
      rewrite (Hfont Hk). by eexists.
    + exfalso. apply Ht. rewrite Hty. unfold supportedType.
      rewrite !elem_of_cons. destruct k; simpl; tauto.
Qed.

Lemma kind_name_inj (k k' : NodeKind) : kind_name k = kind_name k' -> k = k'.
Proof. destruct k, k'; simpl; congruence. Qed.

(** X3.  [generateShape] succeeds exactly when the type is one of the
    seven, the font loads if the type is [text], and every value that the
    fill or stroke block paints resolves to a colour. *)
Theorem generateShape_accepts (host : Host) (c : ShapeConfig) :
  succeeds (generateShape host c) = true <->
  exists k,
    Config.type c = kind_name k
    /\ (k = TEXT -> fontLoads host = true)
    /\ (forall v, fillPainted host k c v ->
                  succeeds (resolveColor v) = true)
    /\ (forall v, strokePainted host k c v ->
                  succeeds (resolveColor v) = true).
Proof.
  split.
  - destruct (generateShape host c) as [n|] eqn:H; [intros _|done].
    apply generateShape_Ok in H as (n0 & n2 & H0 & H2 & H3).
    pose proof (createBaseShape_kind host c n0 H0) as Hty.
    pose proof (applyFill_kind host c _ _ H2) as Hk2.
    rewrite placed_kind in Hk2.
    exists (Node.kind n0). split; [done|]. split.
    { intros Hk. destruct (proj1 (createBaseShape_Ok host c)) as (k & Hk' & Hf);
        [by eexists|].
      apply Hf. apply kind_name_inj. congruence. }
    split.
    + intros v Hv. rewrite <- (placed_kind host c n0) in Hv.
      rewrite (applyFill_painted _ _ _ _ Hv) in H2.
      by destruct (resolveColor v).
    + intros v Hv. rewrite <- Hk2 in Hv.
      rewrite (applyStroke_painted _ _ _ _ Hv) in H3.
      by destruct (resolveColor v).
  - intros (k & Hty & Hfont & Hfill & Hstroke).
    destruct (proj2 (createBaseShape_Ok host c)) as [n0 H0];
      [by exists k|].
    assert (Node.kind n0 = k) as Hk.
    { apply kind_name_inj. rewrite <- Hty.
      by eapply createBaseShape_kind. }
    rewrite (generateShape_steps host c n0 H0).
    assert (exists n2, applyFill host c (placed host c n0) = Ok n2
                       /\ Node.kind n2 = k) as (n2 & H2 & Hk2).
    { destruct (fillPainted_dec host k c) as [[v Hv]|Hno].
      - specialize (Hfill v Hv).
        rewrite <- Hk, <- (placed_kind host c n0) in Hv.
        rewrite (applyFill_painted _ _ _ _ Hv).
        destruct (resolveColor v) as [rgb|]; [|done].
        eexists. split; [reflexivity|]. simpl. by rewrite placed_kind.
      - exists (placed host c n0). split; [|by rewrite placed_kind].
        apply applyFill_skipped. by rewrite placed_kind, Hk. }
    rewrite H2. simpl.
    destruct (strokePainted_dec host k c) as [[v Hv]|Hno].
    + specialize (Hstroke v Hv). rewrite <- Hk2 in Hv.
      rewrite (applyStroke_painted _ _ _ _ Hv).
      by destruct (resolveColor v).
    + rewrite applyStroke_skipped; [done|]. by rewrite Hk2.
Qed.

(** A failing paint block names the value that did not resolve. *)
Lemma applyFill_Throw (host : Host) (c : ShapeConfig) (n : SceneNode)
    (e : Error) :
  applyFill host c n = Throw e ->
  exists v, fillPainted host (Node.kind n) c v
            /\ resolveColor v = Throw InvalidColor /\ e = InvalidColor.
Proof.
  intros H.
  destruct (fillPainted_dec host (Node.kind n) c) as [[v Hv]|Hno].
  - rewrite (applyFill_painted _ _ _ _ Hv) in H.
    destruct (resolveColor v) as [rgb|e'] eqn:Hres; [done|].
    simpl in H. injection H as <-.
    pose proof (resolveColor_error _ _ Hres) as ->. by exists v.
  - by rewrite applyFill_skipped in H.
Qed.

Lemma applyStroke_Throw (host : Host) (c : ShapeConfig) (n : SceneNode)
    (e : Error) :
  applyStroke host c n = Throw e ->
  exists v, strokePainted host (Node.kind n) c v
            /\ resolveColor v = Throw InvalidColor /\ e = InvalidColor.
Proof.
  intros H.
  destruct (strokePainted_dec host (Node.kind n) c) as [[v Hv]|Hno].
  - rewrite (applyStroke_painted _ _ _ _ Hv) in H.
    destruct (resolveColor v) as [rgb|e'] eqn:Hres; [done|].
    simpl in H. injection H as <-.
    pose proof (resolveColor_error _ _ Hres) as ->. by exists v.
  - by rewrite applyStroke_skipped in H.
Qed.

(** X4.  The failures of [generateShape], in the order the code reaches
    them: an unknown type gives [UnsupportedShapeType]; a text whose font
    does not load gives [ResourceUnavailable], whatever its colours; every
    other failure is [InvalidColor] and comes from a painted fill or stroke
    value that does not resolve. *)
Theorem generateShape_errors (host : Host) (c : ShapeConfig) :
  (Config.type c = "text" -> fontLoads host = false ->
   generateShape host c = Throw ResourceUnavailable)
  /\ forall e,
       generateShape host c = Throw e ->
       match e with
       | UnsupportedShapeType => ~ supportedType (Config.type c)
       | ResourceUnavailable =>
           Config.type c = "text" /\ fontLoads host = false
       | InvalidColor =>
           exists k v,
             Config.type c = kind_name k
             /\ (fillPainted host k c v \/ strokePainted host k c v)
             /\ resolveColor v = Throw InvalidColor
       end.
Proof.
  split.
  - intros Hty Hfont. unfold generateShape.
    destruct (createBaseShape_cases host c)
      as [[Ht Hc]|[[Ht Hc]|[[Ht Hc]|[[Ht Hc]|[[Ht Hc]|[[Ht Hc]|[[Ht Hc]
          |[Ht Hc]]]]]]]]; try congruence.
    + by rewrite Hc, Hfont.
    + exfalso. apply Ht. rewrite Hty. unfold supportedType.
      rewrite !elem_of_cons. tauto.
  - intros e H.
    destruct (createBaseShape host c) as [n0|e0] eqn:H0.
    + rewrite (generateShape_steps host c n0 H0) in H.
      pose proof (createBaseShape_kind host c n0 H0) as Hty.
      destruct (applyFill host c (placed host c n0)) as [n2|e'] eqn:H2;
        simpl in H.
      * apply applyFill_kind in H2. rewrite placed_kind in H2.
        apply applyStroke_Throw in H as (v & Hv & Hres & ->).
        rewrite H2 in Hv. exists (Node.kind n0), v. by split; [|split; [right|]].
      * injection H as <-.
        apply applyFill_Throw in H2 as (v & Hv & Hres & ->).
        rewrite placed_kind in Hv.
        exists (Node.kind n0), v. by split; [|split; [left|]].
    + unfold generateShape in H. rewrite H0 in H. simpl in H.
      injection H as <-.
      destruct (createBaseShape_cases host c)
        as [[Ht Hc]|[[Ht Hc]|[[Ht Hc]|[[Ht Hc]|[[Ht Hc]|[[Ht Hc]|[[Ht Hc]
            |[Ht Hc]]]]]]]]; rewrite Hc in H0; try done.
      * destruct (fontLoads host) eqn:Hfont; [done|].
        by injection H0 as <-.
      * by injection H0 as <-.
Qed.

Lemma generateShape_errors_witness :
  generateShape fontlessHost (with_fill (Some "notacolor") (plain "text"))
  = Throw ResourceUnavailable
  /\ generateShape figma (with_stroke (Some "#12") (plain "line"))
     = Throw InvalidColor
  /\ exists k v,
       "line" = kind_name k
       /\ (fillPainted figma k (with_stroke (Some "#12") (plain "line")) v
           \/ strokePainted figma k
                (with_stroke (Some "#12") (plain "line")) v)
       /\ resolveColor v = Throw InvalidColor.
Proof.
  split.
  - apply (generateShape_errors fontlessHost); reflexivity.
  - assert (generateShape figma (with_stroke (Some "#12") (plain "line"))
            = Throw InvalidColor) as H by (vm_compute; reflexivity).
    split; [exact H|].
    exact (proj2 (generateShape_errors figma _) InvalidColor H).
Defined.

(** ** The node the factory returns *)

Lemma createBaseShape_blank (host : Host) (c : ShapeConfig)
    (n0 : SceneNode) :
  createBaseShape host c = Ok n0 ->
  Node.x n0 = None /\ Node.y n0 = None /\ Node.size n0 = None
  /\ Node.fills n0 = None /\ Node.strokes n0 = None.
Proof.
  destruct (createBaseShape_cases host c)
    as [[Ht Hc]|[[Ht Hc]|[[Ht Hc]|[[Ht Hc]|[[Ht Hc]|[[Ht Hc]|[[Ht Hc]
        |[Ht Hc]]]]]]]]; rewrite Hc; intros H;
    try (destruct (fontLoads host)); simplify_eq;
    rewrite ?(assign_if_truthy_proj Node.x),
      ?(assign_if_truthy_proj Node.y), ?(assign_if_truthy_proj Node.size),
      ?(assign_if_truthy_proj Node.fills),
      ?(assign_if_truthy_proj Node.strokes),
      ?(assign_if_truthy_string_proj Node.x),
      ?(assign_if_truthy_string_proj Node.y),
      ?(assign_if_truthy_string_proj Node.size),
      ?(assign_if_truthy_string_proj Node.fills),
      ?(assign_if_truthy_string_proj Node.strokes) by done;
    try done.
  all: by destruct (Config.cornerRadius c).
Qed.

(** What a successful fill block returns. *)
Lemma applyFill_Ok (host : Host) (c : ShapeConfig) (n n' : SceneNode) :
  applyFill host c n = Ok n' ->
  (n' = n /\ forall v, ~ fillPainted host (Node.kind n) c v)
  \/ exists v rgb,
       fillPainted host (Node.kind n) c v /\ resolveColor v = Ok rgb
       /\ n' = Node.set_fills [SOLID rgb] n.
Proof.
  intros H.
  destruct (fillPainted_dec host (Node.kind n) c) as [[v Hv]|Hno].
  - right. rewrite (applyFill_painted _ _ _ _ Hv) in H.
    destruct (resolveColor v) as [rgb|] eqn:Hres; [|done].
    simpl in H. injection H as <-. by exists v, rgb.
  - left. rewrite applyFill_skipped in H by done. by injection H as <-.
Qed.

(** What a successful stroke block returns. *)
Lemma applyStroke_Ok (host : Host) (c : ShapeConfig) (n n' : SceneNode) :
  applyStroke host c n = Ok n' ->
  (n' = n /\ forall v, ~ strokePainted host (Node.kind n) c v)
  \/ exists v rgb,
       strokePainted host (Node.kind n) c v /\ resolveColor v = Ok rgb
       /\ (n' = Node.set_strokes [SOLID rgb] n
           \/ exists w, n' = Node.set_strokeWeight w
                               (Node.set_strokes [SOLID rgb] n)).
Proof.
  intros H.
  destruct (strokePainted_dec host (Node.kind n) c) as [[v Hv]|Hno].
  - right. rewrite (applyStroke_painted _ _ _ _ Hv) in H.
    destruct (resolveColor v) as [rgb|] eqn:Hres; [|done].
    simpl in H. injection H as <-. exists v, rgb.
    split; [done|]. split; [done|].
    destruct (Config.strokeWidth c) as [w|]; [|by left].
    destruct (_ && _); [right; by exists w|by left].
  - left. rewrite applyStroke_skipped in H by done. by injection H as <-.
Qed.

(** X5.  On every node it returns, [generateShape] has written the
    position of the configuration, and the size exactly when the node has
    [resize]. *)
Theorem generateShape_geometry (host : Host) (c : ShapeConfig)
    (n : SceneNode) :
  generateShape host c = Ok n ->
  Node.x n = Some (Config.x c) /\ Node.y n = Some (Config.y c)
  /\ Node.size n
     = if has host "resize" (Node.kind n)
       then Some (Config.width c, Config.height c)
       else None.
Proof.
  intros H. pose proof H as (n0 & n2 & H0 & H2 & H3)%generateShape_Ok.
  destruct (createBaseShape_blank host c n0 H0) as (_ & _ & Hsize & _).
  pose proof (applyFill_kind host c _ _ H2) as Hk2.
  pose proof (applyStroke_kind host c _ _ H3) as Hk3.
  rewrite placed_kind in Hk2.
  assert (Node.x (placed host c n0) = Some (Config.x c)
          /\ Node.y (placed host c n0) = Some (Config.y c)
          /\ Node.size (placed host c n0)
             = if has host "resize" (Node.kind n)
               then Some (Config.width c, Config.height c) else None)
    as Hplaced.
  { rewrite Hk3, Hk2. unfold placed. simpl.
    by destruct (has host "resize" (Node.kind n0)). }
  assert (Node.x n2 = Node.x (placed host c n0)
          /\ Node.y n2 = Node.y (placed host c n0)
          /\ Node.size n2 = Node.size (placed host c n0)) as Hfill.
  { apply applyFill_Ok in H2 as [[-> _]|(v & rgb & _ & _ & ->)]; done. }
  assert (Node.x n = Node.x n2 /\ Node.y n = Node.y n2
          /\ Node.size n = Node.size n2) as Hstroke.
  { apply applyStroke_Ok in H3
      as [[-> _]|(v & rgb & _ & _ & [->|[w ->]])]; done. }
  destruct Hplaced as (? & ? & ?), Hfill as (? & ? & ?),
    Hstroke as (? & ? & ?).
  repeat split; congruence.
Qed.

Lemma generateShape_geometry_witness :
  generateShape bareHost (plain "text")
  = Ok (Node.set_y 0%Q (Node.set_x 0%Q (Node.create TEXT)))
  /\ Node.size (Node.set_y 0%Q (Node.set_x 0%Q (Node.create TEXT))) = None
  /\ Node.size blueRectangle = Some (100%Q, 50%Q).
Proof.
  assert (generateShape bareHost (plain "text")
          = Ok (Node.set_y 0%Q (Node.set_x 0%Q (Node.create TEXT)))) as H
    by (vm_compute; reflexivity).
  assert (generateShape figma (with_fill (Some "blue") (plain "rectangle"))
          = Ok blueRectangle) as H' by (vm_compute; reflexivity).
  split; [exact H|]. split.
  - exact (proj2 (proj2 (generateShape_geometry bareHost _ _ H))).
  - exact (proj2 (proj2 (generateShape_geometry figma _ _ H'))).
Defined.

Lemma resolveColor_unit (v : string) (rgb : RGB) :
  resolveColor v = Ok rgb -> unitRgb rgb.
Proof.
  unfold resolveColor. intros H.
  destruct (normalizeColor v) as [hex|key]; [|discriminate H].
  assert (specHexColor hex) as Hs
    by (apply hexToRgb_domain; by rewrite H).
  destruct (hexToRgb_specRgb _ Hs) as (rgb' & _ & Hrgb & Hr & Hg & Hb).
  assert (rgb' = rgb) as -> by congruence.
  repeat split; by apply channel_unit.
Qed.

(** X6.  The paint on a returned node: [fills] is written exactly when the
    fill block paints a value, [strokes] exactly when the stroke block
    does, and what is written is one solid paint of the triple the value
    resolves to, with its channels in [0, 1]. *)
Theorem generateShape_paints (host : Host) (c : ShapeConfig)
    (n : SceneNode) :
  generateShape host c = Ok n ->
  (forall paints,
     Node.fills n = Some paints <->
     exists v rgb,
       fillPainted host (Node.kind n) c v /\ resolveColor v = Ok rgb
       /\ unitRgb rgb /\ paints = [SOLID rgb])
  /\ (forall paints,
        Node.strokes n = Some paints <->
        exists v rgb,
          strokePainted host (Node.kind n) c v /\ resolveColor v = Ok rgb
          /\ unitRgb rgb /\ paints = [SOLID rgb]).
Proof.
  intros H. pose proof H as (n0 & n2 & H0 & H2 & H3)%generateShape_Ok.
  destruct (createBaseShape_blank host c n0 H0) as (_ & _ & _ & Hf0 & Hs0).
  pose proof (applyFill_kind host c _ _ H2) as Hk2.
  pose proof (applyStroke_kind host c _ _ H3) as Hk3.
  assert (Node.fills (placed host c n0) = None
          /\ Node.strokes (placed host c n0) = None) as [Hf1 Hs1].
  { unfold placed. simpl. by destruct (has host "resize" (Node.kind n0)). }
  rewrite Hk3.
  assert (forall host' k v v', fillPainted host' k c v ->
            fillPainted host' k c v' -> v = v') as Hfun.
  { intros ???? [? _] [? _]. congruence. }
  assert (forall host' k v v', strokePainted host' k c v ->
            strokePainted host' k c v' -> v = v') as Hfun'.
  { intros ???? [? _] [? _]. congruence. }
  split.
  - intros paints.
    assert (Node.fills n = Node.fills n2) as ->.
    { apply applyStroke_Ok in H3
        as [[-> _]|(v & rgb & _ & _ & [->|[w ->]])]; done. }
    rewrite Hk2.
    apply applyFill_Ok in H2 as [[-> Hno]|(v & rgb & Hv & Hres & ->)].
    + rewrite Hf1. split; [done|]. intros (v & rgb & Hv & _).
      by apply Hno in Hv.
    + simpl. split.
      * intros [= <-]. exists v, rgb.
        split; [done|]. split; [done|].
        split; [by eapply resolveColor_unit|done].
      * intros (v' & rgb' & Hv' & Hres' & _ & ->).
        rewrite (Hfun _ _ _ _ Hv' Hv) in Hres'. congruence.
  - intros paints.
    assert (Node.strokes n2 = None) as Hs2.
    { apply applyFill_Ok in H2 as [[-> _]|(v & rgb & _ & _ & ->)]; done. }
    apply applyStroke_Ok in H3
      as [[-> Hno]|(v & rgb & Hv & Hres & Hn)].
    + rewrite Hs2. split; [done|]. intros (v & rgb & Hv & _).
      by apply Hno in Hv.
    + assert (Node.strokes n = Some [SOLID rgb]) as ->
        by (destruct Hn as [->|[w ->]]; done).
      split.
      * intros [= <-]. exists v, rgb.
        split; [done|]. split; [done|].
        split; [by eapply resolveColor_unit|done].
      * intros (v' & rgb' & Hv' & Hres' & _ & ->).
        rewrite (Hfun' _ _ _ _ Hv' Hv) in Hres'. congruence.
Qed.

Lemma generateShape_paints_witness :
  generateShape figma outlinedRectangle = Ok outlinedRectangleNode
  /\ Node.fills outlinedRectangleNode = None
  /\ exists v rgb,
       strokePainted figma RECTANGLE outlinedRectangle v
       /\ resolveColor v = Ok rgb /\ unitRgb rgb
       /\ [SOLID {| r := div255 0; g := div255 0; b := div255 0 |}]
          = [SOLID rgb].
Proof.
  assert (generateShape figma outlinedRectangle = Ok outlinedRectangleNode)
    as H by (vm_compute; reflexivity).
  split; [exact H|]. split; [reflexivity|].
  destruct (generateShape_paints figma _ _ H) as [_ Hstrokes].
  apply (Hstrokes [SOLID {| r := div255 0; g := div255 0; b := div255 0 |}]).
  reflexivity.
Defined.

(** ** Fields that belong to one type *)

(** [generateShape] reads the configuration through these fields only. *)
Lemma generateShape_cong (host : Host) (c1 c2 : ShapeConfig) :
  createBaseShape host c1 = createBaseShape host c2 ->
  Config.x c1 = Config.x c2 -> Config.y c1 = Config.y c2 ->
  Config.width c1 = Config.width c2 ->
  Config.height c1 = Config.height c2 ->
  Config.fill c1 = Config.fill c2 -> Config.stroke c1 = Config.stroke c2 ->
  Config.strokeWidth c1 = Config.strokeWidth c2 ->
  generateShape host c1 = generateShape host c2.
Proof.
  intros Hb Hx Hy Hw Hh Hf Hs Hsw.
  unfold generateShape, applyFill, applyStroke.
  by rewrite Hb, Hx, Hy, Hw, Hh, Hf, Hs, Hsw.
Qed.

(** X7.  A field that belongs to another type is ignored, never rejected:
    [pointCount] and [innerRadius] matter to a star only,
    [polygonPointCount] to a polygon, [text] and [fontSize] to a text,
    [cornerRadius] to a rectangle; [zIndex] matters to no shape. *)
Theorem foreign_fields_ignored (host : Host) (c : ShapeConfig) :
  (Config.type c <> "star" ->
   forall v, generateShape host (with_pointCount v c) = generateShape host c
             /\ generateShape host (with_innerRadius v c)
                = generateShape host c)
  /\ (Config.type c <> "polygon" ->
      forall v, generateShape host (with_polygonPointCount v c)
                = generateShape host c)
  /\ (Config.type c <> "text" ->
      forall v t, generateShape host (with_fontSize v c)
                  = generateShape host c
                  /\ generateShape host (with_text t c)
                     = generateShape host c)
  /\ (Config.type c <> "rectangle" ->
      forall v, generateShape host (with_cornerRadius v c)
                = generateShape host c)
  /\ (forall v, generateShape host (with_zIndex v c) = generateShape host c).
Proof.
  split; [|split; [|split; [|split]]].
  - intros Hne%seq_false v.
    split; apply generateShape_cong; try done;
      unfold createBaseShape; simpl; by rewrite Hne.
  - intros Hne%seq_false v.
    apply generateShape_cong; try done.
    unfold createBaseShape; simpl; by rewrite Hne.
  - intros Hne%seq_false v t.
    split; apply generateShape_cong; try done;
      unfold createBaseShape; simpl; by rewrite Hne.
  - intros Hne%seq_false v.
    apply generateShape_cong; try done.
    unfold createBaseShape; simpl; by rewrite Hne.
  - intros v. by apply generateShape_cong.
Qed.

Lemma foreign_fields_ignored_witness :
  generateShape figma (with_pointCount (Some 5%Q) (plain "rectangle"))
  = generateShape figma (plain "rectangle")
  /\ generateShape figma (with_cornerRadius (Some 8%Q) (plain "ellipse"))
     = generateShape figma (plain "ellipse").
Proof.
  destruct (foreign_fields_ignored figma (plain "rectangle"))
    as (Hstar & _).
  destruct (foreign_fields_ignored figma (plain "ellipse"))
    as (_ & _ & _ & Hrect & _).
  split.
  - apply Hstar. discriminate.
  - apply Hrect. discriminate.
Defined.

(** The paint blocks leave the fields of the switch alone. *)
Lemma generateShape_base_fields (host : Host) (c : ShapeConfig)
    (n : SceneNode) :
  generateShape host c = Ok n ->
  exists n0,
    createBaseShape host c = Ok n0
    /\ Node.pointCount n = Node.pointCount n0
    /\ Node.innerRadius n = Node.innerRadius n0
    /\ Node.characters n = Node.characters n0
    /\ Node.fontSize n = Node.fontSize n0.
Proof.
  intros (n0 & n2 & H0 & H2 & H3)%generateShape_Ok.
  exists n0. split; [done|].
  assert (Node.pointCount (placed host c n0) = Node.pointCount n0
          /\ Node.innerRadius (placed host c n0) = Node.innerRadius n0
          /\ Node.characters (placed host c n0) = Node.characters n0
          /\ Node.fontSize (placed host c n0) = Node.fontSize n0)
    as (? & ? & ? & ?).
  { unfold placed. simpl. by destruct (has host "resize" (Node.kind n0)). }
  assert (Node.pointCount n2 = Node.pointCount (placed host c n0)
          /\ Node.innerRadius n2 = Node.innerRadius (placed host c n0)
          /\ Node.characters n2 = Node.characters (placed host c n0)
          /\ Node.fontSize n2 = Node.fontSize (placed host c n0))
    as (? & ? & ? & ?).
  { apply applyFill_Ok in H2 as [[-> _]|(v & rgb & _ & _ & ->)]; done. }
  assert (Node.pointCount n = Node.pointCount n2
          /\ Node.innerRadius n = Node.innerRadius n2
          /\ Node.characters n = Node.characters n2
          /\ Node.fontSize n = Node.fontSize n2) as (? & ? & ? & ?).
  { apply applyStroke_Ok in H3
      as [[-> _]|(v & rgb & _ & _ & [->|[w ->]])]; done. }
  repeat split; congruence.
Qed.

Lemma assign_if_truthy_value (proj : SceneNode -> option JS.number)
    (v : option JS.number) set node :
  (forall q m, proj (set q m) = Some q) ->
  proj node = None ->
  forall q, proj (assign_if_truthy v set node) = Some q <->
            v = Some q /\ JS.truthy q = true.
Proof.
  intros Hset Hnone q. unfold assign_if_truthy.
  destruct v as [q'|]; [|rewrite Hnone; split; [done|by intros [[=] _]]].
  destruct (JS.truthy q') eqn:Hq.
  - rewrite Hset. split; [by intros [= <-]|by intros [[= <-] _]].
  - rewrite Hnone. split; [done|]. intros [[= <-] ?]. congruence.
Qed.

(** X8.  The fields of one type on a returned node: [pointCount] is the
    star's [pointCount] or the polygon's [polygonPointCount], [innerRadius]
    the star's, [characters] and [fontSize] the text's, each written
    exactly when the configuration gives it a truthy value (a number other
    than 0, a string other than the empty one). *)
Theorem shape_specific_fields (host : Host) (c : ShapeConfig)
    (n : SceneNode) :
  generateShape host c = Ok n ->
  (forall q,
     Node.pointCount n = Some q <->
     JS.truthy q = true
     /\ (Config.type c = "star" /\ Config.pointCount c = Some q
         \/ Config.type c = "polygon"
            /\ Config.polygonPointCount c = Some q))
  /\ (forall q,
        Node.innerRadius n = Some q <->
        Config.type c = "star" /\ Config.innerRadius c = Some q
        /\ JS.truthy q = true)
  /\ (forall t,
        Node.characters n = Some t <->
        Config.type c = "text" /\ Config.text c = Some t /\ t <> "")
  /\ (forall q,
        Node.fontSize n = Some q <->
        Config.type c = "text" /\ Config.fontSize c = Some q
        /\ JS.truthy q = true).
Proof.
  intros (n0 & H0 & -> & -> & -> & ->)%generateShape_base_fields.
  destruct (createBaseShape_cases host c)
    as [[Ht Hc]|[[Ht Hc]|[[Ht Hc]|[[Ht Hc]|[[Ht Hc]|[[Ht Hc]|[[Ht Hc]
        |[Ht Hc]]]]]]]]; rewrite Hc in H0; rewrite ?Ht;
    try (destruct (fontLoads host); [|done]); simplify_eq H0; intros <-.
  - (* rectangle *)
    destruct (Config.cornerRadius c); simpl;
      (split; [|split; [|split]]); intros ?;
      (split; [done|]); intros; destruct_and?; destruct_or?;
      destruct_and?; done.
  - (* ellipse *)
    simpl. (split; [|split; [|split]]); intros ?;
      (split; [done|]); intros; destruct_and?; destruct_or?;
      destruct_and?; done.
  - (* star *)
    split; [|split; [|split]].
    + intros q.
      rewrite (assign_if_truthy_proj Node.pointCount) by done.
      rewrite (assign_if_truthy_value Node.pointCount) by done.
      split; [intros [? ?]; split; [done|by left]|].
      intros [? [[_ ?]|[? _]]]; done.
    + intros q.
      rewrite (assign_if_truthy_value Node.innerRadius).
      * split; [by intros [? ?]|by intros (_ & ? & ?)].
      * done.
      * by rewrite (assign_if_truthy_proj Node.innerRadius).
    + intros t.
      rewrite !(assign_if_truthy_proj Node.characters) by done. simpl.
      split; [done|by intros [? _]].
    + intros q.
      rewrite !(assign_if_truthy_proj Node.fontSize) by done. simpl.
      split; [done|by intros [? _]].
  - (* polygon *)
    split; [|split; [|split]].
    + intros q.
      rewrite (assign_if_truthy_value Node.pointCount) by done.
      split; [intros [? ?]; split; [done|by right]|].
      intros [? [[? _]|[_ ?]]]; done.
    + intros q.
      rewrite !(assign_if_truthy_proj Node.innerRadius) by done. simpl.
      split; [done|by intros [? _]].
    + intros t.
      rewrite !(assign_if_truthy_proj Node.characters) by done. simpl.
      split; [done|by intros [? _]].
    + intros q.
      rewrite !(assign_if_truthy_proj Node.fontSize) by done. simpl.
      split; [done|by intros [? _]].
  - (* line *)
    simpl. (split; [|split; [|split]]); intros ?;
      (split; [done|]); intros; destruct_and?; destruct_or?;
      destruct_and?; done.
  - (* frame *)
    simpl. (split; [|split; [|split]]); intros ?;
      (split; [done|]); intros; destruct_and?; destruct_or?;
      destruct_and?; done.
  - (* text *)
    split; [|split; [|split]].
    + intros q.
      rewrite (assign_if_truthy_proj Node.pointCount),
        (assign_if_truthy_string_proj Node.pointCount) by done. simpl.
      split; [done|]. intros [_ [[? _]|[? _]]]; done.
    + intros q.
      rewrite (assign_if_truthy_proj Node.innerRadius),
        (assign_if_truthy_string_proj Node.innerRadius) by done. simpl.
      split; [done|by intros [? _]].
    + intros t.
      rewrite (assign_if_truthy_proj Node.characters) by done.
      unfold assign_if_truthy_string.
      destruct (Config.text c) as [t'|]; simpl;
        [|split; [done|by intros (_ & [=] & _)]].
      destruct (JS.truthy_string t') eqn:Ht'; simpl.
      * apply truthy_string_nonempty in Ht'.
        split; [by intros [= <-]|by intros (_ & [= <-] & _)].
      * split; [done|]. intros (_ & [= <-] & Hne).
        apply truthy_string_nonempty in Hne. congruence.
    + intros q.
      rewrite (assign_if_truthy_value Node.fontSize).
      * split; [by intros [? ?]|by intros (_ & ? & ?)].
      * done.
      * by rewrite (assign_if_truthy_string_proj Node.fontSize).
Qed.

Lemma shape_specific_fields_witness :
  exists n,
    generateShape figma starConfig = Ok n
    /\ Node.pointCount n = Some 7%Q
    /\ Node.innerRadius n = Some (6 # 10)%Q
    /\ Node.characters n = None.
Proof.
  assert (exists n, generateShape figma starConfig = Ok n) as [n H]
    by (eexists; vm_compute; reflexivity).
  exists n. split; [exact H|].
  destruct (shape_specific_fields figma starConfig n H)
    as (Hpoint & Hinner & Hchars & _).
  split; [|split].
  - apply Hpoint. split; [reflexivity|]. left. split; reflexivity.
  - apply Hinner. split; [reflexivity|]. split; reflexivity.
  - destruct (Node.characters n) as [t|]; [|reflexivity].
    destruct (proj1 (Hchars t) eq_refl) as [Hty _]. discriminate Hty.
Defined.

(** ** The order of a batch and its outcome *)

Lemma mapM_succeeds {A B : Type} (f : A -> result B) (l : list A) :
  succeeds (mapM f l) = true <-> Forall (fun a => succeeds (f a) = true) l.
Proof.
  induction l as [|a l IH]; simpl; [by split; [constructor|]|].
  destruct (f a) as [b|e] eqn:Ha; simpl.
  - destruct (mapM f l) as [k|e]; simpl.
    + split; [|done]. intros _. constructor; [by rewrite Ha|by apply IH].
    + split; [done|]. intros [_ Hl]%Forall_cons. by apply IH in Hl.
  - split; [done|]. intros [Hf _]%Forall_cons. by rewrite Ha in Hf.
Qed.

(** The value behind a successful outcome (any node otherwise). *)
Lemma mapM_Ok_map {A B : Type} (f : A -> result B) (d : B) (l : list A)
    (k : list B) :
  mapM f l = Ok k ->
  k = map (fun a => match f a with Ok b => b | Throw _ => d end) l.
Proof.
  intros H%mapM_Ok. induction H as [|a b l k Ha _ IH]; [done|].
  simpl. by rewrite Ha, IH.
Qed.

(** X9.  Whether a batch succeeds does not depend on the order of its
    entries, and neither does what it produces, up to order: two batches
    with the same entries succeed together, with the same nodes. *)
Theorem generateShapes_order_independent (host : Host)
    (config config' : MultiShapeConfig) :
  shapes config ≡ₚ shapes config' ->
  succeeds (generateShapes host config)
  = succeeds (generateShapes host config')
  /\ forall nodes nodes',
       generateShapes host config = Ok nodes ->
       generateShapes host config' = Ok nodes' ->
       nodes ≡ₚ nodes'.
Proof.
  intros Hperm.
  assert (sortedShapes config ≡ₚ sortedShapes config') as Hsorted.
  { unfold sortedShapes. by rewrite !Array_sort_perm. }
  rewrite !generateShapes_mapM. split.
  - apply Bool.eq_iff_eq_true. rewrite !mapM_succeeds. by rewrite Hsorted.
  - intros nodes nodes'
      H%(mapM_Ok_map _ (Node.create RECTANGLE))
      H'%(mapM_Ok_map _ (Node.create RECTANGLE)).
    rewrite H, H'. by apply Permutation_map.
Qed.

Lemma generateShapes_order_independent_witness :
  shapes scenario2 ≡ₚ reverse (shapes scenario2)
  /\ succeeds (generateShapes figma {| shapes := reverse (shapes scenario2) |})
     = true.
Proof.
  assert (shapes scenario2 ≡ₚ reverse (shapes scenario2)) as Hperm
    by (symmetry; apply reverse_Permutation).
  split; [exact Hperm|].
  destruct (generateShapes_order_independent figma scenario2
              {| shapes := reverse (shapes scenario2) |} Hperm) as [Hs _].
  rewrite <- Hs. vm_compute. reflexivity.
Defined.

(** X10.  A batch that is already in ascending order of layer index is
    processed in the order given. *)
Theorem sorted_batch_kept (host : Host) (config : MultiShapeConfig) :
  StronglySorted (fun a b => (layerIndex a <= layerIndex b)%Q)
    (shapes config) ->
  sortedShapes config = shapes config
  /\ generateShapes host config = mapM (generateShape host) (shapes config).
Proof.
  intros Hsorted.
  assert (sortedShapes config = shapes config) as Heq.
  { symmetry.
    by apply (Array_sort_unique compareZ layerIndex compareZ_le). }
  split; [done|]. by rewrite generateShapes_mapM, Heq.
Qed.

Lemma sorted_batch_kept_witness :
  sortedShapes scenario3 = shapes scenario3.
Proof.
  apply (sorted_batch_kept figma scenario3).
  repeat constructor; vm_compute; discriminate.
Defined.

Lemma filter_at_most_one_perm {A : Type} (P : A -> Prop)
    `{!forall a, Decision (P a)} (l l' : list A) :
  l ≡ₚ l' -> length (filter P l) <= 1 -> filter P l = filter P l'.
Proof.
  intros Hperm Hlen.
  assert (filter P l ≡ₚ filter P l') as Hf by (by rewrite Hperm).
  destruct (filter P l) as [|a [|]]; simpl in Hlen; [| |lia].
  - by apply Permutation_nil_l in Hf.
  - by apply Permutation_singleton_l in Hf.
Qed.

(** X11.  When no two entries share a layer, the order of the batch does
    not matter at all: two batches with the same entries are processed in
    the same order and give the same outcome. *)
Theorem distinct_layers_order_free (host : Host)
    (config config' : MultiShapeConfig) :
  shapes config ≡ₚ shapes config' ->
  (forall z, length (filter (onLayer z) (shapes config)) <= 1) ->
  sortedShapes config = sortedShapes config'
  /\ generateShapes host config = generateShapes host config'.
Proof.
  intros Hperm Hone.
  assert (sortedShapes config = sortedShapes config') as Heq.
  { apply (Array_sort_unique compareZ layerIndex compareZ_le).
    - apply Array_sort_sorted, compareZ_le.
    - intros z. change (fun a => (layerIndex a == z)%Q) with (onLayer z).
      unfold sortedShapes. rewrite Array_sort_filter.
      + by apply filter_at_most_one_perm.
      + intros a b Ha Hb. rewrite compareZ_le. apply Qle_bool_iff.
        unfold onLayer in *. rewrite Ha, Hb. apply Qle_refl. }
  split; [done|]. by rewrite !generateShapes_mapM, Heq.
Qed.

Lemma distinct_layers_order_free_witness :
  generateShapes figma scenario2
  = generateShapes figma {| shapes := reverse (shapes scenario2) |}.
Proof.
  apply (distinct_layers_order_free figma scenario2
           {| shapes := reverse (shapes scenario2) |}).
  - symmetry. apply reverse_Permutation.
  - intros z. simpl. rewrite !filter_cons, filter_nil.
    destruct (decide (onLayer z _)) as [H1|H1],
      (decide (onLayer z _)) as [H2|H2]; simpl; try lia.
    unfold onLayer in H1, H2. simpl in H1, H2.
    rewrite <- H2 in H1. discriminate H1.
Defined.

(** ** The message handler, message by message *)

Lemma fold_appendChild (nodes : list SceneNode) (st : Figma.State) :
  fold_left (fun st node => Figma.appendChild node st) nodes st
  = {| Figma.children := Figma.children st ++ nodes;
       Figma.selection := Figma.selection st;
       Figma.viewport := Figma.viewport st;
       Figma.closed := Figma.closed st |}.
Proof.
  revert st. induction nodes as [|n nodes IH]; intros st; simpl.
  - rewrite app_nil_r. by destruct st.
  - rewrite IH. simpl. by rewrite <- app_assoc.
Qed.

Lemma showNodes_shown (nodes : list SceneNode) (st : Figma.State) :
  showNodes nodes st = (Ok tt, shown nodes st).
Proof. unfold showNodes, exec. by rewrite fold_appendChild. Qed.

Lemma showNode_shown (node : SceneNode) (st : Figma.State) :
  showNode node st = (Ok tt, shown [node] st).
Proof. done. Qed.

(** Evaluate the tests [s === t] on two literals. *)
Ltac seq_eval :=
  repeat match goal with
         | |- context [JS.seq ?a ?b] =>
             let r := eval vm_compute in (JS.seq a b) in
             change (JS.seq a b) with r
         end.

(** What the handler does, by the type of the message. *)
Lemma onmessage_cases (host : Host) (msg : Message) (st : Figma.State) :
  (Msg.type msg = "create-star"
   /\ onmessage host msg st
      = match generateShape host starConfig with
        | Ok star => (Ok tt, Figma.closePlugin (shown [star] st))
        | Throw e => (Throw e, st)
        end)
  \/ (Msg.type msg = "create-shape-from-json"
      /\ onmessage host msg st
         = match Msg.config msg with
           | Some (Multi config) =>
               match generateShapes host config with
               | Ok nodes => (Ok tt, shown nodes st)
               | Throw e => (Throw e, st)
               end
           | Some (Single config) =>
               match generateShape host config with
               | Ok node => (Ok tt, shown [node] st)
               | Throw e => (Throw e, st)
               end
           | None => (Ok tt, st)
           end)
  \/ (Msg.type msg = "create-shapes"
      /\ onmessage host msg st
         = (Ok tt,
            Figma.closePlugin
              (shown (map createRect (upto (Msg.count msg))) st)))
  \/ (Msg.type msg <> "create-star"
      /\ Msg.type msg <> "create-shape-from-json"
      /\ Msg.type msg <> "create-shapes"
      /\ onmessage host msg st = (Ok tt, Figma.closePlugin st)).
Proof.
  destruct msg as [type count config].
  cbn [Msg.type Msg.count Msg.config].
  destruct (decide (type = "create-star")) as [->|Hstar].
  { left. split; [done|].
    unfold onmessage. cbn [Msg.type Msg.count Msg.config]. seq_eval.
    unfold onCreateStar. unfold hseq, hbind, when, hret, await, exec.
    cbv beta iota zeta delta [negb].
    destruct (generateShape host starConfig) as [star|e];
      cbv beta iota zeta delta [negb]; [|done].
    rewrite showNode_shown. cbv beta iota zeta delta [negb].
    by destruct config. }
  destruct (decide (type = "create-shape-from-json")) as [->|Hjson].
  { right. left. split; [done|].
    unfold onmessage. cbn [Msg.type Msg.count Msg.config]. seq_eval.
    unfold onCreateShapeFromJson.
    unfold hseq, hbind, when, hret, await.
    cbv beta iota zeta delta [negb].
    destruct config as [[config|config]|]; [| |done].
    - destruct (generateShape host config) as [node|e];
        cbv beta iota zeta delta [negb]; [|done].
      by rewrite showNode_shown.
    - destruct (generateShapes host config) as [nodes|e];
        cbv beta iota zeta delta [negb]; [|done].
      by rewrite showNodes_shown. }
  destruct (decide (type = "create-shapes")) as [->|Hshapes].
  { right. right. left. split; [done|].
    unfold onmessage. cbn [Msg.type Msg.count Msg.config]. seq_eval.
    unfold onCreateShapes. unfold hseq, hbind, when, hret, exec.
    destruct config; cbv beta iota zeta delta [negb];
      by rewrite fold_appendChild. }
  right. right. right. repeat split; try done.
  unfold onmessage. cbn [Msg.type Msg.count Msg.config].
  apply seq_false in Hstar, Hjson, Hshapes.
  rewrite Hstar, Hjson, Hshapes.
  unfold hseq, hbind, when, hret, exec. by destruct config.
Qed.

(** X13.  The handler closes the plugin exactly when it ends normally on a
    message whose type is not [create-shape-from-json]; a message of a type
    it does not know does nothing else, and a JSON message without a
    configuration does nothing at all. *)
Theorem onmessage_closes (host : Host) (msg : Message) (st : Figma.State) :
  Figma.closed (onmessage host msg st).2
  = Figma.closed st
    || (succeeds (onmessage host msg st).1
        && negb (JS.seq (Msg.type msg) "create-shape-from-json"))
  /\ (Msg.type msg <> "create-star" ->
      Msg.type msg <> "create-shape-from-json" ->
      Msg.type msg <> "create-shapes" ->
      onmessage host msg st = (Ok tt, Figma.closePlugin st))
  /\ (Msg.type msg = "create-shape-from-json" -> Msg.config msg = None ->
      onmessage host msg st = (Ok tt, st)).
Proof.
  destruct (onmessage_cases host msg st)
    as [[Ht ->]|[[Ht ->]|[[Ht ->]|(H1 & H2 & H3 & ->)]]].
  - rewrite Ht. split; [|split; [done|by intros [=]]].
    destruct (generateShape host starConfig); simpl;
      [|by destruct (Figma.closed st)].
    by rewrite orb_true_r.
  - rewrite Ht. split; [|split; [done|by intros _ ->]].
    destruct (Msg.config msg) as [[config|config]|]; simpl.
    + destruct (generateShape host config); simpl;
        by destruct (Figma.closed st).
    + destruct (generateShapes host config); simpl;
        by destruct (Figma.closed st).
    + by destruct (Figma.closed st).
  - rewrite Ht. split; [|split; [done|by intros [=]]].
    simpl. by rewrite orb_true_r.
  - split; [|split; [done|done]].
    apply seq_false in H2. rewrite H2. simpl. by rewrite orb_true_r.
Qed.

Lemma onmessage_closes_witness :
  onmessage figma
    {| Msg.type := "resize"; Msg.count := 3%Q; Msg.config := None |}
    Figma.initial
  = (Ok tt, Figma.closePlugin Figma.initial).
Proof.
  apply (onmessage_closes figma); discriminate.
Defined.

(** X14.  When the handler ends normally it has only appended to the page:
    the children it found stay where they are, in their order, followed by
    the nodes it created.  On a [create-star] message, a [create-shapes]
    message and a [create-shape-from-json] message with a configuration,
    the selection and the viewport are then exactly the nodes it appended,
    in the order it appended them, also when there are none (a count of 0
    or less, an empty batch): the selection is emptied then.  On any other
    message nothing is appended, and the selection and the viewport are as
    they were. *)
Theorem onmessage_appends (host : Host) (msg : Message) (st : Figma.State) :
  succeeds (onmessage host msg st).1 = true ->
  exists added,
    Figma.children (onmessage host msg st).2 = Figma.children st ++ added
    /\ (Msg.type msg = "create-star" \/ Msg.type msg = "create-shapes"
        \/ (Msg.type msg = "create-shape-from-json"
            /\ is_Some (Msg.config msg)) ->
        Figma.selection (onmessage host msg st).2 = added
        /\ Figma.viewport (onmessage host msg st).2 = Some added)
    /\ (Msg.type msg <> "create-star" -> Msg.type msg <> "create-shapes" ->
        (Msg.type msg = "create-shape-from-json" -> Msg.config msg = None) ->
        added = []
        /\ Figma.selection (onmessage host msg st).2 = Figma.selection st
        /\ Figma.viewport (onmessage host msg st).2 = Figma.viewport st).
Proof.
  destruct (onmessage_cases host msg st)
    as [[Ht ->]|[[Ht ->]|[[Ht ->]|(H1 & H2 & H3 & ->)]]].
  - destruct (generateShape host starConfig) as [star|]; [|done].
    intros _. exists [star]. split; [done|]. split; [done|]. congruence.
  - destruct (Msg.config msg) as [[config|config]|] eqn:Hconfig.
    + destruct (generateShape host config) as [node|]; [|done].
      intros _. exists [node]. split; [done|]. split; [done|].
      intros _ _ Hnone. by specialize (Hnone Ht).
    + destruct (generateShapes host config) as [nodes|]; [|done].
      intros _. exists nodes. split; [done|]. split; [done|].
      intros _ _ Hnone. by specialize (Hnone Ht).
    + intros _. exists []. split; [by rewrite app_nil_r|]. split; [|done].
      intros [H|[H|[_ [? [=]]]]]; rewrite Ht in H; discriminate H.
  - intros _. eexists. split; [reflexivity|]. split; [done|]. congruence.
  - intros _. exists []. split; [by rewrite app_nil_r|]. split; [|done].
    intros [H|[H|[H _]]]; congruence.
Qed.

Lemma onmessage_appends_witness :
  Figma.selection
    (onmessage figma
       {| Msg.type := "create-shapes"; Msg.count := 0%Q;
          Msg.config := None |}
       (shown [blueRectangle] Figma.initial)).2 = []
  /\ Figma.children
       (onmessage figma
          {| Msg.type := "create-shapes"; Msg.count := 0%Q;
             Msg.config := None |}
          (shown [blueRectangle] Figma.initial)).2 = [blueRectangle].
Proof.
  destruct (onmessage_appends figma
              {| Msg.type := "create-shapes"; Msg.count := 0%Q;
                 Msg.config := None |}
              (shown [blueRectangle] Figma.initial) eq_refl)
    as (added & Hchildren & Hshown & _).
  destruct Hshown as [Hsel _]; [right; by left|].
  assert (added = []) as ->.
  { rewrite <- Hsel. vm_compute. reflexivity. }
  split; [exact Hsel|]. rewrite Hchildren. reflexivity.
Defined.

(** X15.  A batch that succeeds is shown in its sorted order: the handler
    appends the nodes to the page in the order [generateShapes] returns
    them (lowest layer first), selects them, and leaves the plugin
    open. *)
Theorem onmessage_batch_shown (host : Host) (config : MultiShapeConfig)
    (nodes : list SceneNode) (st : Figma.State) :
  generateShapes host config = Ok nodes ->
  onmessage host (fromJson (Multi config)) st = (Ok tt, shown nodes st)
  /\ Forall2 (fun c n => generateShape host c = Ok n)
       (sortedShapes config) nodes.
Proof.
  intros H. split.
  - destruct (onmessage_cases host (fromJson (Multi config)) st)
      as [[[=] _]|[[_ ->]|[[[=] _]|(_ & ? & _)]]]; [|done].
    simpl. by rewrite H.
  - apply mapM_Ok. by rewrite <- generateShapes_mapM.
Qed.

Lemma onmessage_batch_shown_witness :
  onmessage figma (fromJson (Multi scenario2)) Figma.initial
  = (Ok tt, shown scenario2_nodes Figma.initial).
Proof.
  assert (generateShapes figma scenario2 = Ok scenario2_nodes) as H
    by (vm_compute; reflexivity).
  apply (onmessage_batch_shown figma scenario2 scenario2_nodes _ H).
Defined.



(** * The URL helpers *)

Lemma string_app_cons (c : ascii) (s t : string) :
  String c s +:+ t = String c (s +:+ t).
Proof. done. Qed.

Lemma string_app_nil_l (t : string) : "" +:+ t = t.
Proof. done. Qed.

Lemma string_app_nil_r (s : string) : s +:+ "" = s.
Proof.
  induction s as [|c s IH]; [done|]. by rewrite string_app_cons, IH.
Qed.

Lemma takeWhile_dropWhile (class : ascii -> bool) (s : string) :
  s = Url.takeWhile class s +:+ Url.dropWhile class s.
Proof.
  induction s as [|c s IH]; simpl; [done|].
  destruct (class c); [|done]. rewrite string_app_cons. by f_equal.
Qed.

Lemma takeWhile_all (class : ascii -> bool) (s : string) :
  Url.all class (Url.takeWhile class s) = true.
Proof.
  induction s as [|c s IH]; simpl; [done|].
  destruct (class c) eqn:Hc; simpl; [by rewrite Hc|done].
Qed.

Lemma literal_Some (p s rest : string) :
  Url.literal p s = Some rest <-> s = p +:+ rest.
Proof.
  revert s. induction p as [|a p IH]; intros s; simpl.
  - rewrite string_app_nil_l. split; congruence.
  - rewrite string_app_cons. destruct s as [|b s]; [done|].
    destruct (Ascii.eqb_spec a b) as [->|Hne].
    + rewrite IH. split; congruence.
    + split; [done|]. congruence.
Qed.

Lemma group_Some (class : ascii -> bool) (s text : string) :
  Url.group class s = Some text ->
  text <> "" /\ Url.all class text = true
  /\ s = text +:+ Url.dropWhile class s.
Proof.
  unfold Url.group.
  destruct (JS.truthy_string _) eqn:Ht; [|done]. intros [= <-].
  split; [by apply truthy_string_nonempty|].
  split; [apply takeWhile_all|apply takeWhile_dropWhile].
Qed.

Lemma string_app_assoc (s t u : string) : (s +:+ t) +:+ u = s +:+ t +:+ u.
Proof.
  induction s as [|c s IH]; [done|]. by rewrite !string_app_cons, IH.
Qed.

Lemma slashKey_Some (s key : string) :
  Url.slashKey s = Some key ->
  key <> "" /\ Url.all Url.isAlnum key = true
  /\ exists after, s = "/" +:+ key +:+ after.
Proof.
  unfold Url.slashKey.
  destruct (Url.literal "/" s) as [rest|] eqn:Hs; [|done].
  apply literal_Some in Hs.
  intros (Hne & Hall & Hrest)%group_Some.
  split; [done|]. split; [done|].
  exists (Url.dropWhile Url.isAlnum rest). by rewrite Hs, Hrest at 1.
Qed.

Lemma wordSlashKey_Some (word s key : string) :
  Url.wordSlashKey word s = Some key ->
  key <> "" /\ Url.all Url.isAlnum key = true
  /\ exists after, s = word +:+ "/" +:+ key +:+ after.
Proof.
  unfold Url.wordSlashKey.
  destruct (Url.literal word s) as [rest|] eqn:Hs; [|done].
  apply literal_Some in Hs.
  intros (Hne & Hall & after & Hrest)%slashKey_Some.
  split; [done|]. split; [done|].
  exists after. by rewrite Hs, Hrest.
Qed.

Lemma fileOrDesign_inside (s key : string) :
  Url.fileOrDesign s = Some key -> keyInside s key.
Proof.
  unfold Url.fileOrDesign.
  destruct (Url.literal "figma.com/" s) as [rest|] eqn:Hs; [|done].
  apply literal_Some in Hs.
  assert (forall word, Url.wordSlashKey word rest = Some key ->
                       keyInside s key) as Hword.
  { intros word (Hne & Hall & after & Hrest)%wordSlashKey_Some.
    split; [done|]. split; [done|].
    exists ("figma.com/" +:+ word +:+ "/"), after.
    rewrite Hs, Hrest. by rewrite !string_app_assoc. }
  destruct (Url.wordSlashKey "file" rest) as [k|] eqn:Hfile.
  - intros [= <-]. by apply (Hword "file").
  - apply (Hword "design").
Qed.

Lemma anySegment_inside (s key : string) :
  Url.anySegment s = Some key -> keyInside s key.
Proof.
  unfold Url.anySegment.
  destruct (Url.literal "figma.com/" s) as [rest|] eqn:Hs; [|done].
  apply literal_Some in Hs.
  destruct (JS.truthy_string _); [|done].
  intros (Hne & Hall & after & Hrest)%slashKey_Some.
  split; [done|]. split; [done|].
  exists ("figma.com/" +:+ Url.takeWhile Url.notSlash rest +:+ "/"), after.
  rewrite Hs. rewrite (takeWhile_dropWhile Url.notSlash rest) at 1.
  rewrite Hrest. by rewrite !string_app_assoc.
Qed.

Lemma search_inside (pattern : string -> option string) (s key : string) :
  (forall s' k, pattern s' = Some k -> keyInside s' k) ->
  Url.search pattern s = Some key -> keyInside s key.
Proof.
  intros Hpat. induction s as [|c s IH]; simpl.
  - destruct (pattern "") eqn:Hp; [|done]. intros [= <-]. by apply Hpat.
  - destruct (pattern (String c s)) eqn:Hp.
    + intros [= <-]. by apply Hpat.
    + intros (Hne & Hall & before & after & Hs)%IH.
      split; [done|]. split; [done|].
      exists (String c before), after. by rewrite string_app_cons, Hs.
Qed.

(** X17.  Whatever [extractFileKey] returns is a non-empty run of letters
    and digits that occurs in its argument. *)
Theorem extractFileKey_inside (url key : string) :
  Url.extractFileKey url = Some key ->
  key <> "" /\ Url.all Url.isAlnum key = true
  /\ exists before after, url = before +:+ key +:+ after.
Proof.
  unfold Url.extractFileKey.
  destruct (JS.truthy_string url) eqn:Hurl; [|done]. simpl.
  destruct (Url.search Url.fileOrDesign url) as [k|] eqn:H1.
  { intros [= <-]. apply (search_inside _ _ _ fileOrDesign_inside H1). }
  destruct (Url.search Url.anySegment url) as [k|] eqn:H2.
  { intros [= <-]. apply (search_inside _ _ _ anySegment_inside H2). }
  destruct (Url.all Url.isAlnum url) eqn:Hall; [|done].
  destruct (10 <? String.length url)%nat; [|done].
  intros [= <-]. split; [by apply truthy_string_nonempty|].
  split; [done|]. exists "", "".
  by rewrite string_app_nil_l, string_app_nil_r.
Qed.

Lemma extractFileKey_inside_witness :
  Url.extractFileKey "https://www.figma.com/design/abc123/My-Design"
  = Some "abc123"
  /\ Url.all Url.isAlnum "abc123" = true.
Proof.
  assert (Url.extractFileKey "https://www.figma.com/design/abc123/My-Design"
          = Some "abc123") as H by (vm_compute; reflexivity).
  split; [exact H|].
  exact (proj1 (proj2 (extractFileKey_inside _ _ H))).
Defined.

(** No pattern matches in a text without a slash. *)
Lemma literal_slash_free (s : string) :
  Url.all Url.notSlash s = true -> Url.literal "figma.com/" s = None.
Proof.
  intros Hs.
  destruct (Url.literal "figma.com/" s) as [rest|] eqn:H; [|done].
  apply literal_Some in H. subst s.
  rewrite !string_app_cons in Hs. by simpl in Hs.
Qed.

Lemma search_slash_free (pattern : string -> option string) (s : string) :
  (forall s', Url.literal "figma.com/" s' = None -> pattern s' = None) ->
  Url.all Url.notSlash s = true -> Url.search pattern s = None.
Proof.
  intros Hpat. induction s as [|c s IH]; simpl; intros Hs.
  - by rewrite Hpat.
  - rewrite Hpat by (by apply literal_slash_free).
    apply IH. by apply andb_true_iff in Hs as [_ ?].
Qed.

Lemma firstPattern_slash_free (s : string) :
  Url.all Url.notSlash s = true -> Url.firstPattern Url.patterns s = None.
Proof.
  intros Hs. simpl.
  rewrite !search_slash_free; try done.
  - intros s' H. unfold Url.anySegment. by rewrite H.
  - intros s' H. unfold Url.fileOrDesign. by rewrite H.
Qed.

Lemma isAlnum_notSlash (c : ascii) :
  Url.isAlnum c = true -> Url.notSlash c = true.
Proof. ascii_cases c; vm_compute; congruence. Qed.

Lemma all_alnum_notSlash (s : string) :
  Url.all Url.isAlnum s = true -> Url.all Url.notSlash s = true.
Proof.
  induction s as [|c s IH]; simpl; [done|].
  intros [Hc Hs]%andb_true_iff.
  by rewrite (isAlnum_notSlash c Hc), IH.
Qed.

(** X18.  On a text without a slash no pattern applies: [extractFileKey]
    returns the text itself when it is made of letters and digits and is
    longer than 10, and [null] otherwise (the empty text included). *)
Theorem extractFileKey_bare (url : string) :
  Url.all Url.notSlash url = true ->
  Url.extractFileKey url
  = if Url.all Url.isAlnum url && (10 <? String.length url)%nat
    then Some url
    else None.
Proof.
  intros Hs. unfold Url.extractFileKey.
  rewrite firstPattern_slash_free by done.
  destruct url as [|c url]; [done|]. simpl JS.truthy_string. done.
Qed.

Lemma extractFileKey_bare_witness :
  Url.extractFileKey "hh6x4c5QYq6KL4txwrVRvX" = Some "hh6x4c5QYq6KL4txwrVRvX"
  /\ Url.extractFileKey "my_design_file" = None
  /\ Url.extractFileKey "short" = None.
Proof.
  split; [|split].
  - rewrite extractFileKey_bare by reflexivity. reflexivity.
  - rewrite extractFileKey_bare by reflexivity. reflexivity.
  - rewrite extractFileKey_bare by reflexivity. reflexivity.
Defined.

(** X19.  The two functions disagree on what a key is: every key that
    [isValidFileKey] accepts is returned unchanged by [extractFileKey], but
    [extractFileKey] also returns the runs of 11 to 14 letters and digits,
    which [isValidFileKey] rejects. *)
Theorem isValidFileKey_stricter (key : string) :
  (Url.isValidFileKey key = true -> Url.extractFileKey key = Some key)
  /\ (Url.all Url.isAlnum key = true ->
      10 < String.length key < 15 ->
      Url.extractFileKey key = Some key /\ Url.isValidFileKey key = false).
Proof.
  assert (Url.all Url.isAlnum key = true ->
          10 < String.length key ->
          Url.extractFileKey key = Some key) as Hextract.
  { intros Hall Hlen. unfold Url.extractFileKey.
    rewrite firstPattern_slash_free by (by apply all_alnum_notSlash).
    rewrite Hall. apply Nat.ltb_lt in Hlen. rewrite Hlen.
    by destruct key. }
  split.
  - unfold Url.isValidFileKey.
    destruct (JS.truthy_string key); [|done]. cbn [negb].
    intros [Hall Hlen%Nat.leb_le]%andb_true_iff.
    apply Hextract; [done|lia].
  - intros Hall [Hlo Hhi]. split; [by apply Hextract|].
    unfold Url.isValidFileKey.
    destruct (JS.truthy_string key); [|done]. cbn [negb].
    rewrite Hall. cbn [andb]. apply Nat.leb_gt. lia.
Qed.

Lemma isValidFileKey_stricter_witness :
  Url.isValidFileKey "hh6x4c5QYq6KL4txwrVRvX" = true
  /\ Url.extractFileKey "hh6x4c5QYq6KL4txwrVRvX"
     = Some "hh6x4c5QYq6KL4txwrVRvX"
  /\ Url.extractFileKey "abcdefghijkl" = Some "abcdefghijkl"
  /\ Url.isValidFileKey "abcdefghijkl" = false.
Proof.
  destruct (isValidFileKey_stricter "hh6x4c5QYq6KL4txwrVRvX") as [Hvalid _].
  destruct (isValidFileKey_stricter "abcdefghijkl") as [_ Hshort].
  split; [reflexivity|]. split; [apply Hvalid; reflexivity|].
  apply Hshort; [reflexivity|simpl; lia].
Defined.

Lemma takeWhile_app (class : ascii -> bool) (key tail : string) :
  Url.all class key = true -> Url.takeWhile class tail = "" ->
  Url.takeWhile class (key +:+ tail) = key.
Proof.
  intros Hkey Htail. induction key as [|c key IH].
  - by rewrite string_app_nil_l.
  - rewrite string_app_cons. simpl in *.
    apply andb_true_iff in Hkey as [-> Hkey]. by rewrite IH.
Qed.

Lemma keyEnds_takeWhile (tail : string) :
  keyEnds tail -> Url.takeWhile Url.isAlnum tail = "".
Proof. destruct tail as [|c tail]; simpl; [done|]. by intros ->. Qed.

Lemma group_key (key tail : string) :
  key <> "" -> Url.all Url.isAlnum key = true -> keyEnds tail ->
  Url.group Url.isAlnum (key +:+ tail) = Some key.
Proof.
  intros Hne Hall Htail. unfold Url.group.
  rewrite takeWhile_app by (done || by apply keyEnds_takeWhile).
  apply truthy_string_nonempty in Hne. by rewrite Hne.
Qed.

Lemma literal_app (p rest : string) : Url.literal p (p +:+ rest) = Some rest.
Proof. by apply literal_Some. Qed.

(** A match starts with the [f] of [figma]. *)
Lemma search_skip (pattern : string -> option string)
    (before s : string) :
  (forall s', Url.literal "figma.com/" s' = None -> pattern s' = None) ->
  Url.all (fun c => negb (Ascii.eqb c "f")) before = true ->
  Url.search pattern (before +:+ s) = Url.search pattern s.
Proof.
  intros Hpat. induction before as [|c before IH]; intros Hb.
  - by rewrite string_app_nil_l.
  - rewrite string_app_cons. simpl in Hb |- *.
    apply andb_true_iff in Hb as [Hc Hb].
    rewrite Hpat; [by apply IH|].
    cbn [Url.literal].
    destruct (Ascii.eqb_spec "f" c) as [<-|]; [by simpl in Hc|done].
Qed.

(** X20.  From a link of the usual form, [...figma.com/file/KEY...] or
    [...figma.com/design/KEY...], with no [f] before [figma], the key is
    returned: the whole run of letters and digits after the slash, up to
    the next unit of another kind. *)
Theorem extractFileKey_link (before word key tail : string) :
  Url.all (fun c => negb (Ascii.eqb c "f")) before = true ->
  word = "file" \/ word = "design" ->
  key <> "" -> Url.all Url.isAlnum key = true -> keyEnds tail ->
  Url.extractFileKey
    (before +:+ "figma.com/" +:+ word +:+ "/" +:+ key +:+ tail)
  = Some key.
Proof.
  intros Hbefore Hword Hne Hall Htail. unfold Url.extractFileKey.
  assert (JS.truthy_string
            (before +:+ "figma.com/" +:+ word +:+ "/" +:+ key +:+ tail)
          = true) as ->.
  { by destruct before. }
  cbn [negb Url.patterns Url.firstPattern].
  rewrite search_skip; [|intros s' H; unfold Url.fileOrDesign; by rewrite H
                        |done].
  assert (Url.fileOrDesign
            ("figma.com/" +:+ word +:+ "/" +:+ key +:+ tail) = Some key)
    as Hhere.
  { unfold Url.fileOrDesign. rewrite literal_app.
    assert (Url.wordSlashKey word (word +:+ "/" +:+ key +:+ tail)
            = Some key) as Hw.
    { unfold Url.wordSlashKey, Url.slashKey.
      rewrite !literal_app. by apply group_key. }
    destruct Hword as [-> | ->]; [by rewrite Hw|].
    by rewrite Hw. }
  assert (forall s, Url.fileOrDesign s = Some key ->
                    Url.search Url.fileOrDesign s = Some key) as Hfirst.
  { intros s H. destruct s; cbn [Url.search]; by rewrite H. }
  by rewrite (Hfirst _ Hhere).
Qed.

Lemma extractFileKey_link_witness :
  Url.extractFileKey
    ("https://www." +:+ "figma.com/" +:+ "design" +:+ "/" +:+ "abc123"
     +:+ "/My-Design?node-id=1-2")
  = Some "abc123".
Proof.
  apply (extractFileKey_link "https://www." "design" "abc123"
           "/My-Design?node-id=1-2").
  - reflexivity.
  - by right.
  - discriminate.
  - reflexivity.
  - reflexivity.
Defined.

(** * The plugin code on the document of the host *)

Lemma insert_last {A : Type} (l : list A) (x y : A) :
  <[length l := y]> (l ++ [x]) = l ++ [y].
Proof.
  rewrite insert_app_r_alt; [|lia]. by rewrite Nat.sub_diag.
Qed.

Lemma grown_nil (placement : Placement) (s : Scene.State) :
  grown placement [] s = s.
Proof.
  destruct s, placement; unfold grown; simpl; by rewrite !app_nil_r.
Qed.

Lemma grown_app (placement : Placement) (made made' : list SceneNode)
    (s : Scene.State) :
  grown placement made' (grown placement made s)
  = grown placement (made ++ made') s.
Proof.
  unfold grown. destruct placement; simpl; rewrite <- !app_assoc; [|done].
  by rewrite !length_app, seq_app.
Qed.

Lemma createBaseShape_error (host : Host) (c : ShapeConfig) (e : Error) :
  createBaseShape host c = Throw e -> e <> InvalidColor.
Proof.
  destruct (createBaseShape_cases host c)
    as [[_ Hc]|[[_ Hc]|[[_ Hc]|[[_ Hc]|[[_ Hc]|[[_ Hc]|[[_ Hc]
        |[_ Hc]]]]]]]]; rewrite Hc; try congruence.
  destruct (fontLoads host); congruence.
Qed.

(** The call, by the block in which it ends. *)
Lemma Live_generateShape_blocks (host : Host) (placement : Placement)
    (c : ShapeConfig) (s : Scene.State) :
  Live.generateShape host placement c s
  = match createBaseShape host c with
    | Throw e => (Throw e, s)
    | Ok base =>
        match applyFill host c (placed host c base) with
        | Throw e => (Throw e, grown placement [placed host c base] s)
        | Ok filled =>
            match applyStroke host c filled with
            | Throw e => (Throw e, grown placement [filled] s)
            | Ok stroked =>
                (Ok (length (Scene.objects s)),
                 grown placement [stroked] s)
            end
        end
    end.
Proof.
  unfold Live.generateShape.
  destruct (createBaseShape host c) as [base|]; [|done].
  unfold Scene.create, Scene.write, grown. cbn.
  destruct (applyFill host c (placed host c base)) as [filled|].
  - destruct (applyStroke host c filled) as [stroked|];
      cbn; rewrite !insert_last; by destruct placement.
  - rewrite !insert_last; by destruct placement.
Qed.

(** A call that returns has made one object, the node returned. *)
Lemma Live_generateShape_Ok (host : Host) (placement : Placement)
    (c : ShapeConfig) (n : SceneNode) (s : Scene.State) :
  generateShape host c = Ok n ->
  Live.generateShape host placement c s
  = (Ok (length (Scene.objects s)), grown placement [n] s).
Proof.
  intros (n0 & n2 & H0 & H2 & H3)%generateShape_Ok.
  by rewrite Live_generateShape_blocks, H0, H2, H3.
Qed.

(** A call that throws has made no object when it fails in the switch, and
    one when it fails at a colour. *)
Lemma Live_generateShape_Throw (host : Host) (placement : Placement)
    (c : ShapeConfig) (e : Error) (s : Scene.State) :
  generateShape host c = Throw e ->
  exists left,
    Live.generateShape host placement c s = (Throw e, grown placement left s)
    /\ length left <= 1
    /\ (left = [] <-> e <> InvalidColor)
    /\ Forall (fun n => kind_name (Node.kind n) = Config.type c) left.
Proof.
  intros H. rewrite Live_generateShape_blocks.
  destruct (createBaseShape host c) as [n0|e0] eqn:H0.
  - rewrite (generateShape_steps host c n0 H0) in H.
    pose proof (createBaseShape_kind host c n0 H0) as Hkind.
    destruct (applyFill host c (placed host c n0)) as [n2|e2] eqn:H2;
      simpl in H.
    + destruct (applyStroke host c n2) as [n3|e3] eqn:H3; [done|].
      injection H as <-. apply applyStroke_Throw in H3 as (_ & _ & _ & ->).
      apply applyFill_kind in H2. rewrite placed_kind in H2.
      exists [n2]. split; [done|]. split; [simpl; lia|]. split; [done|].
      apply Forall_singleton. by rewrite H2.
    + injection H as <-. apply applyFill_error in H2 as ->.
      exists [placed host c n0]. split; [done|]. split; [simpl; lia|].
      split; [done|]. apply Forall_singleton. by rewrite placed_kind.
  - assert (e = e0) as ->.
    { unfold generateShape in H. rewrite H0 in H. by injection H. }
    exists []. rewrite grown_nil. split; [done|]. split; [simpl; lia|].
    split; [|done]. split; [intros _; by eapply createBaseShape_error|done].
Qed.

(** The loop over entries that succeed. *)
Lemma Live_pushShapes_app (host : Host) (placement : Placement)
    (before rest : list ShapeConfig) (nodes : list SceneNode)
    (acc : list nat) (s : Scene.State) :
  Forall2 (fun a n => generateShape host a = Ok n) before nodes ->
  Live.pushShapes host placement acc (before ++ rest) s
  = Live.pushShapes host placement
      (acc ++ seq (length (Scene.objects s)) (length nodes)) rest
      (grown placement nodes s).
Proof.
  intros H. revert acc s.
  induction H as [|a n before nodes Ha _ IH]; intros acc s.
  - simpl. by rewrite app_nil_r, grown_nil.
  - simpl. unfold Live.bind at 1.
    rewrite (Live_generateShape_Ok host placement a n s Ha).
    rewrite IH, grown_app. simpl. rewrite length_app, <- app_assoc. simpl.
    by rewrite Nat.add_1_r.
Qed.

(** The handler on a batch. *)
Lemma Live_onmessage_fromJson (host : Host) (placement : Placement)
    (p : ConfigPayload) (s : Scene.State) :
  Live.onmessage host placement (fromJson p) s
  = Live.onCreateShapeFromJson host placement p s.
Proof.
  unfold Live.onmessage, fromJson, Live.andThen, Live.bind, Live.when,
    Live.ret. simpl.
  destruct (Live.onCreateShapeFromJson host placement p s) as [[[]|e] s'];
    done.
Qed.

Lemma Live_batch_throws (host : Host) (placement : Placement)
    (before after : list ShapeConfig) (c : ShapeConfig) (e : Error)
    (s : Scene.State) :
  Forall (fun a => succeeds (generateShape host a) = true) before ->
  generateShape host c = Throw e ->
  exists nodes left,
    Live.pushShapes host placement [] (before ++ c :: after) s
    = (Throw e, grown placement (nodes ++ left) s)
    /\ Forall2 (fun a n => generateShape host a = Ok n) before nodes
    /\ length left <= 1
    /\ (left = [] <-> e <> InvalidColor)
    /\ Forall (fun n => kind_name (Node.kind n) = Config.type c) left.
Proof.
  intros Hbefore Hc.
  assert (exists nodes,
            Forall2 (fun a n => generateShape host a = Ok n) before nodes)
    as [nodes Hnodes].
  { induction Hbefore as [|a before Ha _ [nodes IH]]; [by exists []|].
    destruct (generateShape host a) as [n|] eqn:Hn; [|done].
    exists (n :: nodes). by constructor. }
  destruct (Live_generateShape_Throw host placement c e
              (grown placement nodes s) Hc) as (left & Hrun & Hlen & Hleft).
  exists nodes, left. split; [|done].
  rewrite (Live_pushShapes_app host placement before _ nodes [] s Hnodes).
  simpl. unfold Live.bind. rewrite Hrun. by rewrite grown_app.
Qed.

(** C3 as it is written fails on the document of Figma, where a node is on
    the page from its creation: the second entry of the batch fails at its
    colour, the handler throws, and the rectangle made for the first entry
    and the ellipse made for the second are children of the page, which
    was empty. *)
Lemma failed_batch_leaves_nodes :
  with_fill (Some "notacolor") (plain "ellipse") ∈ shapes badColorBatch
  /\ generateShape figma (with_fill (Some "notacolor") (plain "ellipse"))
     = Throw InvalidColor
  /\ generateShapes figma badColorBatch = Throw InvalidColor
  /\ Live.onmessage figma Parented (fromJson (Multi badColorBatch))
       Scene.initial
     = (Throw InvalidColor, afterBadColorBatch)
  /\ Scene.children afterBadColorBatch <> Scene.children Scene.initial.
Proof.
  split.
  { simpl. apply elem_of_cons. right. apply elem_of_cons. by left. }
  split; [vm_compute; reflexivity|].
  split; [vm_compute; reflexivity|].
  split; [vm_compute; reflexivity|discriminate].
Qed.

(** C3, amended.  The batch operation is fail-fast: when the factory fails
    on an entry of the batch, [generateShapes] fails with the error of the
    first entry, in sorted order, on which the factory fails, and returns
    no list of nodes; the handler throws before it appends, selects or
    shows anything, so that the selection and the viewport are as they
    were.  What the call leaves in the document are the nodes created
    before the failure: those of the entries before the failing one, and
    that of the failing entry when it failed at a colour.  They are
    children of the page on a host that parents a node at its creation, and
    the page is as it was on a host that does not. *)
Theorem generateShapes_fail_fast (host : Host) (config : MultiShapeConfig)
    (c : ShapeConfig) (e : Error) :
  c ∈ shapes config ->
  generateShape host c = Throw e ->
  exists e' before c' after,
    generateShapes host config = Throw e'
    /\ sortedShapes config = before ++ c' :: after
    /\ Forall (fun a => succeeds (generateShape host a) = true) before
    /\ generateShape host c' = Throw e'
    /\ forall placement s,
         exists nodes left,
           Live.onmessage host placement (fromJson (Multi config)) s
           = (Throw e', grown placement (nodes ++ left) s)
           /\ Forall2 (fun a n => generateShape host a = Ok n) before nodes
           /\ length left <= 1
           /\ (left = [] <-> e' <> InvalidColor)
           /\ Forall (fun n => kind_name (Node.kind n) = Config.type c')
                left.
Proof.
  intros Hin%elem_of_sortedShapes Hc.
  destruct (mapM_fails (generateShape host) _ c Hin) as [e' He'].
  { by rewrite Hc. }
  destruct (proj1 (mapM_Throw _ _ _) He')
    as (before & c' & after & Hsorted & Hbefore & Hc').
  exists e', before, c', after.
  rewrite generateShapes_mapM. split; [done|].
  split; [done|]. split; [done|]. split; [done|].
  intros placement s.
  destruct (Live_batch_throws host placement before after c' e' s
              Hbefore Hc') as (nodes & left & Hrun & Hrest).
  exists nodes, left. split; [|done].
  rewrite Live_onmessage_fromJson.
  unfold Live.onCreateShapeFromJson, Live.bind, Live.generateShapes.
  by rewrite Hsorted, Hrun.
Qed.

Lemma generateShapes_fail_fast_witness :
  with_fill (Some "notacolor") (plain "ellipse") ∈ shapes badColorBatch
  /\ generateShape figma (with_fill (Some "notacolor") (plain "ellipse"))
     = Throw InvalidColor
  /\ generateShapes figma badColorBatch = Throw InvalidColor
  /\ exists made,
       Live.onmessage figma Parented (fromJson (Multi badColorBatch))
         Scene.initial
       = (Throw InvalidColor, grown Parented made Scene.initial)
       /\ length made = 2
       /\ Scene.children (grown Parented made Scene.initial) = [0; 1].
Proof.
  assert (with_fill (Some "notacolor") (plain "ellipse")
          ∈ shapes badColorBatch) as Hin.
  { simpl. apply elem_of_cons. right. apply elem_of_cons. by left. }
  assert (generateShape figma (with_fill (Some "notacolor") (plain "ellipse"))
          = Throw InvalidColor) as Hc by (vm_compute; reflexivity).
  split; [exact Hin|]. split; [exact Hc|].
  destruct (generateShapes_fail_fast figma badColorBatch _ _ Hin Hc)
    as (e' & before & c' & after & He' & _ & _ & _ & Hlive).
  assert (e' = InvalidColor) as ->.
  { assert (generateShapes figma badColorBatch = Throw InvalidColor) as H
      by (vm_compute; reflexivity).
    rewrite H in He'. by injection He'. }
  split; [exact He'|].
  destruct (Hlive Parented Scene.initial) as (nodes & left & Hrun & _).
  exists (nodes ++ left). split; [exact Hrun|].
  assert ((Live.onmessage figma Parented (fromJson (Multi badColorBatch))
             Scene.initial).2
          = afterBadColorBatch) as H
    by (vm_compute; reflexivity).
  rewrite Hrun in H. cbn [snd] in H. rewrite H.
  apply (f_equal Scene.objects) in H. simpl in H.
  split; [by rewrite H|reflexivity].
Defined.

(** ** The handler on the document, message by message *)

(** The button's star is valid on every host. *)
Lemma starConfig_valid (host : Host) :
  exists star, generateShape host starConfig = Ok star.
Proof.
  destruct (createBaseShape host starConfig) as [n0|] eqn:H0;
    [|vm_compute in H0; discriminate H0].
  rewrite (generateShape_steps host _ n0 H0).
  assert (Node.kind n0 = STAR) as Hk.
  { vm_compute in H0. by injection H0 as <-. }
  unfold applyFill, applyStroke. rewrite placed_kind, Hk.
  cbn [starConfig Config.fill Config.stroke].
  assert (hexToRgb (normalizeColor "red")
          = Ok {| r := div255 255; g := div255 0; b := div255 0 |}) as ->
    by (vm_compute; reflexivity).
  assert (strictEq (normalizeColor "red") "transparent" = false) as ->
    by (vm_compute; reflexivity).
  destruct (has host "fills" STAR); by eexists.
Qed.

Lemma Live_onmessage_cases (host : Host) (placement : Placement)
    (msg : Message) (s : Scene.State) :
  (Msg.type msg = "create-star"
   /\ Live.onmessage host placement msg s
      = match Live.generateShape host placement starConfig s with
        | (Ok star, s') =>
            (Ok tt, Scene.closePlugin (Live.showNode star s').2)
        | (Throw e, s') => (Throw e, s')
        end)
  \/ (Msg.type msg = "create-shape-from-json"
      /\ Live.onmessage host placement msg s
         = match Msg.config msg with
           | Some (Multi config) =>
               match Live.generateShapes host placement config s with
               | (Ok nodes, s') => Live.showNodes nodes s'
               | (Throw e, s') => (Throw e, s')
               end
           | Some (Single config) =>
               match Live.generateShape host placement config s with
               | (Ok node, s') => Live.showNode node s'
               | (Throw e, s') => (Throw e, s')
               end
           | None => (Ok tt, s)
           end)
  \/ (Msg.type msg = "create-shapes"
      /\ Live.onmessage host placement msg s
         = (Ok tt,
            Scene.closePlugin
              (Live.onCreateShapes placement (Msg.count msg) s).2))
  \/ (Msg.type msg <> "create-star"
      /\ Msg.type msg <> "create-shape-from-json"
      /\ Msg.type msg <> "create-shapes"
      /\ Live.onmessage host placement msg s = (Ok tt, Scene.closePlugin s)).
Proof.
  destruct msg as [type count config].
  cbn [Msg.type Msg.count Msg.config].
  destruct (decide (type = "create-star")) as [->|Hstar].
  { left. split; [done|].
    unfold Live.onmessage. cbn [Msg.type Msg.count Msg.config]. seq_eval.
    unfold Live.onCreateStar, Live.andThen, Live.bind, Live.when, Live.ret.
    cbv beta iota zeta delta [negb].
    destruct (Live.generateShape host placement starConfig s)
      as [[star|e] s']; [|done].
    unfold Live.showNode, Live.exec. by destruct config. }
  destruct (decide (type = "create-shape-from-json")) as [->|Hjson].
  { right. left. split; [done|].
    unfold Live.onmessage. cbn [Msg.type Msg.count Msg.config]. seq_eval.
    unfold Live.onCreateShapeFromJson, Live.andThen, Live.bind, Live.when,
      Live.ret.
    cbv beta iota zeta delta [negb].
    destruct config as [[config|config]|]; [| |done].
    - destruct (Live.generateShape host placement config s)
        as [[node|e] s']; [|done].
      by destruct (Live.showNode node s') as [[[]|] ?].
    - destruct (Live.generateShapes host placement config s)
        as [[nodes|e] s']; [|done].
      by destruct (Live.showNodes nodes s') as [[[]|] ?]. }
  destruct (decide (type = "create-shapes")) as [->|Hshapes].
  { right. right. left. split; [done|].
    unfold Live.onmessage. cbn [Msg.type Msg.count Msg.config]. seq_eval.
    unfold Live.andThen, Live.bind, Live.when, Live.ret, Live.exec,
      Live.onCreateShapes.
    by destruct config. }
  right. right. right. repeat split; try done.
  unfold Live.onmessage. cbn [Msg.type Msg.count Msg.config].
  apply seq_false in Hstar, Hjson, Hshapes.
  rewrite Hstar, Hjson, Hshapes.
  unfold Live.andThen, Live.bind, Live.when, Live.ret, Live.exec.
  by destruct config.
Qed.

(** X12.  The handler throws only on a [create-shape-from-json] message
    that carries a configuration, and it throws before any of its own
    statements on the page: the selection, the viewport and the closed flag
    are as they were, and the document has only gained the nodes created
    before the throw (on the page if the host parents a node at its
    creation, the page being as it was otherwise).  For a single
    configuration that is one node when the failure is a colour, and none
    when it is the type or the font. *)
Theorem onmessage_throws_before_showing (host : Host)
    (placement : Placement) (msg : Message) (s s' : Scene.State)
    (e : Error) :
  Live.onmessage host placement msg s = (Throw e, s') ->
  Msg.type msg = "create-shape-from-json"
  /\ is_Some (Msg.config msg)
  /\ exists made,
       s' = grown placement made s
       /\ forall c, Msg.config msg = Some (Single c) ->
                    generateShape host c = Throw e
                    /\ length made <= 1
                    /\ (made = [] <-> e <> InvalidColor)
                    /\ Forall (fun n => kind_name (Node.kind n)
                                        = Config.type c) made.
Proof.
  intros H.
  destruct (Live_onmessage_cases host placement msg s)
    as [[_ Hrun]|[[Hty Hrun]|[[_ Hrun]|(_ & _ & _ & Hrun)]]];
    rewrite Hrun in H; try done.
  - destruct (starConfig_valid host) as [star Hstar].
    by rewrite (Live_generateShape_Ok host placement _ star s Hstar) in H.
  - split; [done|].
    destruct (Msg.config msg) as [[c|config]|]; [| |done].
    + split; [done|].
      destruct (generateShape host c) as [n|e0] eqn:Hc.
      { by rewrite (Live_generateShape_Ok host placement c n s Hc) in H. }
      destruct (Live_generateShape_Throw host placement c e0 s Hc)
        as (left & Hleft & Hlen & Hiff & Hkind).
      rewrite Hleft in H. injection H as -> <-.
      exists left. split; [done|]. by intros c' [= <-].
    + split; [done|].
      destruct (generateShapes host config) as [nodes|e0] eqn:Hg.
      * rewrite generateShapes_mapM in Hg. apply mapM_Ok in Hg.
        unfold Live.generateShapes in H.
        rewrite <- (app_nil_r (sortedShapes config)) in H.
        rewrite (Live_pushShapes_app host placement _ [] nodes [] s Hg) in H.
        done.
      * rewrite generateShapes_mapM in Hg.
        apply mapM_Throw in Hg
          as (before & c' & after & Hsorted & Hbefore & Hc').
        destruct (Live_batch_throws host placement before after c' e0 s
                    Hbefore Hc') as (nodes & left & Hthrow & _).
        unfold Live.generateShapes in H. rewrite Hsorted, Hthrow in H.
        injection H as -> <-.
        exists (nodes ++ left). split; [done|]. by intros c0 [=].
Qed.

Lemma onmessage_throws_before_showing_witness :
  exists made,
    Live.onmessage figma Parented
      (fromJson (Single (with_fill (Some "notacolor") (plain "ellipse"))))
      Scene.initial
    = (Throw InvalidColor, grown Parented made Scene.initial)
    /\ length made <= 1
    /\ Scene.children (grown Parented made Scene.initial) = [0].
Proof.
  assert (exists s',
            Live.onmessage figma Parented
              (fromJson
                 (Single (with_fill (Some "notacolor") (plain "ellipse"))))
              Scene.initial
            = (Throw InvalidColor, s')
            /\ Scene.children s' = [0]) as (s' & H & Hchildren)
    by (eexists; split; vm_compute; reflexivity).
  destruct (onmessage_throws_before_showing figma Parented _ _ _ _ H)
    as (_ & _ & made & Hs' & Hsingle).
  destruct (Hsingle _ eq_refl) as (_ & Hlen & _).
  exists made. rewrite <- Hs'. by split.
Defined.

(** ** The document and the page of nodes *)

Lemma filter_all {A : Type} (P : A -> Prop) `{!forall a, Decision (P a)}
    (l : list A) :
  Forall P l -> filter P l = l.
Proof.
  induction 1 as [|a l Ha _ IH]; [done|].
  by rewrite filter_cons_True, IH.
Qed.

Lemma filter_none {A : Type} (P : A -> Prop) `{!forall a, Decision (P a)}
    (l : list A) :
  Forall (fun a => ~ P a) l -> filter P l = [].
Proof.
  induction 1 as [|a l Ha _ IH]; [done|].
  by rewrite filter_cons_False.
Qed.

(** Appending nodes one after the other moves them behind the others. *)
Lemma fold_appendChild_moves (ids : list nat) (s : Scene.State) :
  NoDup ids ->
  fold_left (fun s node => Scene.appendChild node s) ids s
  = {| Scene.objects := Scene.objects s;
       Scene.children :=
         filter (fun i => i ∉ ids) (Scene.children s) ++ ids;
       Scene.selection := Scene.selection s;
       Scene.viewport := Scene.viewport s;
       Scene.closed := Scene.closed s |}.
Proof.
  intros Hids. revert s.
  induction Hids as [|a ids Ha _ IH]; intros s; simpl.
  - destruct s; simpl. f_equal. rewrite app_nil_r. symmetry.
    apply filter_all.
    apply Forall_forall. intros i _. apply not_elem_of_nil.
  - rewrite IH. unfold Scene.appendChild; simpl. f_equal.
    rewrite filter_app, list_filter_filter.
    rewrite (filter_cons_True _ a []) by done. rewrite filter_nil.
    rewrite <- app_assoc. simpl. f_equal.
    apply list_filter_iff. intros i. rewrite elem_of_cons. tauto.
Qed.

Lemma deref_app (s : Scene.State) (ids ids' : list nat) :
  deref s (ids ++ ids') = deref s ids ++ deref s ids'.
Proof. apply omap_app. Qed.

(** The objects that were there are still there, unchanged. *)
Lemma deref_old (s s' : Scene.State) (made : list SceneNode)
    (ids : list nat) :
  Scene.objects s' = Scene.objects s ++ made ->
  Forall (fun id => id < length (Scene.objects s)) ids ->
  deref s' ids = deref s ids.
Proof.
  intros Hs'. unfold deref. induction 1 as [|id ids Hid _ IH]; [done|].
  cbn [omap list_omap]. rewrite IH, Hs'. by rewrite lookup_app_l.
Qed.

Lemma deref_new (objects made : list SceneNode) (s : Scene.State) :
  Scene.objects s = objects ++ made ->
  deref s (seq (length objects) (length made)) = made.
Proof.
  intros Hs. unfold deref. rewrite Hs. clear Hs. revert objects.
  induction made as [|n made IH]; intros objects; [done|].
  cbn [length seq omap list_omap].
  rewrite list_lookup_middle by done. simpl. f_equal.
  specialize (IH (objects ++ [n])).
  rewrite length_app, Nat.add_1_r, <- app_assoc in IH. exact IH.
Qed.

(** The document after new nodes were created and then shown. *)
Lemma showNodes_grown (placement : Placement) (made : list SceneNode)
    (s : Scene.State) :
  wellFormed s ->
  Live.showNodes (seq (length (Scene.objects s)) (length made))
    (grown placement made s)
  = (Ok tt, shownLive made s).
Proof.
  intros Hwf. unfold Live.showNodes, Live.exec.
  rewrite fold_appendChild_moves by apply NoDup_seq.
  unfold Scene.scrollAndZoomIntoView, Scene.set_selection, grown,
    shownLive. simpl.
  do 2 f_equal.
  assert (filter (fun i => i ∉ seq (length (Scene.objects s)) (length made))
            (Scene.children s) = Scene.children s) as Hold.
  { apply filter_all. eapply Forall_impl; [exact Hwf|].
    intros i Hi. simpl in Hi. rewrite elem_of_seq. lia. }
  destruct placement; [|by rewrite Hold].
  rewrite filter_app, Hold, filter_none, app_nil_r; [done|].
  apply Forall_forall. tauto.
Qed.

Lemma view_shownLive (made : list SceneNode) (s : Scene.State) :
  wellFormed s ->
  view (shownLive made s) = shown made (view s)
  /\ wellFormed (shownLive made s).
Proof.
  intros Hwf.
  assert (Scene.objects (shownLive made s) = Scene.objects s ++ made)
    as Hobjects by done.
  split.
  - unfold view, shown.
    change (Scene.children (shownLive made s))
      with (Scene.children s
            ++ seq (length (Scene.objects s)) (length made)).
    change (Scene.selection (shownLive made s))
      with (seq (length (Scene.objects s)) (length made)).
    change (Scene.viewport (shownLive made s))
      with (Some (seq (length (Scene.objects s)) (length made))).
    rewrite deref_app, (deref_old s _ made _ Hobjects Hwf).
    cbn [fmap option_fmap option_map].
    by rewrite (deref_new _ _ _ Hobjects).
  - unfold wellFormed. rewrite Hobjects, length_app.
    apply Forall_app. split.
    + eapply Forall_impl; [exact Hwf|]. intros i Hi. simpl in Hi. lia.
    + apply Forall_seq. intros j Hj. lia.
Qed.

(** The loop of [create-shapes] on the document. *)
Lemma createRects_spec (placement : Placement) (rest : list Z)
    (acc : list nat) (s : Scene.State) :
  wellFormed s ->
  Live.createRects placement acc rest s
  = (acc ++ seq (length (Scene.objects s)) (length rest),
     {| Scene.objects := Scene.objects s ++ map createRect rest;
        Scene.children :=
          Scene.children s ++ seq (length (Scene.objects s)) (length rest);
        Scene.selection := Scene.selection s;
        Scene.viewport := Scene.viewport s;
        Scene.closed := Scene.closed s |}).
Proof.
  revert acc s. induction rest as [|i rest IH]; intros acc s Hwf.
  - simpl. rewrite !app_nil_r. by destruct s.
  - cbn [Live.createRects Scene.create].
    set (s1 := Scene.appendChild _ (Scene.write _ _ _)).
    assert (s1 = {| Scene.objects := Scene.objects s ++ [createRect i];
                    Scene.children :=
                      Scene.children s ++ [length (Scene.objects s)];
                    Scene.selection := Scene.selection s;
                    Scene.viewport := Scene.viewport s;
                    Scene.closed := Scene.closed s |}) as ->.
    { unfold s1, Scene.appendChild, Scene.write. cbn.
      rewrite !insert_last. f_equal.
      assert (filter (fun j => j <> length (Scene.objects s))
                (Scene.children s) = Scene.children s) as Hold.
      { apply filter_all. eapply Forall_impl; [exact Hwf|].
        intros j Hj. simpl in Hj. lia. }
      destruct placement; [|by rewrite Hold].
      rewrite filter_app, Hold.
      rewrite (filter_cons_False _ _ []) by (intros H; by apply H).
      by rewrite filter_nil, app_nil_r. }
    rewrite IH.
    + cbn. rewrite length_app, Nat.add_1_r, <- !app_assoc. done.
    + unfold wellFormed. cbn. rewrite length_app. apply Forall_app. split.
      * eapply Forall_impl; [exact Hwf|]. intros j Hj. simpl in Hj. lia.
      * apply Forall_singleton. simpl. lia.
Qed.

Lemma onCreateShapes_shown (placement : Placement) (count : JS.number)
    (s : Scene.State) :
  wellFormed s ->
  Live.onCreateShapes placement count s
  = (Ok tt, shownLive (map createRect (upto count)) s).
Proof.
  intros Hwf. unfold Live.onCreateShapes, Live.exec.
  rewrite (createRects_spec placement _ [] s Hwf).
  unfold shownLive. by rewrite length_map.
Qed.

Lemma view_closePlugin (s : Scene.State) :
  view (Scene.closePlugin s) = Figma.closePlugin (view s).
Proof. done. Qed.

Lemma wellFormed_grown (placement : Placement) (made : list SceneNode)
    (s : Scene.State) :
  wellFormed s -> wellFormed (grown placement made s).
Proof.
  intros Hwf. unfold wellFormed, grown. cbn. rewrite length_app.
  assert (Forall (fun id => id < length (Scene.objects s) + length made)
            (Scene.children s)) as Hold.
  { eapply Forall_impl; [exact Hwf|]. intros i Hi. simpl in Hi. lia. }
  destruct placement; [|done].
  apply Forall_app. split; [done|]. apply Forall_seq. intros j Hj. lia.
Qed.

(** The calls awaited by the handler, on the document. *)
Lemma Live_generateShapes_Ok (host : Host) (placement : Placement)
    (config : MultiShapeConfig) (nodes : list SceneNode) (s : Scene.State) :
  generateShapes host config = Ok nodes ->
  Live.generateShapes host placement config s
  = (Ok (seq (length (Scene.objects s)) (length nodes)),
     grown placement nodes s).
Proof.
  rewrite generateShapes_mapM. intros H%mapM_Ok.
  unfold Live.generateShapes.
  rewrite <- (app_nil_r (sortedShapes config)).
  by rewrite (Live_pushShapes_app host placement _ [] nodes [] s H).
Qed.

Lemma Live_generateShapes_Throw (host : Host) (placement : Placement)
    (config : MultiShapeConfig) (e : Error) (s : Scene.State) :
  generateShapes host config = Throw e ->
  exists made,
    Live.generateShapes host placement config s
    = (Throw e, grown placement made s).
Proof.
  rewrite generateShapes_mapM.
  intros (before & c & after & Hsorted & Hbefore & Hc)%mapM_Throw.
  destruct (Live_batch_throws host placement before after c e s Hbefore Hc)
    as (nodes & left & Hthrow & _).
  exists (nodes ++ left). unfold Live.generateShapes. by rewrite Hsorted.
Qed.

Lemma showNode_grown (placement : Placement) (node : SceneNode)
    (s : Scene.State) :
  wellFormed s ->
  Live.showNode (length (Scene.objects s)) (grown placement [node] s)
  = (Ok tt, shownLive [node] s).
Proof. apply (showNodes_grown placement [node]). Qed.

(** X21.  On a document whose page lists objects of the document, the
    handler ends as the handler on nodes does, by a throw of the same
    error or normally; and when it ends normally, what it leaves on the
    page, in the selection and in the viewport, read through the
    references, is what the handler on nodes leaves, whether or not the
    host parents a node at its creation. *)
Theorem onmessage_view (host : Host) (placement : Placement)
    (msg : Message) (s : Scene.State) :
  wellFormed s ->
  (Live.onmessage host placement msg s).1 = (onmessage host msg (view s)).1
  /\ wellFormed (Live.onmessage host placement msg s).2
  /\ (succeeds (Live.onmessage host placement msg s).1 = true ->
      view (Live.onmessage host placement msg s).2
      = (onmessage host msg (view s)).2).
Proof.
  intros Hwf.
  destruct (Live_onmessage_cases host placement msg s)
    as [[Ht ->]|[[Ht ->]|[[Ht ->]|(H1 & H2 & H3 & ->)]]];
    destruct (onmessage_cases host msg (view s))
      as [[Ht' ->]|[[Ht' ->]|[[Ht' ->]|(H1' & H2' & H3' & ->)]]];
    try congruence.
  - destruct (starConfig_valid host) as [star Hstar].
    rewrite (Live_generateShape_Ok host placement _ star s Hstar), Hstar.
    rewrite (showNode_grown placement star s Hwf).
    destruct (view_shownLive [star] s Hwf) as [Hview Hwf'].
    cbn [fst snd]. split; [done|]. split; [exact Hwf'|].
    intros _. by rewrite view_closePlugin, Hview.
  - destruct (Msg.config msg) as [[c|config]|].
    + destruct (generateShape host c) as [n|e] eqn:Hc.
      * rewrite (Live_generateShape_Ok host placement c n s Hc).
        rewrite (showNode_grown placement n s Hwf).
        destruct (view_shownLive [n] s Hwf) as [Hview Hwf'].
        cbn [fst snd]. split; [done|]. by split.
      * destruct (Live_generateShape_Throw host placement c e s Hc)
          as (left & -> & _).
        cbn [fst snd]. split; [done|].
        split; [by apply wellFormed_grown|done].
    + destruct (generateShapes host config) as [nodes|e] eqn:Hg.
      * rewrite (Live_generateShapes_Ok host placement config nodes s Hg).
        rewrite (showNodes_grown placement nodes s Hwf).
        destruct (view_shownLive nodes s Hwf) as [Hview Hwf'].
        cbn [fst snd]. split; [done|]. by split.
      * destruct (Live_generateShapes_Throw host placement config e s Hg)
          as (made & ->).
        cbn [fst snd]. split; [done|].
        split; [by apply wellFormed_grown|done].
    + cbn [fst snd]. by split.
  - rewrite (onCreateShapes_shown placement _ s Hwf).
    destruct (view_shownLive (map createRect (upto (Msg.count msg))) s Hwf)
      as [Hview Hwf'].
    cbn [fst snd]. split; [done|]. split; [exact Hwf'|].
    intros _. by rewrite view_closePlugin, Hview.
  - cbn [fst snd]. split; [done|]. split; [exact Hwf|done].
Qed.

Lemma onmessage_view_witness :
  wellFormed Scene.initial
  /\ view (Live.onmessage figma Parented (fromJson (Multi scenario2))
             Scene.initial).2
     = shown scenario2_nodes Figma.initial.
Proof.
  assert (wellFormed Scene.initial) as Hwf by constructor.
  split; [exact Hwf|].
  destruct (onmessage_view figma Parented (fromJson (Multi scenario2))
              Scene.initial Hwf) as (_ & _ & Hview).
  rewrite Hview; vm_compute; reflexivity.
Defined.
